(** * Number Headings: heading numbering, table of contents and the compact
      front-matter codec

    A shallow embedding of [src/numbering.ts] and [src/frontMatter.ts].

    - JavaScript strings are sequences of UTF-16 code units: [jsstring] is
      [list N], written [js "..."] for ASCII literals.
    - JavaScript numbers that the code uses as counters, levels and
      positions are integers: heading levels and numeric tokens are [Z],
      line and column indices are [nat].
    - The regular expressions of the source are terms of [regex], run by a
      backtracking matcher with JavaScript's priorities (greedy quantifiers,
      left alternative first).
    - The editor is the list of its lines; the functions are [void] in the
      source and act on the editor by at most one [editor.transaction]
      call, so each returns the transaction it dispatches, if any;
      [saveSettingsToFrontMatter] calls [editor.replaceRange] and returns
      the editor it leaves, or the error it throws. *)

From Stdlib Require Import ZArith NArith Lia Bool.
From Stdlib Require Import Strings.String Strings.Ascii.
From Stdlib Require Import DecimalPos DecimalN DecimalZ.
From stdpp Require Import base list gmap.

Set Default Proof Using "Type".

(* ================================================================== *)
(** ** JavaScript strings *)
(* ================================================================== *)

Abbreviation jsstring := (list N).

Fixpoint js (s : string) : jsstring :=
  match s with
  | EmptyString => []
  | String c s' => N_of_ascii c :: js s'
  end.
Arguments js s%_string.

Definition str_eqb (a b : jsstring) : bool := bool_decide (a = b).

(** [\s] of a JavaScript regular expression, and the characters
    [trim], [trimLeft] and [trimStart] remove: WhiteSpace and
    LineTerminator. *)
Definition is_js_space (c : N) : bool :=
  ((9 <=? c) && (c <=? 13) || (c =? 32) || (c =? 160) || (c =? 5760)
   || (8192 <=? c) && (c <=? 8202) || (c =? 8232) || (c =? 8233)
   || (c =? 8239) || (c =? 8287) || (c =? 12288) || (c =? 65279))%N.

Definition is_hash (c : N) : bool := (c =? 35)%N.
Definition is_blank (c : N) : bool := (c =? 32)%N.
Definition is_digit (c : N) : bool := ((48 <=? c) && (c <=? 57))%N.
Definition is_upper (c : N) : bool := ((65 <=? c) && (c <=? 90))%N.
Definition is_dot (c : N) : bool := (c =? 46)%N.
(** [[:.-]] *)
Definition is_terminal_punct (c : N) : bool :=
  ((c =? 58) || (c =? 46) || (c =? 45))%N.

Fixpoint trimLeft (s : jsstring) : jsstring :=
  match s with
  | c :: s' => if is_js_space c then trimLeft s' else s
  | [] => []
  end.
Definition trimStart := trimLeft.
Definition trimRight (s : jsstring) : jsstring := reverse (trimLeft (reverse s)).
Definition trim (s : jsstring) : jsstring := trimRight (trimLeft s).

Fixpoint startsWith (s p : jsstring) : bool :=
  match p, s with
  | [], _ => true
  | c :: p', d :: s' => (c =? d)%N && startsWith s' p'
  | _ :: _, [] => false
  end.

Definition endsWith (s p : jsstring) : bool :=
  startsWith (reverse s) (reverse p).

(** [s.substring(n)] for [0 <= n]. *)
Definition substring_from (n : nat) (s : jsstring) : jsstring := drop n s.

(** [s.split(c)] for a one-character separator: never empty. *)
Fixpoint split_char (sep : N) (s : jsstring) : list jsstring :=
  match s with
  | [] => [[]]
  | c :: s' =>
      if (c =? sep)%N then [] :: split_char sep s'
      else match split_char sep s' with
           | p :: ps => (c :: p) :: ps
           | [] => [[c]]
           end
  end.

(** [s.contains(c)] (Obsidian's alias of [includes]) for one character. *)
Definition contains_char (s : jsstring) (c : N) : bool :=
  existsb (N.eqb c) s.

(** Decimal digits of [Number.prototype.toString] on an integer of
    magnitude 2^53 at most: a Number holds these exactly, and [toString]
    writes all their digits.  (Of a larger number [toString] writes the
    shortest digits that give the number back, and exponent notation from
    10^21 on; [number_toString] does not follow it there.) *)
Fixpoint uint_to_js (u : Decimal.uint) : jsstring :=
  match u with
  | Decimal.Nil => []
  | Decimal.D0 u => 48%N :: uint_to_js u
  | Decimal.D1 u => 49%N :: uint_to_js u
  | Decimal.D2 u => 50%N :: uint_to_js u
  | Decimal.D3 u => 51%N :: uint_to_js u
  | Decimal.D4 u => 52%N :: uint_to_js u
  | Decimal.D5 u => 53%N :: uint_to_js u
  | Decimal.D6 u => 54%N :: uint_to_js u
  | Decimal.D7 u => 55%N :: uint_to_js u
  | Decimal.D8 u => 56%N :: uint_to_js u
  | Decimal.D9 u => 57%N :: uint_to_js u
  end.

Definition number_toString (z : Z) : jsstring :=
  match Z.to_int z with
  | Decimal.Pos u => uint_to_js u
  | Decimal.Neg u => 45%N :: uint_to_js u
  end.

(* ================================================================== *)
(** ** Regular expressions *)
(* ================================================================== *)

Inductive regex : Type :=
| Eps
| Chr (p : N -> bool)
| Seq (r1 r2 : regex)
| Alt (r1 r2 : regex)
| Star (r : regex).

(** [r?], [r+] and [r{0,n}], all greedy. *)
Definition Opt (r : regex) : regex := Alt r Eps.
Definition Plus (r : regex) : regex := Seq r (Star r).
Fixpoint UpTo (n : nat) (r : regex) : regex :=
  match n with
  | O => Eps
  | S n' => Opt (Seq r (UpTo n' r))
  end.

(** The iteration of [r*]: try one more [r], then the rest; an iteration
    that consumes nothing is rejected, as in RepeatMatcher. *)
Fixpoint star_loop (step : jsstring -> (jsstring -> option jsstring) -> option jsstring)
    (fuel : nat) (s : jsstring) (k : jsstring -> option jsstring) : option jsstring :=
  match fuel with
  | O => k s
  | S fuel' =>
      match step s (fun s' => if (length s' <? length s)%nat
                              then star_loop step fuel' s' k else None) with
      | Some r => Some r
      | None => k s
      end
  end.

(** [rmatch r s k]: match [r] at the start of [s], then hand what is left
    of [s] to [k]; the result is what is left after the whole match. *)
Fixpoint rmatch (r : regex) (s : jsstring) (k : jsstring -> option jsstring)
    : option jsstring :=
  match r with
  | Eps => k s
  | Chr p => match s with
             | c :: s' => if p c then k s' else None
             | [] => None
             end
  | Seq a b => rmatch a s (fun s' => rmatch b s' k)
  | Alt a b => match rmatch a s k with
               | Some x => Some x
               | None => rmatch b s k
               end
  | Star a => star_loop (rmatch a) (length s) s k
  end.

(** The text an anchored pattern [/^r/] matches in [s]. *)
Definition exec_anchored (r : regex) (s : jsstring) : option jsstring :=
  match rmatch r s Some with
  | Some rest => Some (take (length s - length rest) s)
  | None => None
  end.

(** [s.match(/^r/g)]: the array of all matches, or [null].  The pattern
    is anchored and not multiline, so after a match at index 0 no later
    index matches: the array has one element. *)
Definition match_g_anchored (r : regex) (s : jsstring) : option (list jsstring) :=
  match exec_anchored r s with
  | Some m => Some [m]
  | None => None
  end.

(* ================================================================== *)
(** ** The editor and the heading cache (Obsidian's interfaces) *)
(* ================================================================== *)

Record EditorPosition := { line : nat; ch : nat }.
Record EditorRange := { range_from : EditorPosition; range_to : EditorPosition }.
Record EditorChange :=
  { change_text : jsstring; change_from : EditorPosition; change_to : EditorPosition }.

(** [heading], [level] and [position.start.line] of a [HeadingCache]. *)
Record HeadingCache :=
  { heading : jsstring; level : Z; position_start_line : nat }.

Record Editor := { doc_lines : list jsstring }.

(** [viewInfo.data.headings] may be absent; [viewInfo.editor]. *)
Record ViewInfo :=
  { data_headings : option (list HeadingCache); view_editor : Editor }.

(** [editor.getLine(n)]: [undefined] past the last line. *)
Definition getLine (e : Editor) (n : nat) : option jsstring := doc_lines e !! n.

Definition line_break : N := 10%N.

Fixpoint join_lines (ls : list jsstring) : jsstring :=
  match ls with
  | [] => []
  | [l] => l
  | l :: ls' => l ++ line_break :: join_lines ls'
  end.

(** [editor.getRange(from, to)]; positions past the text are clipped. *)
Definition getRange (e : Editor) (a b : EditorPosition) : jsstring :=
  if (line a =? line b)%nat then
    match getLine e (line a) with
    | Some l => drop (ch a) (take (ch b) l)
    | None => []
    end
  else
    match getLine e (line a) with
    | Some l =>
        join_lines (drop (ch a) l
                      :: take (line b - line a - 1) (drop (S (line a)) (doc_lines e))
                      ++ match getLine e (line b) with
                         | Some l' => [take (ch b) l']
                         | None => []
                         end)
    | None => []
    end.

(** Text split at line breaks ([\n], [\r] or [\r\n]): never empty. *)
Fixpoint split_lines (s : jsstring) : list jsstring :=
  match s with
  | [] => [[]]
  | c :: s' =>
      if (c =? 10)%N then [] :: split_lines s'
      else if (c =? 13)%N then
        match s' with
        | d :: s'' => if (d =? 10)%N then split_lines s' else [] :: split_lines s'
        | [] => [] :: split_lines s'
        end
      else match split_lines s' with
           | p :: ps => (c :: p) :: ps
           | [] => [[c]]
           end
  end.

(** The lines a replacement leaves: the pieces of the new text between
    its line breaks, the first after what stays of the line of [from],
    the last before what stays of the line of [to]. *)
Fixpoint append_to_last (pieces : list jsstring) (rest : jsstring) : list jsstring :=
  match pieces with
  | [] => [rest]
  | [p] => [p ++ rest]
  | p :: ps => p :: append_to_last ps rest
  end.
Definition prepend_to_first (start : jsstring) (pieces : list jsstring)
    : list jsstring :=
  match pieces with
  | [] => [start]
  | p :: ps => (start ++ p) :: ps
  end.

(** One change of a transaction: the text between [from] and [to] gives
    way to [text].  A position on a line the document does not have is a
    RangeError in the editor; the document is then left as it is. *)
Definition replaceRange (e : Editor) (c : EditorChange) : Editor :=
  match getLine e (line (change_from c)), getLine e (line (change_to c)) with
  | Some lf, Some lt =>
      {| doc_lines :=
           take (line (change_from c)) (doc_lines e)
           ++ prepend_to_first (take (ch (change_from c)) lf)
                (append_to_last (split_lines (change_text c))
                   (drop (ch (change_to c)) lt))
           ++ drop (S (line (change_to c))) (doc_lines e) |}
  | _, _ => e
  end.

(** [editor.transaction({changes})].  The positions of every change are
    positions in the document before the transaction.  The changes are
    applied one after the other here, which comes to the same for one
    change (the table of contents) and for changes on lines of their own
    whose texts hold no line break (the numbering operations): each
    rewrites its line of the document before the transaction. *)
Definition transaction (e : Editor) (cs : list EditorChange) : Editor :=
  foldl replaceRange e cs.

(** What a [void] operation leaves of the editor. *)
Definition dispatch (e : Editor) (tx : option (list EditorChange)) : Editor :=
  match tx with
  | Some cs => transaction e cs
  | None => e
  end.

(* ================================================================== *)
(** ** src/numbering.ts *)
(* ================================================================== *)

Definition TOC_LIST_ITEM_BULLET : jsstring := js "-".

(** [/^\s{0,4}#+/g] *)
Definition headingHashRegex : regex :=
  Seq (UpTo 4 (Chr is_js_space)) (Plus (Chr is_hash)).

(** The parts of the full-prefix pattern: [([0-9]+\.|[A-Z]\.)*],
    [([0-9]+|[A-Z])?], [[:.-]?] and [( )+]. *)
Definition numberGroup : regex :=
  Alt (Seq (Plus (Chr is_digit)) (Chr is_dot)) (Seq (Chr is_upper) (Chr is_dot)).
Definition numberGroups : regex := Star numberGroup.
Definition lastToken : regex := Opt (Alt (Plus (Chr is_digit)) (Chr is_upper)).
Definition terminalPunct : regex := Opt (Chr is_terminal_punct).
Definition blanks : regex := Plus (Chr is_blank).

(** [/^\s{0,4}#+( )?([0-9]+\.|[A-Z]\.)*([0-9]+|[A-Z])?[:.-]?( )+/g] *)
Definition headingPrefixRegex : regex :=
  Seq (UpTo 4 (Chr is_js_space))
  (Seq (Plus (Chr is_hash))
  (Seq (Opt (Chr is_blank))
  (Seq numberGroups
  (Seq lastToken
  (Seq terminalPunct
       blanks))))).

(** A line that is [undefined] or empty is falsy. *)
Definition truthy_line (l : option jsstring) : option jsstring :=
  match l with
  | Some (c :: s) => Some (c :: s)
  | _ => None
  end.

Definition makeHeadingHashString (editor : Editor) (h : HeadingCache)
    : option jsstring :=
  match truthy_line (getLine editor (position_start_line h)) with
  | None => None
  | Some headingLineString =>
      match match_g_anchored headingHashRegex headingLineString with
      | None => None
      | Some matches =>
          if negb (length matches =? 1)%nat then None
          else match matches with
               | m :: _ => Some (trimLeft m)
               | [] => None
               end
      end
  end.

(** A token is a Number or a string.  The Numbers of the tokens hold
    integers: [TNumber n] is the Number that holds [n]. *)
Inductive NumberingToken :=
| TNumber (n : Z)
| TString (s : jsstring).

Definition token_toString (t : NumberingToken) : jsstring :=
  match t with
  | TNumber n => number_toString n
  | TString s => s
  end.

Fixpoint numberingString_from (i : nat) (stack : list NumberingToken) : jsstring :=
  match stack with
  | [] => []
  | t :: rest =>
      (if (i =? 0)%nat then js " " else js ".")
        ++ token_toString t ++ numberingString_from (S i) rest
  end.

Definition makeNumberingString (numberingStack : list NumberingToken) : jsstring :=
  numberingString_from 0 numberingStack.

Definition getHeadingPrefixRange (editor : Editor) (h : HeadingCache)
    : option EditorRange :=
  match truthy_line (getLine editor (position_start_line h)) with
  | None => None
  | Some headingLineString =>
      let matches := match_g_anchored headingPrefixRegex headingLineString in
      if match matches with
         | Some ms => negb (length ms =? 1)%nat
         | None => false
         end
      then None
      else
        let m := match matches with
                 | Some (m :: _) => m
                 | _ => []
                 end in
        Some {| range_from := {| line := position_start_line h; ch := 0 |};
                range_to := {| line := position_start_line h; ch := length m |} |}
  end.

Definition zerothNumberingTokenInStyle (style : jsstring) : NumberingToken :=
  if str_eqb style (js "1") then TNumber 0
  else if str_eqb style (js "A") then TString (js "Z")
  else TNumber 0.

Definition firstNumberingTokenInStyle (style : jsstring) : NumberingToken :=
  if str_eqb style (js "1") then TNumber 1
  else if str_eqb style (js "A") then TString (js "A")
  else TNumber 1.

(** The Number nearest to an integer: the integer itself when its
    magnitude is below 2^53; 53 significant bits of it otherwise, rounded
    to the nearest, a tie to the even one (IEEE 754 binary64; the
    integers met here are far from its largest number). *)
Definition round_to_double (z : Z) : Z :=
  let a := Z.abs z in
  if (a <? 2 ^ 53)%Z then z
  else
    let e := (Z.log2 a - 52)%Z in
    let q := Z.shiftr a e in
    let r := Z.land a (Z.ones e) in
    let half := Z.shiftl 1 (e - 1) in
    let q' := if (r <? half)%Z then q
              else if (half <? r)%Z then (q + 1)%Z
              else if Z.even q then q else (q + 1)%Z in
    (Z.sgn z * Z.shiftl q' e)%Z.

(** [t + 1] on a Number is the Number nearest to the sum: from 2^53 on
    it is not always one more.
    [String.fromCharCode(t.charCodeAt(0) + 1)]: the code unit wraps at
    16 bits; [charCodeAt(0)] of the empty string is NaN, which
    [fromCharCode] turns into the code unit 0. *)
Definition nextNumberingToken (t : NumberingToken) : NumberingToken :=
  match t with
  | TNumber n => TNumber (round_to_double (n + 1))
  | TString s =>
      if str_eqb s (js "Z") then TString (js "A")
      else match s with
           | c :: _ => TString [((c + 1) mod 65536)%N]
           | [] => TString [0%N]
           end
  end.

Record NumberHeadingsPluginSettings :=
  { skipTopLevel : bool;
    firstLevel : Z;
    maxLevel : Z;
    styleLevel1 : jsstring;
    styleLevelOther : jsstring;
    auto : bool;
    separator : jsstring;
    contents : jsstring;
    startAt : jsstring }.

Definition cleanHeadingTextForToc (htext : jsstring) : jsstring :=
  if contains_char htext 94%N then
    match split_char 94%N htext with
    | x0 :: _ :: _ => trim x0
    | _ => trim htext
    end
  else trim htext.

Definition createTocEntry (h : HeadingCache) (settings : NumberHeadingsPluginSettings)
    : jsstring :=
  let text := heading h in
  let cleanText := cleanHeadingTextForToc text in
  let startLevel := (if skipTopLevel settings then 2 else 1)%Z in
  let bulletIndent := concat (replicate (Z.to_nat (level h - startLevel)) (js (String "009"%char EmptyString))) in
  let entryLink := js "[[#" ++ text ++ js "|" ++ cleanText ++ js "]]" in
  bulletIndent ++ TOC_LIST_ITEM_BULLET ++ js " " ++ entryLink.

Definition replaceRangeSafely (editor : Editor) (changes : list EditorChange)
    (range : EditorRange) (text : jsstring) : list EditorChange :=
  let previousText := getRange editor (range_from range) (range_to range) in
  if negb (str_eqb previousText text) then
    changes ++ [{| change_text := text;
                   change_from := range_from range;
                   change_to := range_to range |}]
  else changes.

(** The local variables of [updateHeadingNumbering]'s loop.  The stack is
    in array order: index 0 first, the top (what [pop] removes) last. *)
Record NumberingState :=
  { previousLevel : Z;
    numberingStack : list NumberingToken;
    changes : list EditorChange }.

(** How one pass of a loop body ends: [continue] (or falling off the end
    of the body), or [return] out of the whole function, each with the
    local variables at that point. *)
Inductive Outcome (S : Type) :=
| Continue (st : S)
| Return (st : S).
Arguments Continue {S} st.
Arguments Return {S} st.

(** [const x = stack.pop(); if (x !== undefined) stack.push(nextNumberingToken(x))] *)
Definition pop_push_next (stack : list NumberingToken) : list NumberingToken :=
  match last stack with
  | Some x => removelast stack ++ [nextNumberingToken x]
  | None => stack
  end.

(** [for (let i = previousLevel; i > level; i--) numberingStack.pop()],
    as many times as the loop runs. *)
Fixpoint pop_times (n : nat) (stack : list NumberingToken) : list NumberingToken :=
  match n with
  | O => stack
  | S n' => pop_times n' (removelast stack)
  end.

(** [for (let i = previousLevel; i < level; i++) numberingStack.push(t)] *)
Fixpoint push_times (n : nat) (t : NumberingToken) (stack : list NumberingToken)
    : list NumberingToken :=
  match n with
  | O => stack
  | S n' => push_times n' t (stack ++ [t])
  end.

(** The [if / else if / else if] on [level] and [previousLevel]. *)
Definition adjustNumberingStack (settings : NumberHeadingsPluginSettings)
    (prev lvl : Z) (stack : list NumberingToken) : list NumberingToken :=
  if (lvl =? prev)%Z then pop_push_next stack
  else if (lvl <? prev)%Z then
    pop_push_next (pop_times (Z.to_nat (prev - lvl)) stack)
  else if (lvl >? prev)%Z then
    push_times (Z.to_nat (lvl - prev))
      (firstNumberingTokenInStyle (styleLevelOther settings)) stack
  else stack.

(** The test of line 166 (and of line 246): the top level when it is
    skipped, or a level deeper than [maxLevel]. *)
Definition isExcluded (settings : NumberHeadingsPluginSettings) (lvl : Z) : bool :=
  (skipTopLevel settings && (lvl =? 1)%Z) || (lvl >? maxLevel settings)%Z.

(** The body of the [for (const heading of headings)] loop. *)
Definition numberingStep (settings : NumberHeadingsPluginSettings) (editor : Editor)
    (st : NumberingState) (h : HeadingCache) : Outcome NumberingState :=
  let lvl := level h in
  if isExcluded settings lvl then
    match getHeadingPrefixRange editor h with
    | Some prefixRange =>
        match makeHeadingHashString editor h with
        | None => Continue st
        | Some headingHashString =>
            Continue {| previousLevel := previousLevel st;
                        numberingStack := numberingStack st;
                        changes := replaceRangeSafely editor (changes st) prefixRange
                                     (headingHashString ++ js " ") |}
        end
    | None => Continue st
    end
  else
    let stack := adjustNumberingStack settings (previousLevel st) lvl (numberingStack st) in
    let st' := {| previousLevel := lvl; numberingStack := stack; changes := changes st |} in
    if (lvl >? maxLevel settings)%Z then Continue st'
    else
      match getHeadingPrefixRange editor h with
      | None => Return st'
      | Some prefixRange =>
          match makeHeadingHashString editor h with
          | None => Return st'
          | Some headingHashString =>
              let prefixString := makeNumberingString stack in
              Continue {| previousLevel := lvl;
                          numberingStack := stack;
                          changes := replaceRangeSafely editor (changes st) prefixRange
                                       (headingHashString ++ prefixString
                                          ++ separator settings ++ js " ") |}
          end
      end.

(** A [for ... of] loop over [body]. *)
Fixpoint for_of {S A : Type} (body : S -> A -> Outcome S) (st : S) (l : list A)
    : Outcome S :=
  match l with
  | [] => Continue st
  | x :: l' =>
      match body st x with
      | Continue st' => for_of body st' l'
      | Return st' => Return st'
      end
  end.

Definition initialNumberingState (settings : NumberHeadingsPluginSettings)
    : NumberingState :=
  {| previousLevel := if skipTopLevel settings then 2 else 1;
     numberingStack := [zerothNumberingTokenInStyle (styleLevel1 settings)];
     changes := [] |}.

(** [if (changes.length > 0) editor.transaction({ changes })] *)
Definition transaction_of (cs : list EditorChange) : option (list EditorChange) :=
  match cs with
  | [] => None
  | _ :: _ => Some cs
  end.

Definition headings_of (v : ViewInfo) : list HeadingCache :=
  match data_headings v with
  | Some hs => hs
  | None => []
  end.

(** The transaction [updateHeadingNumbering] dispatches, if any. *)
Definition updateHeadingNumbering (viewInfo : option ViewInfo)
    (settings : NumberHeadingsPluginSettings) : option (list EditorChange) :=
  match viewInfo with
  | None => None
  | Some v =>
      match for_of (numberingStep settings (view_editor v))
              (initialNumberingState settings) (headings_of v) with
      | Return _ => None
      | Continue st => transaction_of (changes st)
      end
  end.

(** The body of [removeHeadingNumbering]'s loop; its state is [changes]. *)
Definition removalStep (editor : Editor) (changes : list EditorChange)
    (h : HeadingCache) : Outcome (list EditorChange) :=
  match getHeadingPrefixRange editor h with
  | None => Return changes
  | Some prefixRange =>
      match makeHeadingHashString editor h with
      | None => Return changes
      | Some headingHashString =>
          Continue (replaceRangeSafely editor changes prefixRange
                      (headingHashString ++ js " "))
      end
  end.

(** The transaction [removeHeadingNumbering] dispatches, if any. *)
Definition removeHeadingNumbering (viewInfo : option ViewInfo)
    : option (list EditorChange) :=
  match viewInfo with
  | None => None
  | Some v =>
      match for_of (removalStep (view_editor v)) [] (headings_of v) with
      | Return _ => None
      | Continue cs => transaction_of cs
      end
  end.

(** The scan of lines 264-286 from [startingLine] on, over the lines that
    are left ([editor.getLine] is [undefined] after them): the value of
    [endingLine] when the loop is left. *)
Fixpoint scanTocList (startingLine endingLine : nat) (foundList : bool)
    (rest : list jsstring) : nat :=
  match rest with
  | [] => startingLine
  | l :: rest' =>
      let trimmedLineText := trimStart l in
      if foundList then
        if negb (startsWith trimmedLineText TOC_LIST_ITEM_BULLET) then endingLine
        else if startsWith trimmedLineText (js "#") then endingLine
        else scanTocList startingLine (S endingLine) foundList rest'
      else
        if startsWith trimmedLineText TOC_LIST_ITEM_BULLET then
          scanTocList startingLine (S endingLine) true rest'
        else if startsWith trimmedLineText (js "#") then startingLine
        else scanTocList startingLine (S endingLine) foundList rest'
  end.

(** The first loop of [updateTableOfContents]: the anchor heading found
    so far and the list built so far. *)
Definition tocStep (settings : NumberHeadingsPluginSettings)
    (st : option HeadingCache * jsstring) (h : HeadingCache)
    : option HeadingCache * jsstring :=
  let tocHeading := if endsWith (heading h) (contents settings) then Some h else fst st in
  if isExcluded settings (level h) then (tocHeading, snd st)
  else (tocHeading, snd st ++ createTocEntry h settings ++ [line_break]).

Section TableOfContents.
(** [doesContentsHaveValue] of [settingsTypes.ts], which is not among
    the sources. *)
Variable doesContentsHaveValue : jsstring -> bool.

(** The transaction [updateTableOfContents] dispatches, if any. *)
Definition updateTableOfContents (viewInfo : option ViewInfo)
    (settings : NumberHeadingsPluginSettings) : option (list EditorChange) :=
  match viewInfo with
  | None => None
  | Some v =>
      let editor := view_editor v in
      if negb (doesContentsHaveValue (contents settings)) then None
      else
        let '(tocHeading, tocBuilder) :=
          foldl (tocStep settings) (None, [line_break]) (headings_of v) in
        match tocHeading with
        | Some t =>
            let from := {| line := position_start_line t + 1; ch := 0 |} in
            let startingLine := position_start_line t + 1 in
            let endingLine :=
              scanTocList startingLine startingLine false
                (drop startingLine (doc_lines editor)) in
            let to := {| line := endingLine; ch := 0 |} in
            let range := {| range_from := from; range_to := to |} in
            let tocBuilder :=
              if str_eqb tocBuilder [line_break] then [] else tocBuilder in
            transaction_of (replaceRangeSafely editor [] range tocBuilder)
        | None => transaction_of []
        end
  end.
End TableOfContents.

(* ================================================================== *)
(** ** src/frontMatter.ts *)
(* ================================================================== *)

Definition AUTO_PART_KEY : jsstring := js "auto".
Definition FIRST_LEVEL_PART_KEY : jsstring := js "first-level".
Definition MAX_LEVEL_PART_KEY : jsstring := js "max".
Definition CONTENTS_PART_KEY : jsstring := js "contents".
Definition START_AT_PART_KEY : jsstring := js "start-at".

(** The value of a digit of [parseInt] in the given radix. *)
Definition digit_value (radix : Z) (c : N) : option Z :=
  let v := if is_digit c then Some (Z.of_N c - 48)%Z
           else if ((97 <=? c) && (c <=? 102))%N then Some (Z.of_N c - 87)%Z
           else if ((65 <=? c) && (c <=? 70))%N then Some (Z.of_N c - 55)%Z
           else None in
  match v with
  | Some d => if (d <? radix)%Z then Some d else None
  | None => None
  end.

(** The longest run of digits, read from the left; [None] when there is
    no digit. *)
Fixpoint parse_digits (radix : Z) (acc : option Z) (s : jsstring) : option Z :=
  match s with
  | c :: s' =>
      match digit_value radix c with
      | Some d => parse_digits radix
                    (Some (match acc with Some a => a * radix + d | None => d end)%Z) s'
      | None => acc
      end
  | [] => acc
  end.

(** [parseInt(s)] without a radix: leading white space, a sign, [0x] for
    hexadecimal, then digits; [None] is NaN. *)
Definition parseInt (s : jsstring) : option Z :=
  let s := trimLeft s in
  let '(neg, s) := match s with
                   | 45%N :: s' => (true, s')
                   | 43%N :: s' => (false, s')
                   | _ => (false, s)
                   end in
  let r := match s with
           | 48%N :: 120%N :: s' => parse_digits 16 None s'
           | 48%N :: 88%N :: s' => parse_digits 16 None s'
           | _ => parse_digits 10 None s
           end in
  match r with
  | Some v => Some (if neg then - v else v)%Z
  | None => None
  end.

(** The front matter of a note whose values are strings: a JavaScript
    object with string keys.  (A value that YAML reads as a boolean or a
    number is not in this model: of those the falsy ones, [false] and
    [0], fail the test [if (entry)] of the source although their
    [String(...)] is not empty.) *)
Definition parseFrontMatterEntry (fm : gmap (list N) (list N)) (key : jsstring)
    : option jsstring := fm !! key.

(** [settings.f = v] on the copy of the settings. *)
Definition set_auto (v : bool) (s : NumberHeadingsPluginSettings) :=
  {| skipTopLevel := skipTopLevel s; firstLevel := firstLevel s; maxLevel := maxLevel s;
     styleLevel1 := styleLevel1 s; styleLevelOther := styleLevelOther s; auto := v;
     separator := separator s; contents := contents s; startAt := startAt s |}.
Definition set_firstLevel (v : Z) (s : NumberHeadingsPluginSettings) :=
  {| skipTopLevel := skipTopLevel s; firstLevel := v; maxLevel := maxLevel s;
     styleLevel1 := styleLevel1 s; styleLevelOther := styleLevelOther s; auto := auto s;
     separator := separator s; contents := contents s; startAt := startAt s |}.
Definition set_maxLevel (v : Z) (s : NumberHeadingsPluginSettings) :=
  {| skipTopLevel := skipTopLevel s; firstLevel := firstLevel s; maxLevel := v;
     styleLevel1 := styleLevel1 s; styleLevelOther := styleLevelOther s; auto := auto s;
     separator := separator s; contents := contents s; startAt := startAt s |}.
Definition set_contents (v : jsstring) (s : NumberHeadingsPluginSettings) :=
  {| skipTopLevel := skipTopLevel s; firstLevel := firstLevel s; maxLevel := maxLevel s;
     styleLevel1 := styleLevel1 s; styleLevelOther := styleLevelOther s; auto := auto s;
     separator := separator s; contents := v; startAt := startAt s |}.
Definition set_startAt (v : jsstring) (s : NumberHeadingsPluginSettings) :=
  {| skipTopLevel := skipTopLevel s; firstLevel := firstLevel s; maxLevel := maxLevel s;
     styleLevel1 := styleLevel1 s; styleLevelOther := styleLevelOther s; auto := auto s;
     separator := separator s; contents := contents s; startAt := v |}.

Section CompactFrontMatter.
(** What [frontMatter.ts] imports from [settingsTypes.ts] and
    [textProcessing.ts], which are not among the sources.  A level
    that is NaN is taken to be invalid. *)
Variable DEFAULT_SETTINGS : NumberHeadingsPluginSettings.
Variable isValidFirstOrMaxLevel : Z -> bool.
Variable isValidNumberingValueString : jsstring -> bool.
Variable isValidContents : jsstring -> bool.
Variable updateSettingsFromFrontMatterFormatPart :
  jsstring -> NumberHeadingsPluginSettings -> NumberHeadingsPluginSettings.

(** The body of the [for (const part of parts)] loop. *)
Definition parsePart (settings : NumberHeadingsPluginSettings) (part : jsstring)
    : NumberHeadingsPluginSettings :=
  let trimmedPart := trim part in
  if (length trimmedPart =? 0)%nat then settings
  else if str_eqb trimmedPart AUTO_PART_KEY then set_auto true settings
  else if startsWith trimmedPart FIRST_LEVEL_PART_KEY then
    let nstring := substring_from (length FIRST_LEVEL_PART_KEY + 1) trimmedPart in
    match parseInt nstring with
    | Some n => if isValidFirstOrMaxLevel n then set_firstLevel n settings else settings
    | None => settings
    end
  else if startsWith trimmedPart MAX_LEVEL_PART_KEY then
    let nstring := substring_from (length MAX_LEVEL_PART_KEY + 1) trimmedPart in
    match parseInt nstring with
    | Some n => if isValidFirstOrMaxLevel n then set_maxLevel n settings else settings
    | None => settings
    end
  else if startsWith trimmedPart START_AT_PART_KEY then
    let value := substring_from (length START_AT_PART_KEY + 1) trimmedPart in
    if isValidNumberingValueString value then set_startAt value settings else settings
  else if startsWith trimmedPart CONTENTS_PART_KEY then
    if (length trimmedPart <=? length CONTENTS_PART_KEY + 1)%nat then settings
    else
      let tocHeading := substring_from (length CONTENTS_PART_KEY + 1) trimmedPart in
      if isValidContents tocHeading then set_contents tocHeading settings else settings
  else updateSettingsFromFrontMatterFormatPart trimmedPart settings.

(** The settings a directive string stands for. *)
Definition parseDirective (entryString : jsstring) : NumberHeadingsPluginSettings :=
  foldl parsePart DEFAULT_SETTINGS (split_char 44%N entryString).

Definition parseCompactFrontMatterSettings (fm : gmap (list N) (list N))
    : option NumberHeadingsPluginSettings :=
  match parseFrontMatterEntry fm (js "number headings") with
  | Some (c :: entry) => Some (parseDirective (c :: entry))
  | _ => None
  end.
End CompactFrontMatter.

Definition settingsToCompactFrontMatterValue (settings : NumberHeadingsPluginSettings)
    : jsstring :=
  let autoPart := if auto settings then js "auto, " else [] in
  let firstLevelPart := js "first-level " ++ number_toString (firstLevel settings) ++ js ", " in
  let maxPart := js "max " ++ number_toString (maxLevel settings) ++ js ", " in
  let contentsPart :=
    if (0 <? length (contents settings))%nat
    then js "contents " ++ contents settings ++ js ", " else [] in
  let skipTopLevelString := if skipTopLevel settings then js "_." else [] in
  let stylePart := skipTopLevelString ++ styleLevel1 settings ++ js "."
                     ++ styleLevelOther settings ++ separator settings in
  let startAtPart :=
    if negb (str_eqb (startAt settings) [])
    then js "start-at " ++ startAt settings ++ js ", " else [] in
  autoPart ++ firstLevelPart ++ maxPart ++ contentsPart ++ startAtPart ++ stylePart.

(** [editor.lastLine()]: the number of the last line. *)
Definition lastLine (e : Editor) : nat := length (doc_lines e) - 1.

(** The loop of [findLineWhichStartsWith] at line [i], with [n] lines to
    go before [editor.lastLine()].  ([getLine] is defined on all of them;
    on [undefined] the call of [startsWith] would be a TypeError.) *)
Fixpoint findLineLoop (editor : Editor) (search : jsstring) (i n : nat) : option nat :=
  match n with
  | O => None
  | S n' =>
      match getLine editor i with
      | Some lineString =>
          if startsWith lineString search then Some i
          else findLineLoop editor search (S i) n'
      | None => None
      end
  end.

Definition findLineWhichStartsWith (editor : Editor) (search : jsstring)
    (afterLine : nat) : option nat :=
  findLineLoop editor search afterLine (lastLine editor - afterLine).

(** The front matter as [saveSettingsToFrontMatter] reads it: its keys
    and [position.start.line]. *)
Record FrontMatterCache :=
  { fm_entries : gmap (list N) (list N); fm_position_start_line : nat }.

(** How a call ends: normally, or by [throw new Error(message)]. *)
Inductive Completion (A : Type) :=
| Normal (a : A)
| Throw (message : jsstring).
Arguments Normal {A} a.
Arguments Throw {A} message.

Definition keyNotFoundMessage : jsstring :=
  js "Number Headings Plugin: " ++ [34%N] ++ js "number headings" ++ [34%N]
    ++ js " key exists but not found.".

(** [`number headings: ${v}\n`] *)
Definition frontMatterAdditions (v : jsstring) : jsstring :=
  js "number headings: " ++ v ++ [line_break].

(** [`---\nnumber headings: ${v}\n---\n\n`] *)
Definition newFrontMatter (v : jsstring) : jsstring :=
  js "---" ++ [line_break] ++ js "number headings: " ++ v ++ [line_break]
    ++ js "---" ++ [line_break; line_break].

(** [editor.replaceRange(text, from, to)] *)
Definition editor_replaceRange (e : Editor) (text : jsstring) (a b : EditorPosition)
    : Editor :=
  replaceRange e {| change_text := text; change_from := a; change_to := b |}.

(** The editor [saveSettingsToFrontMatter] leaves, or the error it
    throws. *)
Definition saveSettingsToFrontMatter (frontmatter : option FrontMatterCache)
    (editor : Editor) (settings : NumberHeadingsPluginSettings) : Completion Editor :=
  match frontmatter with
  | Some fm =>
      let frontMatterLine := fm_position_start_line fm in
      let v := settingsToCompactFrontMatterValue settings in
      match fm_entries fm !! js "number headings" with
      | Some _ =>
          match findLineWhichStartsWith editor (js "number headings") frontMatterLine with
          | None => Throw keyNotFoundMessage
          | Some keyLine =>
              Normal (editor_replaceRange editor (frontMatterAdditions v)
                        {| line := keyLine; ch := 0 |}
                        {| line := keyLine + 1; ch := 0 |})
          end
      | None =>
          Normal (editor_replaceRange editor (frontMatterAdditions v)
                    {| line := frontMatterLine + 1; ch := 0 |}
                    {| line := frontMatterLine + 1; ch := 0 |})
      end
  | None =>
      let v := settingsToCompactFrontMatterValue settings in
      Normal (editor_replaceRange editor (newFrontMatter v)
                {| line := 0; ch := 0 |} {| line := 0; ch := 0 |})
  end.

(* ================================================================== *)
(** ** Notions the properties are stated with *)
(* ================================================================== *)

(** The local variables of the numbering loop after each heading it got
    to, the one it returned at included. *)
Fixpoint for_of_trace {S A : Type} (body : S -> A -> Outcome S) (st : S) (l : list A)
    : list S :=
  match l with
  | [] => []
  | x :: l' =>
      match body st x with
      | Continue st' => st' :: for_of_trace body st' l'
      | Return st' => [st']
      end
  end.

(** Whether a text begins with a character of a class. *)
Definition head_is (p : N -> bool) (s : jsstring) : bool :=
  match s with
  | c :: _ => p c
  | [] => false
  end.

(** The tokens the numbering puts on the stack: an integer from 0 to
    2^53 (where [t + 1] stops going up), or one uppercase letter. *)
Definition isPatternToken (t : NumberingToken) : bool :=
  match t with
  | TNumber n => (0 <=? n)%Z && (n <=? 2 ^ 53)%Z
  | TString [c] => is_upper c
  | TString _ => false
  end.

(** A marker run: one [#] or more. *)
Definition isMarkerRun (m : jsstring) : Prop :=
  m <> [] /\ Forall (fun c => is_hash c = true) m.

(** The text of a numeric token: one digit or more. *)
Definition isDigits (d : jsstring) : Prop :=
  d <> [] /\ Forall (fun c => is_digit c = true) d.

(** What the pattern has to find after the [( )?] on a numbered line:
    the last token, the punctuation and the blanks. *)
Definition afterGroups (s : jsstring) : option jsstring :=
  rmatch lastToken s (fun s1 => rmatch terminalPunct s1 (fun s2 => rmatch blanks s2 Some)).

(** The full-prefix pattern after [^\s{0,4}#+]. *)
Definition afterMarker : regex :=
  Seq (Opt (Chr is_blank)) (Seq numberGroups (Seq lastToken (Seq terminalPunct blanks))).

(** A text without a line break. *)
Definition noLineBreak (s : jsstring) : Prop :=
  Forall (fun c => c <> 10%N /\ c <> 13%N) s.

(** An edit of the numbering operations: it replaces the first columns
    of one line by a text without a line break. *)
Definition isPrefixEdit (c : EditorChange) : Prop :=
  line (change_to c) = line (change_from c)
  /\ ch (change_from c) = 0%nat
  /\ noLineBreak (change_text c).

(** The local variables with another batch. *)
Definition with_changes (st : NumberingState) (cs : list EditorChange)
    : NumberingState :=
  {| previousLevel := previousLevel st;
     numberingStack := numberingStack st;
     changes := cs |}.

(** The local variables an outcome carries. *)
Definition outcome_state {S : Type} (o : Outcome S) : S :=
  match o with
  | Continue st => st
  | Return st => st
  end.

(** The texts a pattern can match, whatever the priorities. *)
Inductive matches : regex -> jsstring -> Prop :=
| matches_eps : matches Eps []
| matches_chr p c : p c = true -> matches (Chr p) [c]
| matches_seq a b x y : matches a x -> matches b y -> matches (Seq a b) (x ++ y)
| matches_alt_l a b x : matches a x -> matches (Alt a b) x
| matches_alt_r a b x : matches b x -> matches (Alt a b) x
| matches_star_nil a : matches (Star a) []
| matches_star_cons a x y :
    matches a x -> matches (Star a) y -> matches (Star a) (x ++ y).

(** [startLevel] of [createTocEntry]; the first value of [previousLevel]. *)
Definition startLevel (settings : NumberHeadingsPluginSettings) : Z :=
  if skipTopLevel settings then 2 else 1.




(** What the loop keeps true of [previousLevel] and the stack. *)
Definition stackInvariant (settings : NumberHeadingsPluginSettings)
    (st : NumberingState) : Prop :=
  Z.of_nat (length (numberingStack st)) = (previousLevel st - startLevel settings + 1)%Z
  /\ (startLevel settings <= previousLevel st)%Z.

(** The parent of a heading: the nearest heading before it of a smaller
    level ([before] lists the levels before it, nearest first). *)
Fixpoint parentLevel (before : list Z) (lvl : Z) : option Z :=
  match before with
  | [] => None
  | p :: before' => if (p <? lvl)%Z then Some p else parentLevel before' lvl
  end.

(** Levels are positive and every heading that has a parent is one level
    below it. *)
Fixpoint wellNestedAfter (before : list Z) (levels : list Z) : bool :=
  match levels with
  | [] => true
  | l :: levels' =>
      (1 <=? l)%Z
      && match parentLevel before l with
         | Some p => (l =? p + 1)%Z
         | None => true
         end
      && wellNestedAfter (l :: before) levels'
  end.
Definition wellNested (levels : list Z) : bool := wellNestedAfter [] levels.


(** The text [getHeadingPrefixRange] measures: what the full-prefix
    pattern matches on the line, nothing when it does not match. *)
Definition headingPrefixText (l : jsstring) : jsstring :=
  match exec_anchored headingPrefixRegex l with
  | Some m => m
  | None => []
  end.

(** What follows the prefix on a heading line. *)
Definition headingBodyText (l : jsstring) : jsstring :=
  drop (length (headingPrefixText l)) l.

(** The marker run of a line, as [makeHeadingHashString] finds it. *)
Definition markerRun (l : jsstring) : option jsstring :=
  match l with
  | [] => None
  | _ :: _ =>
      match exec_anchored headingHashRegex l with
      | Some m => Some (trimLeft m)
      | None => None
      end
  end.

(** The separators the full-prefix pattern knows: none, or one of
    [: . -]. *)
Definition isPatternSeparator (sep : jsstring) : bool :=
  match sep with
  | [] => true
  | [c] => is_terminal_punct c
  | _ => false
  end.

(** What [replaceRangeSafely] adds to the batch for the prefix of the
    line [l], number [n]: nothing when the prefix is [text] already. *)
Definition prefixEdit (n : nat) (l text : jsstring) : list EditorChange :=
  if str_eqb (headingPrefixText l) text then []
  else [{| change_text := text;
           change_from := {| line := n; ch := 0 |};
           change_to := {| line := n; ch := length (headingPrefixText l) |} |}].

(** Edits of the prefix of the line [n]. *)
Definition editsOn (n : nat) (ed : list EditorChange) : Prop :=
  Forall (fun c => isPrefixEdit c /\ line (change_from c) = n) ed.

(** A heading on whose line the marker-only scan succeeds. *)
Definition hasMarkerRun (e : Editor) (h : HeadingCache) : Prop :=
  exists l m, getLine e (position_start_line h) = Some l /\ markerRun l = Some m.

(** What numbering owes a heading with the line [l] and the marker run
    [m]: the edits leave a line with the same marker run; when the
    heading is numbered and its body does not begin with a blank, with
    the same body after a new prefix; when the heading is excluded, the
    marker run, one space and the body. *)
Definition numberedAs (settings : NumberHeadingsPluginSettings) (e : Editor)
    (h : HeadingCache) (ed : list EditorChange) : Prop :=
  forall l m,
    getLine e (position_start_line h) = Some l -> markerRun l = Some m ->
    exists l1,
      getLine (transaction e ed) (position_start_line h) = Some l1
      /\ markerRun l1 = Some m
      /\ (isExcluded settings (level h) = false ->
          head_is is_blank (headingBodyText l) = false ->
          headingBodyText l1 = headingBodyText l)
      /\ (isExcluded settings (level h) = true ->
          l1 = m ++ js " " ++ headingBodyText l).

(** What removal owes a heading with the line [l] and the marker run [m]:
    the marker run, one space and the body. *)
Definition strippedAs (e : Editor) (h : HeadingCache) (ed : list EditorChange) : Prop :=
  forall l m,
    getLine e (position_start_line h) = Some l -> markerRun l = Some m ->
    getLine (transaction e ed) (position_start_line h)
    = Some (m ++ js " " ++ headingBodyText l).

(** A heading a second run leaves alone.  One that is numbered: its line
    matches the full-prefix pattern, or does not begin with a blank (the
    new prefix is then put before the whole line).  One that is excluded:
    once its prefix is the marker run and a space, the pattern finds
    nothing more to strip at the start of the body. *)
Definition stableHeading (settings : NumberHeadingsPluginSettings) (e : Editor)
    (h : HeadingCache) : bool :=
  match getLine e (position_start_line h) with
  | Some l =>
      match markerRun l with
      | Some m =>
          if isExcluded settings (level h)
          then str_eqb (headingPrefixText (m ++ js " " ++ headingBodyText l)) (m ++ js " ")
          else match exec_anchored headingPrefixRegex l with
               | Some _ => true
               | None => negb (head_is is_blank l)
               end
      | None => true
      end
  | None => true
  end.

Definition mkHeading (lvl : Z) (n : nat) (text : jsstring) : HeadingCache :=
  {| heading := text; level := lvl; position_start_line := n |}.

Definition mkSettings (skip : bool) (maxL : Z) (s1 sO sep : jsstring)
    : NumberHeadingsPluginSettings :=
  {| skipTopLevel := skip; firstLevel := 1; maxLevel := maxL;
     styleLevel1 := s1; styleLevelOther := sO; auto := false;
     separator := sep; contents := []; startAt := [] |}.

Definition mkView (ls : list jsstring) (hs : list HeadingCache) : ViewInfo :=
  {| data_headings := Some hs; view_editor := {| doc_lines := ls |} |}.

(** The view after an operation: the editor after the transaction, the
    levels and lines of the headings as before (the numbering operations
    rewrite the start of heading lines, after the marker run is put back). *)
Definition after (v : ViewInfo) (tx : option (list EditorChange)) : ViewInfo :=
  {| data_headings := data_headings v; view_editor := dispatch (view_editor v) tx |}.

(** *** Documents of the examples *)

(** Section 8's example: five headings on two levels. *)
Definition exampleLines : list jsstring :=
  [js "# Intro"; js "## Background"; js "## Related Work"; js "# Methods"; js "## Setup"].
Definition exampleHeadings : list HeadingCache :=
  [mkHeading 1 0 (js "Intro"); mkHeading 2 1 (js "Background");
   mkHeading 2 2 (js "Related Work"); mkHeading 1 3 (js "Methods");
   mkHeading 2 4 (js "Setup")].
Definition exampleSettings (maxL : Z) : NumberHeadingsPluginSettings :=
  mkSettings false maxL (js "1") (js "1") (js ".").

(** A note whose second heading is underlined (a setext heading: its
    line holds no marker). *)
Definition setextLines : list jsstring :=
  [js "# Intro"; js "Summary"; js "======="].
Definition setextNumberedLines : list jsstring :=
  [js "# 1. Intro"; js "Summary"; js "======="].
Definition setextHeadings : list HeadingCache :=
  [mkHeading 1 0 (js "Intro"); mkHeading 1 1 (js "Summary")].

(** The same with a second-level underlined heading, deeper than a
    [maxLevel] of 1. *)
Definition deepSetextLines : list jsstring :=
  [js "# Intro"; js "Details"; js "-------"].
Definition deepSetextHeadings : list HeadingCache :=
  [mkHeading 1 0 (js "Intro"); mkHeading 2 1 (js "Details")].

(** *** A note whose contents list runs to the end of the document *)

Definition contentsSettings : NumberHeadingsPluginSettings :=
  {| skipTopLevel := false; firstLevel := 1; maxLevel := 6;
     styleLevel1 := js "1"; styleLevelOther := js "1"; auto := false;
     separator := js "."; contents := js "Contents"; startAt := [] |}.
Definition contentsLines : list jsstring :=
  [js "# Contents"; js ""; js "- [[#Old|Old]]"; js "- [[#Older|Older]]"].
Definition contentsHeadings : list HeadingCache :=
  [mkHeading 1 0 (js "Contents")].

(** Modelled from the spec: [doesContentsHaveValue] of [settingsTypes.ts],
    which is not among the sources.  Section 3: the table-of-contents
    marker is optional; it has a value when it is not empty. *)
Definition specContentsHaveValue (c : jsstring) : bool := (0 <? length c)%nat.

(** A line of a bullet list, and a line that is neither one nor a
    heading, as the scan of [updateTableOfContents] tells them. *)
Definition isBulletLine (l : jsstring) : bool :=
  startsWith (trimStart l) TOC_LIST_ITEM_BULLET.
Definition isPlainLine (l : jsstring) : bool :=
  negb (startsWith (trimStart l) TOC_LIST_ITEM_BULLET)
  && negb (startsWith (trimStart l) (js "#")).

(** *** The directive of the round-trip example *)

Definition overviewSettings : NumberHeadingsPluginSettings :=
  {| skipTopLevel := false; firstLevel := 2; maxLevel := 4;
     styleLevel1 := js "1"; styleLevelOther := js "A"; auto := true;
     separator := js "."; contents := js "Overview"; startAt := [] |}.

(** The four settings a format token carries, written into [s]. *)
Definition set_format (skip : bool) (s1 sO sep : jsstring)
    (s : NumberHeadingsPluginSettings) : NumberHeadingsPluginSettings :=
  {| skipTopLevel := skip; firstLevel := firstLevel s; maxLevel := maxLevel s;
     styleLevel1 := s1; styleLevelOther := sO; auto := auto s;
     separator := sep; contents := contents s; startAt := startAt s |}.

Definition is_style_char (c : N) : bool := ((c =? 49) || (c =? 65))%N.

(** Modelled from the spec: [updateSettingsFromFrontMatterFormatPart] of
    [textProcessing.ts], which is not among the sources.  Section 6: a
    format token matches [(_\.)?(1|A)\.(1|A)[SEP]?], SEP one of the
    separator characters [. : -], the prefix [_.] meaning skip-top-level;
    section 4.5: it yields the skip flag, the two styles and the
    separator.  Any other token leaves the settings as they are. *)
Definition specFormatPart (part : jsstring) (s : NumberHeadingsPluginSettings)
    : NumberHeadingsPluginSettings :=
  let '(skip, rest) := match part with
                       | 95%N :: 46%N :: r => (true, r)
                       | _ => (false, part)
                       end in
  match rest with
  | c1 :: 46%N :: c2 :: sep =>
      if is_style_char c1 && is_style_char c2 && isPatternSeparator sep
      then set_format skip [c1] [c2] sep s
      else s
  | _ => s
  end.

(** Modelled from the spec: [DEFAULT_SETTINGS] of [settingsTypes.ts],
    which is not among the sources.  Section 8 names the defaults: styles
    "1" and "1", separator ".", a large [maxLevel], no skipping; no
    contents heading and no start value are set. *)
Definition specDefaultSettings : NumberHeadingsPluginSettings :=
  mkSettings false 6 (js "1") (js "1") (js ".").

(** Modelled from the spec: [isValidFirstOrMaxLevel] of
    [settingsTypes.ts], which is not among the sources.  Section 4.5: a
    numeric value is accepted when it lies in the allowed range; the
    levels of headings run from 1 to 6. *)
Definition specIsValidLevel (n : Z) : bool := ((1 <=? n) && (n <=? 6))%Z.

(** Modelled from the spec: [isValidNumberingValueString] and
    [isValidContents] of [settingsTypes.ts], which are not among the
    sources.  A start value is a numbering token, digits or one uppercase
    letter (section 6); a contents marker is any text. *)
Definition specIsValidValue (v : jsstring) : bool :=
  match v with
  | [] => false
  | [c] => is_digit c || is_upper c
  | _ => forallb is_digit v
  end.
Definition specIsValidContents (v : jsstring) : bool := true.

(** *** The contents list *)

(** The entries of the contents list: one for each heading that is not
    excluded, in the order of the headings. *)
Definition tocEntries (settings : NumberHeadingsPluginSettings)
    (hs : list HeadingCache) : list jsstring :=
  map (fun h => createTocEntry h settings)
    (filter (fun h => isExcluded settings (level h) = false) hs).

(** The anchor of the contents list: the last heading whose text ends
    with the contents marker. *)
Definition tocAnchor (settings : NumberHeadingsPluginSettings)
    (hs : list HeadingCache) : option HeadingCache :=
  last (filter (fun h => endsWith (heading h) (contents settings) = true) hs).

(** The text of a list: a line break, then each entry and a line break;
    and the lines it makes: an empty line, then the entries. *)
Definition tocText (entries : list jsstring) : jsstring :=
  [line_break] ++ concat (map (fun x => x ++ [line_break]) entries).
Definition tocLines (entries : list jsstring) : list jsstring :=
  match entries with
  | [] => []
  | _ :: _ => [] :: entries
  end.

(** *** The directive *)

(** The format token of the directive: [_.] when the top level is
    skipped, the two styles with a dot between them, the separator. *)
Definition formatToken (s : NumberHeadingsPluginSettings) : jsstring :=
  (if skipTopLevel s then js "_." else []) ++ styleLevel1 s ++ js "."
    ++ styleLevelOther s ++ separator s.

(** A value that a part of the directive carries through [split(',')]
    and [trim]: not empty, without a comma, not ending with white space. *)
Definition isPartValue (v : jsstring) : Prop :=
  v <> [] /\ Forall (fun c => c <> 44%N) v
  /\ head_is is_js_space (reverse v) = false.

(* ================================================================== *)
(** * Properties *)
(* ================================================================== *)

Ltac Zify.zify_post_hook ::= Z.to_euclidean_division_equations.

(** ** Numbering tokens *)

Lemma pop_push_next_snoc (p : list NumberingToken) (t : NumberingToken) :
  pop_push_next (p ++ [t]) = p ++ [nextNumberingToken t].
Proof.
  unfold pop_push_next. rewrite last_snoc. now rewrite removelast_last.
Qed.


Lemma round_to_double_exact (z : Z) :
  (Z.abs z <= 2 ^ 53)%Z -> round_to_double z = z.
Proof.
  intros Hz. unfold round_to_double. cbv zeta.
  destruct (Z.abs z <? 2 ^ 53)%Z eqn:E; [reflexivity|].
  apply Z.ltb_ge in E.
  change (2 ^ 53)%Z with 9007199254740992%Z in *.
  assert (z = 9007199254740992%Z \/ z = (- 9007199254740992)%Z) as [-> | ->] by lia;
    vm_compute; reflexivity.
Qed.

Lemma next_number (n : Z) :
  (- 2 ^ 53 <= n < 2 ^ 53)%Z -> nextNumberingToken (TNumber n) = TNumber (n + 1).
Proof.
  intros Hn. cbn [nextNumberingToken]. rewrite round_to_double_exact; [reflexivity|].
  change (2 ^ 53)%Z with 9007199254740992%Z in *. lia.
Qed.

Lemma next_number_stalls :
  nextNumberingToken (TNumber (2 ^ 53)) = TNumber (2 ^ 53).
Proof. vm_compute. reflexivity. Qed.



(** ** The example of section 8 *)

Lemma set_maxLevel_step (settings : NumberHeadingsPluginSettings) (m : Z)
    (e : Editor) (st : NumberingState) (h : HeadingCache) :
  (level h <= maxLevel settings)%Z -> (level h <= m)%Z ->
  numberingStep (set_maxLevel m settings) e st h = numberingStep settings e st h.
Proof.
  intros H1 H2. unfold numberingStep, isExcluded, adjustNumberingStack. simpl.
  replace (level h >? m)%Z with false by lia.
  replace (level h >? maxLevel settings)%Z with false by lia.
  reflexivity.
Qed.

Lemma set_maxLevel_for_of (settings : NumberHeadingsPluginSettings) (m : Z)
    (e : Editor) (hs : list HeadingCache) (st : NumberingState) :
  Forall (fun h => level h <= maxLevel settings /\ level h <= m)%Z hs ->
  for_of (numberingStep (set_maxLevel m settings) e) st hs
  = for_of (numberingStep settings e) st hs.
Proof.
  intros H. revert st. induction H as [|h hs [H1 H2] _ IH]; intros st; simpl.
  - reflexivity.
  - rewrite set_maxLevel_step by assumption.
    destruct (numberingStep settings e st h); [apply IH | reflexivity].
Qed.

Lemma set_maxLevel_for_of_trace (settings : NumberHeadingsPluginSettings) (m : Z)
    (e : Editor) (hs : list HeadingCache) (st : NumberingState) :
  Forall (fun h => level h <= maxLevel settings /\ level h <= m)%Z hs ->
  for_of_trace (numberingStep (set_maxLevel m settings) e) st hs
  = for_of_trace (numberingStep settings e) st hs.
Proof.
  intros H. revert st. induction H as [|h hs [H1 H2] _ IH]; intros st; simpl.
  - reflexivity.
  - rewrite set_maxLevel_step by assumption.
    destruct (numberingStep settings e st h); [f_equal; apply IH | reflexivity].
Qed.

(** C3. On the five headings Intro (1), Background (2), Related Work (2),
    Methods (1), Setup (2), with styles "1" and "1", separator ".", no
    skipping and a [maxLevel] of at least 2, the numbering strings are 1,
    1.1, 1.2, 2 and 2.1: those are the strings the loop builds, the
    prefixes of the edits it dispatches, and what the lines begin with
    afterwards. *)
Theorem C3_example_numbering (maxL : Z) :
  (2 <= maxL)%Z ->
  let v := mkView exampleLines exampleHeadings in
  let s := exampleSettings maxL in
  map (fun st => makeNumberingString (numberingStack st))
    (for_of_trace (numberingStep s (view_editor v)) (initialNumberingState s)
       exampleHeadings)
  = [js " 1"; js " 1.1"; js " 1.2"; js " 2"; js " 2.1"]
  /\ option_map (map change_text) (updateHeadingNumbering (Some v) s)
     = Some [js "# 1. "; js "## 1.1. "; js "## 1.2. "; js "# 2. "; js "## 2.1. "]
  /\ doc_lines (dispatch (view_editor v) (updateHeadingNumbering (Some v) s))
     = [js "# 1. Intro"; js "## 1.1. Background"; js "## 1.2. Related Work";
        js "# 2. Methods"; js "## 2.1. Setup"].
Proof.
  intros H v s.
  assert (Hall : Forall (fun h => level h <= maxLevel (exampleSettings 2)
                                  /\ level h <= maxL)%Z exampleHeadings).
  { repeat constructor; simpl; lia. }
  change s with (set_maxLevel maxL (exampleSettings 2)).
  unfold updateHeadingNumbering.
  change (initialNumberingState (set_maxLevel maxL (exampleSettings 2)))
    with (initialNumberingState (exampleSettings 2)).
  change (headings_of v) with exampleHeadings.
  rewrite set_maxLevel_for_of_trace, set_maxLevel_for_of by exact Hall.
  repeat split; vm_compute; reflexivity.
Qed.

Lemma C3_example_numbering_witness :
  (2 <= 6)%Z
  /\ doc_lines (dispatch (view_editor (mkView exampleLines exampleHeadings))
                  (updateHeadingNumbering (Some (mkView exampleLines exampleHeadings))
                     (exampleSettings 6)))
     = [js "# 1. Intro"; js "## 1.1. Background"; js "## 1.2. Related Work";
        js "# 2. Methods"; js "## 2.1. Setup"].
Proof.
  split; [lia | apply (C3_example_numbering 6); lia].
Defined.

(** ** A heading the scanner does not recognise *)

(** C1. The specification: a heading whose scan fails is skipped alone, and the
    edits of the other headings are still applied.  The code at a note
    whose second heading is underlined: the edit of the first heading is
    in the batch when the scan of the second fails, the function returns
    there and nothing is dispatched, in numbering and in removal alike;
    without the second heading the same edit is dispatched. *)
Theorem C1_scan_failure_drops_the_batch :
  let s := exampleSettings 6 in
  let v := mkView setextLines setextHeadings in
  let v' := mkView setextNumberedLines setextHeadings in
  let edit := {| change_text := js "# 1. ";
                 change_from := {| line := 0; ch := 0 |};
                 change_to := {| line := 0; ch := 2 |} |} in
  let edit' := {| change_text := js "# ";
                  change_from := {| line := 0; ch := 0 |};
                  change_to := {| line := 0; ch := 5 |} |} in
  makeHeadingHashString (view_editor v) (mkHeading 1 1 (js "Summary")) = None
  /\ for_of (numberingStep s (view_editor v)) (initialNumberingState s) setextHeadings
     = Return {| previousLevel := 1; numberingStack := [TNumber 2]; changes := [edit] |}
  /\ updateHeadingNumbering (Some v) s = None
  /\ updateHeadingNumbering (Some (mkView setextLines (take 1 setextHeadings))) s
     = Some [edit]
  /\ for_of (removalStep (view_editor v')) [] setextHeadings = Return [edit']
  /\ removeHeadingNumbering (Some v') = None
  /\ removeHeadingNumbering (Some (mkView setextNumberedLines (take 1 setextHeadings)))
     = Some [edit'].
Proof.
  repeat split; vm_compute; reflexivity.
Qed.

(** C2. The specification: removal after numbering gives every heading that is
    not excluded its marker run and one space back.  The code at a note
    with a first-level heading and an underlined second-level heading,
    [maxLevel] 1: numbering passes over the underlined heading (it is
    excluded) and numbers the first; removal returns at the underlined
    heading and dispatches nothing, so the first heading keeps its
    number. *)
Theorem C2_removal_returns_after_numbering :
  let s := exampleSettings 1 in
  let v := mkView deepSetextLines deepSetextHeadings in
  let v1 := after v (updateHeadingNumbering (Some v) s) in
  let v2 := after v1 (removeHeadingNumbering (Some v1)) in
  isExcluded s 1 = false
  /\ headingPrefixText (js "# Intro") = js "# "
  /\ doc_lines (view_editor v1) = [js "# 1. Intro"; js "Details"; js "-------"]
  /\ removeHeadingNumbering (Some v1) = None
  /\ getLine (view_editor v2) 0 = Some (js "# 1. Intro")
  /\ headingPrefixText (js "# 1. Intro") = js "# 1. ".
Proof.
  repeat split; vm_compute; reflexivity.
Qed.

(** ** A line the full-prefix pattern does not match *)

Lemma str_eqb_false (a b : jsstring) : a <> b -> str_eqb a b = false.
Proof. intros H. unfold str_eqb. now apply bool_decide_eq_false. Qed.

Lemma str_eqb_refl (a : jsstring) : str_eqb a a = true.
Proof. unfold str_eqb. now apply bool_decide_eq_true. Qed.

Lemma getRange_prefix (e : Editor) (n k : nat) (l : jsstring) :
  getLine e n = Some l ->
  getRange e {| line := n; ch := 0 |} {| line := n; ch := k |} = take k l.
Proof.
  intros Hl. unfold getRange. cbn [line ch].
  now rewrite Nat.eqb_refl, Hl, drop_0.
Qed.

Lemma getHeadingPrefixRange_line (e : Editor) (h : HeadingCache) (l : jsstring) :
  getLine e (position_start_line h) = Some l -> l <> [] ->
  getHeadingPrefixRange e h
  = Some {| range_from := {| line := position_start_line h; ch := 0 |};
            range_to := {| line := position_start_line h;
                           ch := length (headingPrefixText l) |} |}.
Proof.
  intros Hl Hne. unfold getHeadingPrefixRange, headingPrefixText, match_g_anchored.
  rewrite Hl. destruct l as [|c l]; [congruence|]. simpl truthy_line. cbv iota.
  destruct (exec_anchored headingPrefixRegex (c :: l)); reflexivity.
Qed.

Lemma makeHeadingHashString_line (e : Editor) (h : HeadingCache) (l : jsstring) :
  getLine e (position_start_line h) = Some l ->
  makeHeadingHashString e h = markerRun l.
Proof.
  intros Hl. unfold makeHeadingHashString, markerRun, match_g_anchored.
  rewrite Hl. destruct l as [|c l]; [reflexivity|]. simpl truthy_line. cbv iota.
  destruct (exec_anchored headingHashRegex (c :: l)); reflexivity.
Qed.




(** ** The directive round trip *)

(** Settle the tests of an [if] cascade that are closed terms. *)
Ltac decide_tests :=
  repeat match goal with
         | |- context [if ?b then _ else _] =>
             let v := eval vm_compute in b in
             first [constr_eq v true | constr_eq v false];
             change b with v; cbv iota
         end.

(** C6. The settings auto, first level 2, max level 4, contents
    "Overview", no start value, no skipping, styles "1" and "A",
    separator "." are written as
    [auto, first-level 2, max 4, contents Overview, 1.A.], and that
    directive is parsed back to the same settings, for every default
    record without a start value, every validator that accepts the levels
    2 and 4 and the marker "Overview", and every format-part parser that
    reads [1.A.] as no skipping, styles "1" and "A", separator ".". *)
Theorem C6_directive_round_trip
    (DEFAULT_SETTINGS : NumberHeadingsPluginSettings)
    (isValidFirstOrMaxLevel : Z -> bool)
    (isValidNumberingValueString isValidContents : jsstring -> bool)
    (updateSettingsFromFrontMatterFormatPart :
       jsstring -> NumberHeadingsPluginSettings -> NumberHeadingsPluginSettings) :
  startAt DEFAULT_SETTINGS = [] ->
  isValidFirstOrMaxLevel 2%Z = true ->
  isValidFirstOrMaxLevel 4%Z = true ->
  isValidContents (js "Overview") = true ->
  (forall s, updateSettingsFromFrontMatterFormatPart (js "1.A.") s
             = set_format false (js "1") (js "A") (js ".") s) ->
  settingsToCompactFrontMatterValue overviewSettings
  = js "auto, first-level 2, max 4, contents Overview, 1.A."
  /\ parseCompactFrontMatterSettings DEFAULT_SETTINGS isValidFirstOrMaxLevel
       isValidNumberingValueString isValidContents
       updateSettingsFromFrontMatterFormatPart
       {[ js "number headings" := settingsToCompactFrontMatterValue overviewSettings ]}
     = Some overviewSettings.
Proof.
  intros Hstart H2 H4 Hc Hf.
  assert (Hser : settingsToCompactFrontMatterValue overviewSettings
                 = js "auto, first-level 2, max 4, contents Overview, 1.A.")
    by (vm_compute; reflexivity).
  split; [exact Hser|].
  unfold parseCompactFrontMatterSettings, parseFrontMatterEntry.
  rewrite lookup_singleton_eq, Hser.
  change (js "auto, first-level 2, max 4, contents Overview, 1.A.")
    with (97%N :: js "uto, first-level 2, max 4, contents Overview, 1.A.").
  cbv iota. f_equal. unfold parseDirective.
  change (split_char 44%N
            (97%N :: js "uto, first-level 2, max 4, contents Overview, 1.A."))
    with [js "auto"; js " first-level 2"; js " max 4"; js " contents Overview"; js " 1.A."].
  simpl foldl.
  set (p := parsePart isValidFirstOrMaxLevel
              isValidNumberingValueString isValidContents
              updateSettingsFromFrontMatterFormatPart).
  assert (E1 : forall s, p s (js "auto") = set_auto true s) by reflexivity.
  assert (E2 : forall s, p s (js " first-level 2") = set_firstLevel 2 s).
  { intros s. subst p. unfold parsePart.
    change (trim (js " first-level 2")) with (js "first-level 2").
    cbv zeta. decide_tests.
    change (parseInt (substring_from (length FIRST_LEVEL_PART_KEY + 1) (js "first-level 2")))
      with (Some 2%Z).
    cbv iota. now rewrite H2. }
  assert (E3 : forall s, p s (js " max 4") = set_maxLevel 4 s).
  { intros s. subst p. unfold parsePart.
    change (trim (js " max 4")) with (js "max 4").
    cbv zeta. decide_tests.
    change (parseInt (substring_from (length MAX_LEVEL_PART_KEY + 1) (js "max 4")))
      with (Some 4%Z).
    cbv iota. now rewrite H4. }
  assert (E4 : forall s, p s (js " contents Overview") = set_contents (js "Overview") s).
  { intros s. subst p. unfold parsePart.
    change (trim (js " contents Overview")) with (js "contents Overview").
    cbv zeta. decide_tests.
    change (substring_from (length CONTENTS_PART_KEY + 1) (js "contents Overview"))
      with (js "Overview").
    now rewrite Hc. }
  assert (E5 : forall s, p s (js " 1.A.") = set_format false (js "1") (js "A") (js ".") s).
  { intros s. subst p. unfold parsePart.
    change (trim (js " 1.A.")) with (js "1.A.").
    cbv zeta. decide_tests. apply Hf. }
  rewrite E1, E2, E3, E4, E5.
  unfold set_format, set_contents, set_maxLevel, set_firstLevel, set_auto,
    overviewSettings. simpl. now rewrite Hstart.
Qed.

Lemma C6_directive_round_trip_witness :
  parseCompactFrontMatterSettings specDefaultSettings specIsValidLevel
    specIsValidValue specIsValidContents specFormatPart
    {[ js "number headings" := settingsToCompactFrontMatterValue overviewSettings ]}
  = Some overviewSettings.
Proof.
  apply (C6_directive_round_trip specDefaultSettings specIsValidLevel
           specIsValidValue specIsValidContents specFormatPart);
    try reflexivity.
Defined.

(** ** The length of the numbering stack *)

Lemma length_removelast_stack (l : list NumberingToken) :
  length (removelast l) = (length l - 1)%nat.
Proof.
  induction l as [|x [|y l] IH]; simpl in *; try reflexivity.
  rewrite IH. lia.
Qed.

Lemma length_pop_times (n : nat) (l : list NumberingToken) :
  length (pop_times n l) = (length l - n)%nat.
Proof.
  revert l. induction n as [|n IH]; intros l; simpl.
  - lia.
  - rewrite IH, length_removelast_stack. lia.
Qed.

Lemma length_push_times (n : nat) (t : NumberingToken) (l : list NumberingToken) :
  length (push_times n t l) = (length l + n)%nat.
Proof.
  revert l. induction n as [|n IH]; intros l; simpl.
  - lia.
  - rewrite IH, length_app. simpl. lia.
Qed.

Lemma length_pop_push_next (l : list NumberingToken) :
  length (pop_push_next l) = length l.
Proof.
  unfold pop_push_next. destruct (last l) eqn:E; [|reflexivity].
  rewrite length_app, length_removelast_stack. simpl.
  destruct l; [discriminate | simpl; lia].
Qed.

Lemma length_adjustNumberingStack (settings : NumberHeadingsPluginSettings)
    (start prev lvl : Z) (stack : list NumberingToken) :
  Z.of_nat (length stack) = (prev - start + 1)%Z ->
  (start <= prev)%Z -> (start <= lvl)%Z ->
  Z.of_nat (length (adjustNumberingStack settings prev lvl stack))
  = (lvl - start + 1)%Z.
Proof.
  intros Hlen Hp Hl. unfold adjustNumberingStack.
  destruct (Z.eqb_spec lvl prev) as [->|Hne].
  - now rewrite length_pop_push_next.
  - destruct (Z.ltb_spec lvl prev).
    + rewrite length_pop_push_next, length_pop_times. lia.
    + replace (lvl >? prev)%Z with true by lia.
      rewrite length_push_times. lia.
Qed.

(** What a pass of the loop body does to [previousLevel] and to the
    stack, however it ends. *)
Lemma numberingStep_state (settings : NumberHeadingsPluginSettings) (e : Editor)
    (st : NumberingState) (h : HeadingCache) :
  let st' := outcome_state (numberingStep settings e st h) in
  if isExcluded settings (level h)
  then previousLevel st' = previousLevel st /\ numberingStack st' = numberingStack st
  else previousLevel st' = level h
       /\ numberingStack st'
          = adjustNumberingStack settings (previousLevel st) (level h) (numberingStack st).
Proof.
  unfold numberingStep.
  destruct (isExcluded settings (level h)) eqn:Hex; cbv zeta.
  - destruct (getHeadingPrefixRange e h); [|now split].
    destruct (makeHeadingHashString e h); now split.
  - destruct (level h >? maxLevel settings)%Z; [now split|].
    destruct (getHeadingPrefixRange e h); [|now split].
    destruct (makeHeadingHashString e h); now split.
Qed.

Lemma startLevel_le_level (settings : NumberHeadingsPluginSettings) (lvl : Z) :
  (1 <= lvl)%Z -> isExcluded settings lvl = false -> (startLevel settings <= lvl)%Z.
Proof.
  unfold isExcluded, startLevel. intros Hpos Hex.
  apply orb_false_iff in Hex as [Hex _].
  destruct (skipTopLevel settings); simpl in Hex; lia.
Qed.

Lemma numberingStep_invariant (settings : NumberHeadingsPluginSettings) (e : Editor)
    (st : NumberingState) (h : HeadingCache) :
  (1 <= level h)%Z -> stackInvariant settings st ->
  stackInvariant settings (outcome_state (numberingStep settings e st h))
  /\ (isExcluded settings (level h) = false ->
      previousLevel (outcome_state (numberingStep settings e st h)) = level h).
Proof.
  intros Hpos [Hlen Hprev].
  pose proof (numberingStep_state settings e st h) as Hst. cbv zeta in Hst.
  destruct (isExcluded settings (level h)) eqn:Hex.
  - destruct Hst as [Hp Hs]. split; [|discriminate].
    unfold stackInvariant. now rewrite Hp, Hs.
  - destruct Hst as [Hp Hs]. split; [|intros _; exact Hp].
    pose proof (startLevel_le_level settings (level h) Hpos Hex) as Hle.
    unfold stackInvariant. rewrite Hp, Hs. split; [|exact Hle].
    now apply length_adjustNumberingStack.
Qed.

Lemma for_of_trace_invariant (settings : NumberHeadingsPluginSettings) (e : Editor)
    (hs : list HeadingCache) :
  Forall (fun h => 1 <= level h)%Z hs ->
  forall (st0 : NumberingState) (i : nat) (h : HeadingCache) (st : NumberingState),
    stackInvariant settings st0 ->
    hs !! i = Some h ->
    for_of_trace (numberingStep settings e) st0 hs !! i = Some st ->
    stackInvariant settings st
    /\ (isExcluded settings (level h) = false -> previousLevel st = level h).
Proof.
  induction 1 as [|h0 hs Hpos _ IH]; intros st0 i h st Hinv Hh Hst.
  - destruct i; discriminate.
  - pose proof (numberingStep_invariant settings e st0 h0 Hpos Hinv) as [Hinv' Hlvl].
    simpl in Hst. destruct i as [|i].
    + injection Hh as <-.
      destruct (numberingStep settings e st0 h0) as [st'|st']; simpl in *;
        injection Hst as <-; now split.
    + simpl in Hh.
      destruct (numberingStep settings e st0 h0) as [st'|st']; simpl in *.
      * now apply (IH st' i h st).
      * destruct i; discriminate.
Qed.

(** When the loop does not return, it has processed every heading. *)
Lemma for_of_trace_length (settings : NumberHeadingsPluginSettings) (e : Editor)
    (hs : list HeadingCache) :
  forall st st' : NumberingState,
    for_of (numberingStep settings e) st hs = Continue st' ->
    length (for_of_trace (numberingStep settings e) st hs) = length hs.
Proof.
  induction hs as [|h hs IH]; intros st st' H; [reflexivity|].
  cbn [for_of for_of_trace] in *.
  destruct (numberingStep settings e st h) as [st1|st1]; [|discriminate].
  cbn [length]. f_equal. now apply (IH st1 st').
Qed.

Lemma wellNestedAfter_positive (before levels : list Z) :
  wellNestedAfter before levels = true -> Forall (fun l => 1 <= l)%Z levels.
Proof.
  revert before. induction levels as [|l levels IH]; intros before H; simpl in H.
  - constructor.
  - apply andb_true_iff in H as [H Hrest]. apply andb_true_iff in H as [Hpos _].
    constructor; [lia | eauto].
Qed.

Lemma initialNumberingState_invariant (settings : NumberHeadingsPluginSettings) :
  stackInvariant settings (initialNumberingState settings).
Proof.
  unfold stackInvariant, initialNumberingState, startLevel. simpl.
  destruct (skipTopLevel settings); lia.
Qed.

(** C4, as the code has it.  On headings of positive levels, each with
    its parent one level above it, after the loop has processed a heading
    that is not excluded the numbering stack holds level - startLevel + 1
    tokens, startLevel being 1, or 2 when the top level is skipped.  (An
    excluded heading leaves the stack as the heading before it left it.) *)
Theorem C4_stack_length (settings : NumberHeadingsPluginSettings) (e : Editor)
    (hs : list HeadingCache) (i : nat) (h : HeadingCache) (st : NumberingState) :
  wellNested (map level hs) = true ->
  hs !! i = Some h ->
  isExcluded settings (level h) = false ->
  for_of_trace (numberingStep settings e) (initialNumberingState settings) hs !! i
  = Some st ->
  Z.of_nat (length (numberingStack st)) = (level h - startLevel settings + 1)%Z.
Proof.
  intros Hwn Hh Hex Hst.
  assert (Hpos : Forall (fun h => 1 <= level h)%Z hs).
  { apply wellNestedAfter_positive in Hwn. rewrite Forall_map in Hwn. exact Hwn. }
  destruct (for_of_trace_invariant settings e hs Hpos _ i h st
              (initialNumberingState_invariant settings) Hh Hst) as [[Hlen _] Hlvl].
  rewrite Hlen, (Hlvl Hex). reflexivity.
Qed.

Lemma C4_stack_length_witness :
  exists st,
    for_of_trace (numberingStep (exampleSettings 6) {| doc_lines := exampleLines |})
      (initialNumberingState (exampleSettings 6)) exampleHeadings !! 4%nat = Some st
    /\ Z.of_nat (length (numberingStack st)) = (2 - 1 + 1)%Z.
Proof.
  eexists. split; [vm_compute; reflexivity|].
  apply (C4_stack_length (exampleSettings 6) {| doc_lines := exampleLines |}
           exampleHeadings 4 (mkHeading 2 4 (js "Setup"))); reflexivity.
Defined.

(** C4, as the specification has it, fails at an excluded heading: with the top
    level skipped, after the first-level heading of a well-nested note
    the stack still holds its one token, and level - startLevel + 1 is 0. *)
Lemma C4_counterexample :
  let s := mkSettings true 6 (js "1") (js "1") (js ".") in
  let hs := [mkHeading 1 0 (js "Title"); mkHeading 2 1 (js "Section")] in
  let e := {| doc_lines := [js "# Title"; js "## Section"] |} in
  wellNested (map level hs) = true
  /\ (numberingStack <$> for_of_trace (numberingStep s e) (initialNumberingState s) hs !! 0%nat)
     = Some [TNumber 0]
  /\ Z.of_nat (length [TNumber 0]) <> (1 - startLevel s + 1)%Z.
Proof.
  repeat split; try (vm_compute; reflexivity).
  vm_compute. discriminate.
Qed.

(** ** The matcher *)

(** A matcher calls its continuation on what is left of its input only. *)
Lemma star_loop_ext (step : jsstring -> (jsstring -> option jsstring) -> option jsstring) :
  (forall s k1 k2,
      (forall s', (length s' <= length s)%nat -> k1 s' = k2 s') -> step s k1 = step s k2) ->
  forall n s k1 k2,
    (forall s', (length s' <= length s)%nat -> k1 s' = k2 s') ->
    star_loop step n s k1 = star_loop step n s k2.
Proof.
  intros Hstep. induction n as [|n IH]; intros s k1 k2 Hk; simpl.
  - apply Hk. lia.
  - rewrite (Hk s) by lia.
    rewrite (Hstep s _ (fun s' => if (length s' <? length s)%nat
                                  then star_loop step n s' k2 else None)).
    + reflexivity.
    + intros s' Hs'. destruct (Nat.ltb_spec (length s') (length s)); [|reflexivity].
      apply IH. intros s'' Hs''. apply Hk. lia.
Qed.

Lemma rmatch_ext (r : regex) :
  forall s k1 k2,
    (forall s', (length s' <= length s)%nat -> k1 s' = k2 s') ->
    rmatch r s k1 = rmatch r s k2.
Proof.
  induction r as [|p|a IHa b IHb|a IHa b IHb|a IHa]; intros s k1 k2 Hk; simpl.
  - apply Hk. lia.
  - destruct s as [|c s]; [reflexivity|].
    destruct (p c); [|reflexivity]. apply Hk. simpl. lia.
  - apply IHa. intros s' Hs'. apply IHb. intros s'' Hs''. apply Hk. lia.
  - rewrite (IHa s k1 k2 Hk), (IHb s k1 k2 Hk). reflexivity.
  - now apply star_loop_ext.
Qed.

Lemma rmatch_none (r : regex) : forall s, rmatch r s (fun _ => None) = None.
Proof.
  induction r as [|p|a IHa b IHb|a IHa b IHb|a IHa]; intros s; simpl.
  - reflexivity.
  - destruct s as [|c s]; [reflexivity|]. now destruct (p c).
  - rewrite (rmatch_ext a s _ (fun _ => None)); [apply IHa|].
    intros s' _. apply IHb.
  - now rewrite IHa, IHb.
  - generalize (length s) at 1. intros n. revert s.
    induction n as [|n IH]; intros s; simpl; [reflexivity|].
    rewrite (rmatch_ext a s _ (fun _ => None)); [now rewrite IHa|].
    intros s' _. destruct (length s' <? length s)%nat; [apply IH | reflexivity].
Qed.

Lemma star_loop_fuel (a : regex) (k : jsstring -> option jsstring) :
  forall n m s, (length s <= n)%nat -> (length s <= m)%nat ->
    star_loop (rmatch a) n s k = star_loop (rmatch a) m s k.
Proof.
  assert (Hzero : forall m s, length s = 0%nat ->
                    star_loop (rmatch a) m s k = k s).
  { intros [|m] s Hs; simpl; [reflexivity|].
    rewrite (rmatch_ext a s _ (fun _ => None)); [now rewrite rmatch_none|].
    intros s' _. rewrite Hs. reflexivity. }
  induction n as [|n IH]; intros m s Hn Hm.
  - rewrite (Hzero m s) by lia. reflexivity.
  - destruct m as [|m]; [now rewrite (Hzero (S n) s) by lia|]. simpl.
    rewrite (rmatch_ext a s _ (fun s' => if (length s' <? length s)%nat
                                         then star_loop (rmatch a) m s' k else None)).
    + reflexivity.
    + intros s' _. destruct (Nat.ltb_spec (length s') (length s)); [|reflexivity].
      apply IH; lia.
Qed.

(** The iteration of [a*], without the fuel. *)
Lemma rmatch_star_unfold (a : regex) (s : jsstring) (k : jsstring -> option jsstring) :
  rmatch (Star a) s k
  = match rmatch a s (fun s' => if (length s' <? length s)%nat
                                then rmatch (Star a) s' k else None) with
    | Some r => Some r
    | None => k s
    end.
Proof.
  change (rmatch (Star a) s k) with (star_loop (rmatch a) (length s) s k).
  destruct s as [|c s].
  - cbn [length star_loop].
    rewrite (rmatch_ext a [] _ (fun _ => None)); [now rewrite rmatch_none|].
    reflexivity.
  - change (length (c :: s)) with (S (length s)) at 1. simpl star_loop.
    rewrite (rmatch_ext a (c :: s) _
               (fun s' => if (length s' <? length (c :: s))%nat
                          then rmatch (Star a) s' k else None)).
    + reflexivity.
    + intros s' _. simpl length.
      destruct (Nat.ltb_spec (length s') (S (length s))); [|reflexivity].
      change (rmatch (Star a) s' k) with (star_loop (rmatch a) (length s') s' k).
      apply star_loop_fuel; lia.
Qed.

(** What a successful match consumed is a text of the pattern, and the
    result is what the continuation made of the rest. *)
Lemma rmatch_sound (r : regex) :
  forall s k rest, rmatch r s k = Some rest ->
    exists pre s', s = pre ++ s' /\ matches r pre /\ k s' = Some rest.
Proof.
  induction r as [|p|a IHa b IHb|a IHa b IHb|a IHa]; intros s k rest H; simpl in H.
  - exists [], s. repeat split; [constructor | exact H].
  - destruct s as [|c s]; [discriminate|]. destruct (p c) eqn:Hp; [|discriminate].
    exists [c], s. repeat split; [now constructor | exact H].
  - apply IHa in H as (x & s1 & -> & Hx & H). apply IHb in H as (y & s2 & -> & Hy & H).
    exists (x ++ y), s2. rewrite <- app_assoc. repeat split; [now constructor | exact H].
  - destruct (rmatch a s k) eqn:Ea.
    + injection H as ->. apply IHa in Ea as (x & s1 & -> & Hx & H).
      exists x, s1. repeat split; [now apply matches_alt_l | exact H].
    + apply IHb in H as (x & s1 & -> & Hx & H).
      exists x, s1. repeat split; [now apply matches_alt_r | exact H].
  - revert H. generalize (length s) at 1. intros n. revert s.
    induction n as [|n IH]; intros s H; simpl in H.
    + exists [], s. repeat split; [constructor | exact H].
    + destruct (rmatch a s _) eqn:Ea.
      * injection H as ->. apply IHa in Ea as (x & s1 & -> & Hx & H).
        destruct (length s1 <? length (x ++ s1))%nat; [|discriminate].
        apply IH in H as (y & s2 & -> & Hy & H).
        exists (x ++ y), s2. rewrite <- app_assoc.
        repeat split; [now constructor | exact H].
      * exists [], s. repeat split; [constructor | exact H].
Qed.

Lemma exec_anchored_sound (r : regex) (s m : jsstring) :
  exec_anchored r s = Some m ->
  matches r m /\ exists rest, s = m ++ rest /\ rmatch r s Some = Some rest.
Proof.
  unfold exec_anchored. destruct (rmatch r s Some) as [rest|] eqn:E; [|discriminate].
  intros [= <-]. apply rmatch_sound in E as H. destruct H as (pre & s' & -> & Hm & [= ->]).
  rewrite length_app, Nat.add_sub, take_app_length.
  split; [exact Hm | now exists rest].
Qed.

Lemma exec_anchored_rest (r : regex) (pre rest : jsstring) :
  rmatch r (pre ++ rest) Some = Some rest -> exec_anchored r (pre ++ rest) = Some pre.
Proof.
  intros H. unfold exec_anchored. rewrite H.
  now rewrite length_app, Nat.add_sub, take_app_length.
Qed.

(** *** Classes of characters *)

Lemma rmatch_chr_cons (p : N -> bool) (c : N) (s : jsstring) k :
  p c = true -> rmatch (Chr p) (c :: s) k = k s.
Proof. intros H. simpl. now rewrite H. Qed.

Lemma rmatch_chr_fail (p : N -> bool) (s : jsstring) k :
  head_is p s = false -> rmatch (Chr p) s k = None.
Proof. destruct s as [|c s]; simpl; [reflexivity | now intros ->]. Qed.

Lemma rmatch_star_chr_cons (p : N -> bool) (c : N) (s : jsstring) k :
  p c = true ->
  rmatch (Star (Chr p)) (c :: s) k
  = match rmatch (Star (Chr p)) s k with
    | Some r => Some r
    | None => k (c :: s)
    end.
Proof.
  intros H. rewrite rmatch_star_unfold, rmatch_chr_cons by exact H.
  replace (length s <? length (c :: s))%nat with true; [reflexivity|].
  symmetry. apply Nat.ltb_lt. simpl. lia.
Qed.

Lemma rmatch_star_chr_stop (p : N -> bool) (s : jsstring) k :
  head_is p s = false -> rmatch (Star (Chr p)) s k = k s.
Proof.
  intros H. rewrite rmatch_star_unfold. now rewrite rmatch_chr_fail.
Qed.

(** The greedy run: when the continuation accepts after the longest run
    of the class, that is the match. *)
Lemma rmatch_star_chr_greedy (p : N -> bool) (l s : jsstring) k (r : jsstring) :
  Forall (fun c => p c = true) l -> head_is p s = false -> k s = Some r ->
  rmatch (Star (Chr p)) (l ++ s) k = Some r.
Proof.
  intros Hl Hs Hk. induction Hl as [|c l Hc _ IH]; simpl app.
  - now rewrite rmatch_star_chr_stop.
  - rewrite rmatch_star_chr_cons by exact Hc. now rewrite IH.
Qed.

(** A run of the class followed by a character the continuation needs
    and the run does not end with: no match, however short the run. *)
Lemma rmatch_star_chr_then_fail (p q : N -> bool) (l s : jsstring) k :
  Forall (fun c => p c = true /\ q c = false) l ->
  head_is p s = false -> head_is q s = false ->
  rmatch (Star (Chr p)) (l ++ s) (fun s' => rmatch (Chr q) s' k) = None.
Proof.
  intros Hl Hp Hq. induction Hl as [|c l [Hc Hc'] _ IH]; simpl app.
  - rewrite rmatch_star_chr_stop by exact Hp. now apply rmatch_chr_fail.
  - rewrite rmatch_star_chr_cons by exact Hc. rewrite IH.
    apply rmatch_chr_fail. exact Hc'.
Qed.

Lemma matches_chr_inv (p : N -> bool) (x : jsstring) :
  matches (Chr p) x -> exists c, x = [c] /\ p c = true.
Proof. inversion 1; subst. eauto. Qed.

Lemma matches_star_chr (p : N -> bool) (x : jsstring) :
  matches (Star (Chr p)) x -> Forall (fun c => p c = true) x.
Proof.
  remember (Star (Chr p)) as r eqn:Er. induction 1; try discriminate.
  - constructor.
  - injection Er as ->. apply matches_chr_inv in H as (c & -> & Hc).
    constructor; [exact Hc | now apply IHmatches2].
Qed.

Lemma matches_upto_chr (p : N -> bool) (n : nat) (x : jsstring) :
  matches (UpTo n (Chr p)) x -> Forall (fun c => p c = true) x.
Proof.
  revert x. induction n as [|n IH]; intros x H; simpl in H.
  - inversion H; subst. constructor.
  - inversion H as [| | |? ? ? Hl|? ? ? Hr| |]; subst.
    + inversion Hl as [| |? ? y z Hy Hz| | | |]; subst.
      apply matches_chr_inv in Hy as (c & -> & Hc). constructor; [exact Hc | now apply IH].
    + inversion Hr; subst. constructor.
Qed.


(** ** The scanner on the lines the operations write *)

Lemma rmatch_upto_chr_stop (p : N -> bool) (n : nat) (s : jsstring) k :
  head_is p s = false -> rmatch (UpTo n (Chr p)) s k = k s.
Proof.
  intros H. destruct n as [|n]; [reflexivity|].
  change (rmatch (UpTo (S n) (Chr p)) s k)
    with (match rmatch (Chr p) s (fun s' => rmatch (UpTo n (Chr p)) s' k) with
          | Some x => Some x
          | None => k s
          end).
  now rewrite rmatch_chr_fail.
Qed.

Lemma rmatch_plus_chr_greedy (p : N -> bool) (l s : jsstring) k (r : jsstring) :
  l <> [] -> Forall (fun c => p c = true) l -> head_is p s = false -> k s = Some r ->
  rmatch (Plus (Chr p)) (l ++ s) k = Some r.
Proof.
  intros Hne Hl Hs Hk. destruct Hl as [|c l Hc Hl]; [congruence|].
  change (rmatch (Plus (Chr p)) ((c :: l) ++ s) k)
    with (rmatch (Chr p) (c :: l ++ s) (fun s' => rmatch (Star (Chr p)) s' k)).
  rewrite rmatch_chr_cons by exact Hc. now apply rmatch_star_chr_greedy.
Qed.

Lemma rmatch_plus_chr_fail (p : N -> bool) (s : jsstring) k :
  head_is p s = false -> rmatch (Plus (Chr p)) s k = None.
Proof.
  intros H.
  change (rmatch (Plus (Chr p)) s k)
    with (rmatch (Chr p) s (fun s' => rmatch (Star (Chr p)) s' k)).
  now apply rmatch_chr_fail.
Qed.

Lemma trimLeft_spaces_app (w x : jsstring) :
  Forall (fun c => is_js_space c = true) w -> head_is is_js_space x = false ->
  trimLeft (w ++ x) = x.
Proof.
  intros Hw Hx. induction Hw as [|c w Hc _ IH]; cbn [app trimLeft].
  - destruct x as [|c x]; [reflexivity|]. cbn [head_is trimLeft] in *. now rewrite Hx.
  - now rewrite Hc.
Qed.

Lemma isMarkerRun_head (m s : jsstring) :
  isMarkerRun m -> head_is is_js_space (m ++ s) = false.
Proof.
  intros [Hne Hm]. destruct Hm as [|c m Hc _]; [congruence|]. simpl.
  unfold is_hash in Hc. apply N.eqb_eq in Hc as ->. reflexivity.
Qed.

(** The marker run that [makeHeadingHashString] returns is a run of [#]. *)
Lemma markerRun_isMarkerRun (l m : jsstring) : markerRun l = Some m -> isMarkerRun m.
Proof.
  unfold markerRun. destruct l as [|c l]; [discriminate|].
  destruct (exec_anchored headingHashRegex (c :: l)) as [x|] eqn:E; [|discriminate].
  intros [= <-]. apply exec_anchored_sound in E as [Hm _].
  inversion Hm as [| |? ? w y Hw Hy| | | |]; subst.
  apply (matches_upto_chr is_js_space 4) in Hw.
  inversion Hy as [| |? ? y1 y2 Hy1 Hy2| | | |]; subst.
  apply matches_chr_inv in Hy1 as (d & -> & Hd). apply matches_star_chr in Hy2.
  assert (Hrun : isMarkerRun ([d] ++ y2)).
  { split; [discriminate | now constructor]. }
  rewrite trimLeft_spaces_app; [exact Hrun | exact Hw |].
  rewrite <- (app_nil_r ([d] ++ y2)). now apply isMarkerRun_head.
Qed.

(** On a line that begins with a marker run, that run is found. *)
Lemma markerRun_app (m s : jsstring) :
  isMarkerRun m -> head_is is_hash s = false -> markerRun (m ++ s) = Some m.
Proof.
  intros Hm Hs. pose proof (isMarkerRun_head m s Hm) as Hhead.
  pose proof (isMarkerRun_head m [] Hm) as Hhead'. rewrite app_nil_r in Hhead'.
  destruct Hm as [Hne Hall]. unfold markerRun.
  destruct (m ++ s) as [|c x] eqn:E; [now destruct m|]. rewrite <- E in *.
  rewrite (exec_anchored_rest headingHashRegex m s).
  - f_equal. apply (trimLeft_spaces_app [] m); [constructor | exact Hhead'].
  - change (rmatch headingHashRegex (m ++ s) Some)
      with (rmatch (UpTo 4 (Chr is_js_space)) (m ++ s)
              (fun s' => rmatch (Plus (Chr is_hash)) s' Some)).
    rewrite rmatch_upto_chr_stop by exact Hhead.
    now apply rmatch_plus_chr_greedy.
Qed.

(** *** The numbering string *)

Lemma uint_to_js_digits (u : Decimal.uint) :
  Forall (fun c => is_digit c = true) (uint_to_js u).
Proof. induction u; simpl; constructor; auto. Qed.

Lemma number_toString_isDigits (n : Z) : (0 <= n)%Z -> isDigits (number_toString n).
Proof.
  intros Hn. unfold number_toString, Z.to_int. destruct n as [|p|p]; [| |lia].
  - split; [discriminate | repeat constructor].
  - split; [|apply uint_to_js_digits].
    pose proof (DecimalPos.Unsigned.to_uint_nonnil p) as Hnn.
    destruct (Pos.to_uint p); [congruence | discriminate..].
Qed.

Lemma numberingString_from_S (i : nat) (stack : list NumberingToken) :
  numberingString_from (S i) stack = numberingString_from 1 stack.
Proof.
  revert i. induction stack as [|t stack IH]; intros i; simpl; [reflexivity|].
  now rewrite (IH (S i)), (IH 1%nat).
Qed.

Lemma numberingString_from_1_cons (t : NumberingToken) (stack : list NumberingToken) :
  numberingString_from 1 (t :: stack)
  = 46%N :: token_toString t ++ numberingString_from 1 stack.
Proof. simpl. now rewrite numberingString_from_S. Qed.

Lemma makeNumberingString_cons (t : NumberingToken) (stack : list NumberingToken) :
  makeNumberingString (t :: stack)
  = 32%N :: token_toString t ++ numberingString_from 1 stack.
Proof. reflexivity. Qed.

(** The text of a token of the stack: digits, or one uppercase letter. *)
Lemma token_toString_shape (t : NumberingToken) :
  isPatternToken t = true ->
  isDigits (token_toString t) \/ exists c, token_toString t = [c] /\ is_upper c = true.
Proof.
  destruct t as [n|[|c [|d s]]]; cbn [isPatternToken token_toString]; try discriminate.
  - intros H. apply andb_true_iff in H as [H _]. left.
    apply number_toString_isDigits. lia.
  - intros H. right. eauto.
Qed.

Lemma isPatternToken_next (t : NumberingToken) :
  isPatternToken t = true -> isPatternToken (nextNumberingToken t) = true.
Proof.
  destruct t as [n|[|c [|d s]]]; try discriminate.
  - cbn [isPatternToken]. intros H.
    apply andb_true_iff in H as [H0 H1]. apply Z.leb_le in H0, H1.
    change (2 ^ 53)%Z with 9007199254740992%Z in *.
    destruct (decide (n = 9007199254740992%Z)) as [->|Hne]; [vm_compute; reflexivity|].
    rewrite next_number
      by (change (2 ^ 53)%Z with 9007199254740992%Z; lia).
    cbn [isPatternToken]. change (2 ^ 53)%Z with 9007199254740992%Z.
    apply andb_true_iff. split; apply Z.leb_le; lia.
  - cbn [isPatternToken nextNumberingToken]. unfold str_eqb. case_bool_decide as Hz; [reflexivity|]. intros Hc.
    assert (c <> 90%N) by (intros ->; auto).
    cbn [isPatternToken]. unfold is_upper in *.
    apply andb_true_iff in Hc as [Hlo Hhi].
    apply N.leb_le in Hlo. apply N.leb_le in Hhi.
    rewrite N.mod_small by lia.
    apply andb_true_iff. split; apply N.leb_le; lia.
Qed.

Lemma isPatternToken_zeroth (style : jsstring) :
  isPatternToken (zerothNumberingTokenInStyle style) = true.
Proof.
  unfold zerothNumberingTokenInStyle.
  destruct (str_eqb style (js "1")), (str_eqb style (js "A")); reflexivity.
Qed.

Lemma isPatternToken_first (style : jsstring) :
  isPatternToken (firstNumberingTokenInStyle style) = true.
Proof.
  unfold firstNumberingTokenInStyle.
  destruct (str_eqb style (js "1")), (str_eqb style (js "A")); reflexivity.
Qed.

(** *** The full-prefix pattern on a numbered line *)

Lemma rmatch_opt (r : regex) (s : jsstring) k :
  rmatch (Opt r) s k = match rmatch r s k with
                       | Some x => Some x
                       | None => k s
                       end.
Proof. reflexivity. Qed.

Lemma rmatch_alt (a b : regex) (s : jsstring) k :
  rmatch (Alt a b) s k = match rmatch a s k with
                         | Some x => Some x
                         | None => rmatch b s k
                         end.
Proof. reflexivity. Qed.

Lemma rmatch_seq (a b : regex) (s : jsstring) k :
  rmatch (Seq a b) s k = rmatch a s (fun s' => rmatch b s' k).
Proof. reflexivity. Qed.

Lemma digit_not_dot_upper (c : N) :
  is_digit c = true -> is_dot c = false /\ is_upper c = false /\ is_blank c = false.
Proof.
  unfold is_digit, is_dot, is_upper, is_blank. intros H.
  apply andb_true_iff in H as [Hlo Hhi]. apply N.leb_le in Hlo, Hhi.
  repeat split.
  - apply N.eqb_neq. lia.
  - apply andb_false_iff. left. apply N.leb_gt. lia.
  - apply N.eqb_neq. lia.
Qed.

Lemma upper_not_digit (c : N) : is_upper c = true -> is_digit c = false.
Proof.
  unfold is_digit, is_upper. intros H.
  apply andb_true_iff in H as [Hlo Hhi]. apply N.leb_le in Hlo, Hhi.
  apply andb_false_iff. right. apply N.leb_gt. lia.
Qed.

(** The head of a separator and the blank after it. *)
Lemma separator_head (sep body : jsstring) :
  isPatternSeparator sep = true ->
  head_is is_digit (sep ++ 32%N :: body) = false
  /\ head_is is_upper (sep ++ 32%N :: body) = false
  /\ (sep <> [46%N] -> head_is is_dot (sep ++ 32%N :: body) = false).
Proof.
  destruct sep as [|c [|d sep]]; try discriminate; cbn [isPatternSeparator app head_is].
  - repeat split.
  - unfold is_terminal_punct. intros H.
    apply orb_true_iff in H as [H|H]; [apply orb_true_iff in H as [H|H]|];
      apply N.eqb_eq in H as ->; repeat split; congruence.
Qed.

Lemma blanks_one (body : jsstring) :
  head_is is_blank body = false -> rmatch blanks (32%N :: body) Some = Some body.
Proof.
  intros H. apply (rmatch_plus_chr_greedy is_blank [32%N] body);
    [discriminate | repeat constructor | exact H | reflexivity].
Qed.

Lemma terminalPunct_separator (sep body : jsstring) :
  isPatternSeparator sep = true -> head_is is_blank body = false ->
  rmatch terminalPunct (sep ++ 32%N :: body) (fun s2 => rmatch blanks s2 Some)
  = Some body.
Proof.
  intros Hsep Hb. unfold terminalPunct. rewrite rmatch_opt.
  destruct sep as [|c [|d sep]]; try discriminate; cbn [isPatternSeparator app] in *.
  - rewrite rmatch_chr_fail by reflexivity. now apply blanks_one.
  - rewrite rmatch_chr_cons by exact Hsep. now rewrite blanks_one.
Qed.

Lemma afterGroups_blank (body : jsstring) :
  head_is is_blank body = false -> afterGroups (32%N :: body) = Some body.
Proof.
  intros Hb. unfold afterGroups, lastToken.
  rewrite rmatch_opt, rmatch_alt.
  rewrite rmatch_plus_chr_fail, rmatch_chr_fail by reflexivity.
  now apply (terminalPunct_separator [] body).
Qed.

Lemma afterGroups_token (t : NumberingToken) (sep body : jsstring) :
  isPatternToken t = true -> isPatternSeparator sep = true ->
  head_is is_blank body = false ->
  afterGroups (token_toString t ++ sep ++ 32%N :: body) = Some body.
Proof.
  intros Ht Hsep Hb. unfold afterGroups, lastToken.
  rewrite rmatch_opt, rmatch_alt.
  destruct (separator_head sep body Hsep) as (Hd & _ & _).
  destruct (token_toString_shape t Ht) as [[Hne Hdig]|(c & -> & Hc)].
  - rewrite (rmatch_plus_chr_greedy is_digit _ _ _ body Hne Hdig Hd); [reflexivity|].
    now apply terminalPunct_separator.
  - rewrite rmatch_plus_chr_fail by (cbn [app head_is]; now apply upper_not_digit).
    cbn [app]. rewrite rmatch_chr_cons by exact Hc.
    now rewrite terminalPunct_separator.
Qed.

Lemma numberGroup_token (t : NumberingToken) (s : jsstring) k (r : jsstring) :
  isPatternToken t = true -> k s = Some r ->
  rmatch numberGroup (token_toString t ++ 46%N :: s) k = Some r.
Proof.
  intros Ht Hk. unfold numberGroup. rewrite rmatch_alt, !rmatch_seq.
  destruct (token_toString_shape t Ht) as [[Hne Hdig]|(c & -> & Hc)].
  - rewrite (rmatch_plus_chr_greedy is_digit _ _ _ r Hne Hdig); [reflexivity..|].
    now rewrite rmatch_chr_cons.
  - rewrite rmatch_plus_chr_fail by (cbn [app head_is]; now apply upper_not_digit).
    cbn [app]. rewrite rmatch_chr_cons by exact Hc. now rewrite rmatch_chr_cons.
Qed.

Lemma numberGroup_fail (t : NumberingToken) (s : jsstring) k :
  isPatternToken t = true ->
  head_is is_dot s = false -> head_is is_digit s = false ->
  rmatch numberGroup (token_toString t ++ s) k = None.
Proof.
  intros Ht Hdot Hdig. unfold numberGroup. rewrite rmatch_alt, !rmatch_seq.
  destruct (token_toString_shape t Ht) as [[Hne Hall]|(c & -> & Hc)].
  - destruct Hall as [|d l Hd Hl]; [congruence|]. cbn [app].
    unfold Plus at 1. rewrite rmatch_seq, rmatch_chr_cons by exact Hd.
    rewrite rmatch_star_chr_then_fail; [|
      eapply Forall_impl; [exact Hl | intros x Hx; split; [exact Hx | now apply digit_not_dot_upper]]
      | exact Hdig | exact Hdot].
    apply rmatch_chr_fail. cbn [head_is]. now apply digit_not_dot_upper.
  - rewrite rmatch_plus_chr_fail by (cbn [app head_is]; now apply upper_not_digit).
    cbn [app]. rewrite rmatch_chr_cons by exact Hc. now apply rmatch_chr_fail.
Qed.

Lemma numberGroup_fail_head (s : jsstring) k :
  head_is is_digit s = false -> head_is is_upper s = false ->
  rmatch numberGroup s k = None.
Proof.
  intros Hd Hu. unfold numberGroup. rewrite rmatch_alt, !rmatch_seq.
  now rewrite rmatch_plus_chr_fail, rmatch_chr_fail.
Qed.

Lemma token_toString_nonempty (t : NumberingToken) :
  isPatternToken t = true -> (0 < length (token_toString t))%nat.
Proof.
  intros Ht. destruct (token_toString_shape t Ht) as [[Hne _]|(c & -> & _)].
  - destruct (token_toString t); [congruence | simpl; lia].
  - simpl. lia.
Qed.

Lemma numberGroups_numbered (ts : list NumberingToken) :
  forall (t : NumberingToken) (sep body : jsstring),
    Forall (fun t => isPatternToken t = true) (t :: ts) ->
    isPatternSeparator sep = true -> head_is is_blank body = false ->
    rmatch numberGroups
      (token_toString t ++ numberingString_from 1 ts ++ sep ++ 32%N :: body) afterGroups
    = Some body.
Proof.
  induction ts as [|t2 ts IH]; intros t sep body Hts Hsep Hb;
    apply Forall_cons in Hts as [Ht Hts]; unfold numberGroups;
    rewrite rmatch_star_unfold; fold numberGroups.
  - cbn [numberingString_from app].
    destruct (separator_head sep body Hsep) as (Hd & Hu & Hdot).
    destruct (decide (sep = [46%N])) as [->|Hne].
    + cbn [app]. rewrite (numberGroup_token t _ _ body Ht); [reflexivity|].
      replace (length (32%N :: body) <? length (token_toString t ++ 46%N :: 32%N :: body))%nat
        with true by (symmetry; apply Nat.ltb_lt; rewrite length_app; simpl; lia).
      unfold numberGroups. rewrite rmatch_star_unfold.
      rewrite numberGroup_fail_head by reflexivity. now apply afterGroups_blank.
    + rewrite (numberGroup_fail t _ _ Ht (Hdot Hne) Hd). now apply afterGroups_token.
  - rewrite numberingString_from_1_cons. cbn [app]. rewrite <- app_assoc.
    rewrite (numberGroup_token t _ _ body Ht); [reflexivity|].
    match goal with
    | |- (if ?b then _ else _) = _ =>
        replace b with true
          by (symmetry; apply Nat.ltb_lt; rewrite (length_app (token_toString t));
              simpl; lia)
    end.
    now apply IH.
Qed.

Lemma afterMarker_numbered (t : NumberingToken) (ts : list NumberingToken)
    (sep body : jsstring) :
  Forall (fun t => isPatternToken t = true) (t :: ts) ->
  isPatternSeparator sep = true -> head_is is_blank body = false ->
  rmatch afterMarker
    (32%N :: token_toString t ++ numberingString_from 1 ts ++ sep ++ 32%N :: body) Some
  = Some body.
Proof.
  intros Hts Hsep Hb. unfold afterMarker.
  rewrite rmatch_seq, rmatch_opt, rmatch_chr_cons by reflexivity.
  assert (Heq : forall x,
             rmatch (Seq numberGroups (Seq lastToken (Seq terminalPunct blanks))) x Some
             = rmatch numberGroups x afterGroups) by reflexivity.
  rewrite Heq. now rewrite (numberGroups_numbered ts t sep body Hts Hsep Hb).
Qed.

(** On a line that begins with a marker run, the numbering string of a
    stack of tokens, a separator of the pattern and one blank, the
    pattern matches just that, when no blank follows. *)
Lemma headingPrefix_numbered (m : jsstring) (stack : list NumberingToken)
    (sep body : jsstring) :
  isMarkerRun m -> stack <> [] ->
  Forall (fun t => isPatternToken t = true) stack ->
  isPatternSeparator sep = true -> head_is is_blank body = false ->
  headingPrefixText (m ++ makeNumberingString stack ++ sep ++ js " " ++ body)
  = m ++ makeNumberingString stack ++ sep ++ js " ".
Proof.
  intros Hm Hne Hts Hsep Hb. destruct stack as [|t ts]; [congruence|].
  unfold headingPrefixText.
  replace (m ++ makeNumberingString (t :: ts) ++ sep ++ js " " ++ body)
    with ((m ++ makeNumberingString (t :: ts) ++ sep ++ js " ") ++ body)
    by now rewrite <- !app_assoc.
  rewrite exec_anchored_rest; [reflexivity|].
  rewrite <- !app_assoc.
  change headingPrefixRegex
    with (Seq (UpTo 4 (Chr is_js_space)) (Seq (Plus (Chr is_hash)) afterMarker)).
  rewrite !rmatch_seq.
  rewrite rmatch_upto_chr_stop by now apply isMarkerRun_head.
  destruct Hm as [Hmne Hmall].
  apply (rmatch_plus_chr_greedy is_hash m _ _ body Hmne Hmall); [reflexivity|].
  rewrite makeNumberingString_cons.
  change ((32%N :: token_toString t ++ numberingString_from 1 ts) ++ sep ++ js " " ++ body)
    with (32%N :: (token_toString t ++ numberingString_from 1 ts) ++ sep ++ 32%N :: body).
  rewrite <- app_assoc.
  now apply afterMarker_numbered.
Qed.

Lemma afterMarker_plain_body (body : jsstring) :
  head_is is_digit body = false -> head_is is_upper body = false ->
  head_is is_terminal_punct body = false -> head_is is_blank body = false ->
  rmatch afterMarker (32%N :: body) Some = Some body.
Proof.
  intros Hd Hu Hp Hb. unfold afterMarker.
  rewrite rmatch_seq, rmatch_opt, rmatch_chr_cons by reflexivity.
  assert (Heq : forall x,
             rmatch (Seq numberGroups (Seq lastToken (Seq terminalPunct blanks))) x Some
             = rmatch numberGroups x afterGroups) by reflexivity.
  rewrite !Heq.
  assert (Hfail : rmatch numberGroups body afterGroups = None).
  { unfold numberGroups. rewrite rmatch_star_unfold.
    rewrite numberGroup_fail_head by assumption.
    unfold afterGroups, lastToken, terminalPunct, blanks.
    rewrite rmatch_opt, rmatch_alt.
    rewrite rmatch_plus_chr_fail, rmatch_chr_fail by assumption.
    rewrite rmatch_opt, rmatch_chr_fail by assumption.
    now apply rmatch_plus_chr_fail. }
  rewrite Hfail. unfold numberGroups. rewrite rmatch_star_unfold.
  rewrite numberGroup_fail_head by reflexivity. now apply afterGroups_blank.
Qed.

(** On a line that begins with a marker run and one blank, the pattern
    matches just that when the body begins with none of the characters it
    reads on: a digit, an uppercase letter, one of [: . -] or a blank. *)
Lemma headingPrefix_plain_body (m body : jsstring) :
  isMarkerRun m ->
  head_is is_digit body = false -> head_is is_upper body = false ->
  head_is is_terminal_punct body = false -> head_is is_blank body = false ->
  headingPrefixText (m ++ js " " ++ body) = m ++ js " ".
Proof.
  intros Hm Hd Hu Hp Hb. unfold headingPrefixText.
  replace (m ++ js " " ++ body) with ((m ++ js " ") ++ body) by now rewrite <- app_assoc.
  rewrite exec_anchored_rest; [reflexivity|]. rewrite <- app_assoc.
  change headingPrefixRegex
    with (Seq (UpTo 4 (Chr is_js_space)) (Seq (Plus (Chr is_hash)) afterMarker)).
  rewrite !rmatch_seq.
  rewrite rmatch_upto_chr_stop by now apply isMarkerRun_head.
  destruct Hm as [Hmne Hmall].
  apply (rmatch_plus_chr_greedy is_hash m _ _ body Hmne Hmall); [reflexivity|].
  now apply afterMarker_plain_body.
Qed.

(** What the pattern leaves does not begin with a blank. *)
Lemma rmatch_star_chr_rest (p : N -> bool) (s : jsstring) :
  exists rest, rmatch (Star (Chr p)) s Some = Some rest /\ head_is p rest = false.
Proof.
  induction s as [|c s (rest & IH & Hrest)].
  - exists []. now rewrite rmatch_star_chr_stop.
  - destruct (p c) eqn:Hc.
    + exists rest. rewrite rmatch_star_chr_cons by exact Hc. now rewrite IH.
    + exists (c :: s). now rewrite rmatch_star_chr_stop.
Qed.

Lemma headingPrefix_rest (l m : jsstring) :
  exec_anchored headingPrefixRegex l = Some m ->
  exists body, l = m ++ body /\ head_is is_blank body = false.
Proof.
  intros H. apply exec_anchored_sound in H as (_ & rest & -> & H).
  exists rest. split; [reflexivity|].
  change (rmatch headingPrefixRegex (m ++ rest) Some)
    with (rmatch (UpTo 4 (Chr is_js_space)) (m ++ rest)
            (fun s1 => rmatch (Plus (Chr is_hash)) s1
            (fun s2 => rmatch (Opt (Chr is_blank)) s2
            (fun s3 => rmatch numberGroups s3
            (fun s4 => rmatch lastToken s4
            (fun s5 => rmatch terminalPunct s5
            (fun s6 => rmatch (Chr is_blank) s6
            (fun s7 => rmatch (Star (Chr is_blank)) s7 Some)))))))) in H.
  do 7 (apply rmatch_sound in H as (? & ? & _ & _ & H); cbv beta in H).
  match type of H with rmatch _ ?s0 _ = _ => rename s0 into s end.
  destruct (rmatch_star_chr_rest is_blank s) as (rest' & H' & Hrest).
  congruence.
Qed.

(** ** Edits of a prefix and the lines they leave *)

Lemma split_lines_single (text : jsstring) :
  noLineBreak text -> split_lines text = [text].
Proof.
  induction 1 as [|c text [H10 H13] _ IH]; [reflexivity|].
  cbn [split_lines]. rewrite IH.
  apply N.eqb_neq in H10, H13. now rewrite H10, H13.
Qed.

Lemma getLine_replaceRange (e : Editor) (c : EditorChange) (j : nat) :
  isPrefixEdit c ->
  getLine (replaceRange e c) j
  = if decide (j = line (change_from c))
    then (fun l => change_text c ++ drop (ch (change_to c)) l) <$> getLine e j
    else getLine e j.
Proof.
  intros (Hline & Hch & Hnb). unfold replaceRange. rewrite Hline, Hch.
  set (n := line (change_from c)).
  destruct (getLine e n) as [l|] eqn:Hl.
  - unfold getLine in *. cbn [doc_lines].
    rewrite split_lines_single by exact Hnb. cbn [append_to_last prepend_to_first].
    rewrite take_0. cbn [app].
    pose proof (lookup_lt_Some _ _ _ Hl) as Hlt.
    rewrite <- (insert_take_drop (doc_lines e) n) by exact Hlt.
    rewrite list_lookup_insert.
    destruct (decide (j = n)) as [->|Hne].
    + rewrite decide_True by (split; [reflexivity | exact Hlt]). now rewrite Hl.
    + rewrite decide_False by (intros [? _]; congruence). reflexivity.
  - destruct (decide (j = n)) as [->|Hne]; [now rewrite Hl | reflexivity].
Qed.

Lemma getLine_transaction_agree (cs : list EditorChange) :
  Forall isPrefixEdit cs ->
  forall (e1 e2 : Editor) (j : nat),
    getLine e1 j = getLine e2 j ->
    getLine (transaction e1 cs) j = getLine (transaction e2 cs) j.
Proof.
  induction 1 as [|c cs Hc _ IH]; intros e1 e2 j H; [exact H|].
  unfold transaction. cbn [foldl]. apply IH.
  rewrite !getLine_replaceRange by exact Hc. now rewrite H.
Qed.

Lemma getLine_transaction_other (cs : list EditorChange) (j : nat) :
  Forall (fun c => isPrefixEdit c /\ line (change_from c) <> j) cs ->
  forall e : Editor, getLine (transaction e cs) j = getLine e j.
Proof.
  induction 1 as [|c cs [Hc Hne] _ IH]; intros e; [reflexivity|].
  unfold transaction. cbn [foldl]. fold (transaction (replaceRange e c) cs).
  rewrite IH, getLine_replaceRange by exact Hc.
  now rewrite decide_False by congruence.
Qed.

Lemma transaction_app (e : Editor) (cs1 cs2 : list EditorChange) :
  transaction e (cs1 ++ cs2) = transaction (transaction e cs1) cs2.
Proof. unfold transaction. apply foldl_app. Qed.

Lemma take_headingPrefixText (l : jsstring) :
  take (length (headingPrefixText l)) l = headingPrefixText l.
Proof.
  unfold headingPrefixText.
  destruct (exec_anchored headingPrefixRegex l) as [m|] eqn:E; [|reflexivity].
  apply exec_anchored_sound in E as (_ & rest & -> & _). apply take_app_length.
Qed.

Lemma heading_line_parts (l : jsstring) : l = headingPrefixText l ++ headingBodyText l.
Proof.
  unfold headingBodyText. rewrite <- (take_drop (length (headingPrefixText l)) l) at 1.
  now rewrite take_headingPrefixText.
Qed.

(** [replaceRangeSafely] on the range [getHeadingPrefixRange] returns. *)
Lemma replaceRangeSafely_prefix (e : Editor) (cs : list EditorChange) (n : nat)
    (l text : jsstring) :
  getLine e n = Some l ->
  replaceRangeSafely e cs
    {| range_from := {| line := n; ch := 0 |};
       range_to := {| line := n; ch := length (headingPrefixText l) |} |} text
  = cs ++ prefixEdit n l text.
Proof.
  intros Hl. unfold replaceRangeSafely, prefixEdit. cbn [range_from range_to].
  rewrite (getRange_prefix e n _ l Hl), take_headingPrefixText.
  destruct (str_eqb (headingPrefixText l) text); cbn [negb]; [now rewrite app_nil_r | reflexivity].
Qed.

Lemma prefixEdit_shape (n : nat) (l text : jsstring) :
  noLineBreak text ->
  Forall (fun c => isPrefixEdit c /\ line (change_from c) = n) (prefixEdit n l text).
Proof.
  intros Hnb. unfold prefixEdit. destruct (str_eqb (headingPrefixText l) text);
    repeat constructor; assumption.
Qed.

(** The line after the edit of its prefix: the new prefix, then the body. *)
Lemma getLine_prefixEdit (e : Editor) (n : nat) (l text : jsstring) :
  getLine e n = Some l -> noLineBreak text ->
  getLine (transaction e (prefixEdit n l text)) n = Some (text ++ headingBodyText l).
Proof.
  intros Hl Hnb. unfold prefixEdit, str_eqb.
  case_bool_decide as Heq.
  - cbn. rewrite Hl. f_equal. rewrite <- Heq. apply heading_line_parts.
  - unfold transaction. cbn [foldl].
    rewrite getLine_replaceRange by (repeat split; assumption).
    cbn [change_from change_to change_text line ch].
    now rewrite decide_True, Hl by reflexivity.
Qed.

Lemma isMarkerRun_noLineBreak (m : jsstring) : isMarkerRun m -> noLineBreak m.
Proof.
  intros [_ H]. eapply Forall_impl; [exact H|]. cbn beta. intros c Hc.
  unfold is_hash in Hc. apply N.eqb_eq in Hc as ->. split; discriminate.
Qed.

Lemma noLineBreak_app (a b : jsstring) :
  noLineBreak a -> noLineBreak b -> noLineBreak (a ++ b).
Proof. unfold noLineBreak. intros. now apply Forall_app. Qed.

(** C8.  The specification: the operation rewrites the prefix of every
    excluded heading to its marker run and one space.  The code at a
    note with a numbered second-level heading, excluded by a [maxLevel]
    of 1, and an underlined first-level heading after it: the loop puts
    the edit of the excluded heading into the batch, returns at the
    underlined heading (its line has no marker run) and dispatches
    nothing, so the excluded heading keeps its number; without the
    underlined heading the same edit is dispatched.  And at an excluded
    heading whose line is its marker run alone: the full-prefix pattern
    does not match the line, the range is empty, and the edit puts a
    second marker run before the first. *)
Theorem C8_excluded_heading_keeps_its_number :
  let s := exampleSettings 1 in
  let lines := [js "## 1.1. B"; js "Summary"; js "======="] in
  let excluded := mkHeading 2 0 (js "1.1. B") in
  let hs := [excluded; mkHeading 1 1 (js "Summary")] in
  let v := mkView lines hs in
  let strip := {| change_text := js "## ";
                  change_from := {| line := 0; ch := 0 |};
                  change_to := {| line := 0; ch := 8 |} |} in
  let bare := mkView [js "##"] [mkHeading 2 0 []] in
  isExcluded s (level excluded) = true
  /\ numberingStep s (view_editor v) (initialNumberingState s) excluded
     = Continue {| previousLevel := 1; numberingStack := [TNumber 0];
                   changes := [strip] |}
  /\ for_of (numberingStep s (view_editor v)) (initialNumberingState s) hs
     = Return {| previousLevel := 1; numberingStack := [TNumber 1];
                 changes := [strip] |}
  /\ updateHeadingNumbering (Some v) s = None
  /\ getLine (view_editor (after v (updateHeadingNumbering (Some v) s))) 0
     = Some (js "## 1.1. B")
  /\ updateHeadingNumbering (Some (mkView lines [excluded])) s = Some [strip]
  /\ getLine (view_editor (after (mkView lines [excluded])
                             (updateHeadingNumbering
                                (Some (mkView lines [excluded])) s))) 0
     = Some (js "## B")
  /\ updateHeadingNumbering (Some bare) s
     = Some [{| change_text := js "## ";
                change_from := {| line := 0; ch := 0 |};
                change_to := {| line := 0; ch := 0 |} |}]
  /\ doc_lines (view_editor (after bare (updateHeadingNumbering (Some bare) s)))
     = [js "## ##"].
Proof.
  repeat split; vm_compute; reflexivity.
Qed.

(** ** A second run of the numbering *)

Lemma scanner_same_line (e1 e2 : Editor) (h : HeadingCache) :
  getLine e1 (position_start_line h) = getLine e2 (position_start_line h) ->
  getHeadingPrefixRange e1 h = getHeadingPrefixRange e2 h
  /\ makeHeadingHashString e1 h = makeHeadingHashString e2 h.
Proof.
  intros H. unfold getHeadingPrefixRange, makeHeadingHashString. now rewrite H.
Qed.

Lemma Forall_removelast_tokens (P : NumberingToken -> Prop) (l : list NumberingToken) :
  Forall P l -> Forall P (removelast l).
Proof.
  induction 1 as [|x l Hx Hl IH]; [constructor|].
  destruct l as [|y l]; [constructor|]. cbn [removelast] in *. now constructor.
Qed.

Lemma Forall_last_token (P : NumberingToken -> Prop) (l : list NumberingToken)
    (x : NumberingToken) :
  Forall P l -> last l = Some x -> P x.
Proof.
  intros Hl Hx. apply last_Some in Hx as [l' ->].
  apply Forall_app in Hl as [_ Hl]. now inversion Hl.
Qed.

Lemma tokens_pop_push_next (stack : list NumberingToken) :
  Forall (fun t => isPatternToken t = true) stack ->
  Forall (fun t => isPatternToken t = true) (pop_push_next stack).
Proof.
  intros H. unfold pop_push_next. destruct (last stack) as [x|] eqn:E; [|exact H].
  apply Forall_app. split; [now apply Forall_removelast_tokens|].
  constructor; [|constructor]. apply isPatternToken_next.
  exact (Forall_last_token _ _ _ H E).
Qed.

Lemma tokens_pop_times (n : nat) (stack : list NumberingToken) :
  Forall (fun t => isPatternToken t = true) stack ->
  Forall (fun t => isPatternToken t = true) (pop_times n stack).
Proof.
  revert stack. induction n as [|n IH]; intros stack H; [exact H|].
  cbn [pop_times]. apply IH. now apply Forall_removelast_tokens.
Qed.

Lemma tokens_push_times (n : nat) (t : NumberingToken) (stack : list NumberingToken) :
  isPatternToken t = true ->
  Forall (fun t => isPatternToken t = true) stack ->
  Forall (fun t => isPatternToken t = true) (push_times n t stack).
Proof.
  intros Ht. revert stack. induction n as [|n IH]; intros stack H; [exact H|].
  cbn [push_times]. apply IH. apply Forall_app. split; [exact H | now repeat constructor].
Qed.

Lemma tokens_adjustNumberingStack (settings : NumberHeadingsPluginSettings)
    (prev lvl : Z) (stack : list NumberingToken) :
  Forall (fun t => isPatternToken t = true) stack ->
  Forall (fun t => isPatternToken t = true) (adjustNumberingStack settings prev lvl stack).
Proof.
  intros H. unfold adjustNumberingStack.
  destruct (lvl =? prev)%Z; [now apply tokens_pop_push_next|].
  destruct (lvl <? prev)%Z; [now apply tokens_pop_push_next, tokens_pop_times|].
  destruct (lvl >? prev)%Z; [|exact H].
  apply tokens_push_times; [apply isPatternToken_first | exact H].
Qed.

Lemma token_toString_noLineBreak (t : NumberingToken) :
  isPatternToken t = true -> noLineBreak (token_toString t).
Proof.
  intros Ht. destruct (token_toString_shape t Ht) as [[_ Hd]|(c & -> & Hc)].
  - eapply Forall_impl; [exact Hd|]. cbn beta. intros c Hc.
    unfold is_digit in Hc. apply andb_true_iff in Hc as [Hlo _]. apply N.leb_le in Hlo.
    split; lia.
  - constructor; [|constructor]. unfold is_upper in Hc.
    apply andb_true_iff in Hc as [Hlo _]. apply N.leb_le in Hlo. split; lia.
Qed.

Lemma numberingString_noLineBreak (i : nat) (stack : list NumberingToken) :
  Forall (fun t => isPatternToken t = true) stack ->
  noLineBreak (numberingString_from i stack).
Proof.
  intros H. revert i. induction H as [|t stack Ht _ IH]; intros i; [constructor|].
  cbn [numberingString_from]. apply noLineBreak_app.
  - destruct (i =? 0)%nat; repeat constructor; discriminate.
  - apply noLineBreak_app; [now apply token_toString_noLineBreak | apply IH].
Qed.

Lemma separator_noLineBreak (sep : jsstring) :
  isPatternSeparator sep = true -> noLineBreak sep.
Proof.
  destruct sep as [|c [|d sep]]; try discriminate; cbn [isPatternSeparator].
  - constructor.
  - unfold is_terminal_punct. intros H. constructor; [|constructor].
    apply orb_true_iff in H as [H|H]; [apply orb_true_iff in H as [H|H]|];
      apply N.eqb_eq in H as ->; split; discriminate.
Qed.

Lemma stable_body (settings : NumberHeadingsPluginSettings) (e : Editor)
    (h : HeadingCache) (l m : jsstring) :
  getLine e (position_start_line h) = Some l -> markerRun l = Some m ->
  isExcluded settings (level h) = false ->
  stableHeading settings e h = true ->
  head_is is_blank (headingBodyText l) = false.
Proof.
  intros Hl Hm Hex. unfold stableHeading. rewrite Hl, Hm, Hex.
  unfold headingBodyText, headingPrefixText.
  destruct (exec_anchored headingPrefixRegex l) as [x|] eqn:E.
  - intros _. apply headingPrefix_rest in E as (body & -> & Hb).
    now rewrite drop_app_length.
  - rewrite drop_0. now intros ->%negb_true_iff.
Qed.

(** One heading, first and second run: what the first run adds to the
    batch touches the line of the heading only, and on an editor that
    shows that line as the addition leaves it, the loop body goes the
    same way and adds nothing. *)
Lemma numberingStep_second_run (settings : NumberHeadingsPluginSettings) (e : Editor)
    (st st1 : NumberingState) (h : HeadingCache) :
  isPatternSeparator (separator settings) = true ->
  (1 <= level h)%Z ->
  stackInvariant settings st ->
  Forall (fun t => isPatternToken t = true) (numberingStack st) ->
  stableHeading settings e h = true ->
  numberingStep settings e st h = Continue st1 ->
  exists ed,
    changes st1 = changes st ++ ed
    /\ Forall (fun c => isPrefixEdit c /\ line (change_from c) = position_start_line h) ed
    /\ forall (e' : Editor) (acc : list EditorChange),
         getLine e' (position_start_line h)
         = getLine (transaction e ed) (position_start_line h) ->
         numberingStep settings e' (with_changes st acc) h = Continue (with_changes st1 acc).
Proof.
  intros Hsep Hpos Hinv Htok Hstable Hstep.
  set (n := position_start_line h) in *.
  assert (Hne : forall l m, markerRun l = Some m -> l <> []).
  { intros l m Hm ->. discriminate. }
  destruct (isExcluded settings (level h)) eqn:Hex.
  - (* an excluded heading *)
    unfold numberingStep in Hstep. rewrite Hex in Hstep.
    assert (Hquiet : makeHeadingHashString e h = None \/ getHeadingPrefixRange e h = None ->
              st1 = st
              /\ forall (e' : Editor) (acc : list EditorChange),
                   getLine e' n = getLine (transaction e []) n ->
                   numberingStep settings e' (with_changes st acc) h
                   = Continue (with_changes st acc)).
    { intros Hnone. split.
      - destruct Hnone as [Hn|Hn]; rewrite Hn in Hstep;
          [destruct (getHeadingPrefixRange e h)|]; congruence.
      - intros e' acc He'. destruct (scanner_same_line e' e h He') as [Hr Hh].
        unfold numberingStep. rewrite Hex, Hr, Hh.
        destruct Hnone as [Hn|Hn]; rewrite Hn;
          [destruct (getHeadingPrefixRange e h)|]; reflexivity. }
    destruct (getLine e n) as [l|] eqn:Hl;
      [destruct (markerRun l) as [m|] eqn:Hm|].
    + rewrite (makeHeadingHashString_line e h l Hl), Hm in Hstep.
      rewrite (getHeadingPrefixRange_line e h l Hl (Hne l m Hm)) in Hstep.
      rewrite (replaceRangeSafely_prefix e _ n l _ Hl) in Hstep. injection Hstep as <-.
      pose proof (markerRun_isMarkerRun l m Hm) as Hrun.
      assert (Hnb : noLineBreak (m ++ js " ")).
      { apply noLineBreak_app; [now apply isMarkerRun_noLineBreak|].
        repeat constructor; discriminate. }
      exists (prefixEdit n l (m ++ js " ")).
      split; [reflexivity|]. split; [now apply prefixEdit_shape|].
      intros e' acc He'. rewrite (getLine_prefixEdit e n l _ Hl Hnb) in He'.
      rewrite <- app_assoc in He'.
      unfold stableHeading in Hstable. fold n in Hstable.
      rewrite Hl, Hm, Hex in Hstable.
      unfold str_eqb in Hstable. apply bool_decide_eq_true in Hstable.
      unfold numberingStep. rewrite Hex.
      rewrite (makeHeadingHashString_line e' h _ He').
      rewrite (getHeadingPrefixRange_line e' h _ He')
        by (destruct Hrun as [Hrne _]; destruct m; [congruence | discriminate]).
      rewrite (markerRun_app m (js " " ++ headingBodyText l) Hrun) by reflexivity.
      fold n. rewrite (replaceRangeSafely_prefix e' _ n _ _ He').
      unfold prefixEdit. rewrite Hstable, str_eqb_refl, app_nil_r. reflexivity.
    + destruct Hquiet as [-> Hsecond].
      { left. now rewrite (makeHeadingHashString_line e h l Hl). }
      exists []. split; [now rewrite app_nil_r|]. split; [constructor | exact Hsecond].
    + destruct Hquiet as [-> Hsecond].
      { right. unfold getHeadingPrefixRange. fold n. now rewrite Hl. }
      exists []. split; [now rewrite app_nil_r|]. split; [constructor | exact Hsecond].
  - (* a numbered heading *)
    pose proof Hex as Hmax. unfold isExcluded in Hmax.
    apply orb_false_iff in Hmax as [_ Hmax].
    unfold numberingStep in Hstep. rewrite Hex, Hmax in Hstep.
    set (stack := adjustNumberingStack settings (previousLevel st) (level h)
                    (numberingStack st)) in *.
    destruct (getHeadingPrefixRange e h) as [r|] eqn:Hr; [|discriminate].
    destruct (makeHeadingHashString e h) as [m|] eqn:Hh; [|discriminate].
    destruct (getLine e n) as [l|] eqn:Hl;
      [|unfold getHeadingPrefixRange in Hr; fold n in Hr; rewrite Hl in Hr; discriminate].
    rewrite (makeHeadingHashString_line e h l Hl) in Hh.
    rewrite (getHeadingPrefixRange_line e h l Hl (Hne l m Hh)) in Hr. injection Hr as <-.
    fold n in Hstep. rewrite (replaceRangeSafely_prefix e _ n l _ Hl) in Hstep.
    injection Hstep as <-.
    pose proof (markerRun_isMarkerRun l m Hh) as Hrun.
    assert (Htok' : Forall (fun t => isPatternToken t = true) stack)
      by now apply tokens_adjustNumberingStack.
    assert (Hstack : stack <> []).
    { destruct Hinv as [Hlen Hprev].
      pose proof (length_adjustNumberingStack settings _ _ (level h) _ Hlen Hprev
                    (startLevel_le_level settings _ Hpos Hex)) as Hlen'.
      fold stack in Hlen'. pose proof (startLevel_le_level settings _ Hpos Hex).
      intros E. rewrite E in Hlen'. simpl in Hlen'. lia. }
    set (text := m ++ makeNumberingString stack ++ separator settings ++ js " ").
    assert (Hnb : noLineBreak text).
    { unfold text. apply noLineBreak_app; [now apply isMarkerRun_noLineBreak|].
      apply noLineBreak_app; [now apply numberingString_noLineBreak|].
      apply noLineBreak_app; [now apply separator_noLineBreak|].
      repeat constructor; discriminate. }
    exists (prefixEdit n l text).
    split; [reflexivity|]. split; [now apply prefixEdit_shape|].
    intros e' acc He'. rewrite (getLine_prefixEdit e n l _ Hl Hnb) in He'.
    pose proof (stable_body settings e h l m Hl Hh Hex Hstable) as Hbody.
    assert (Hline : text ++ headingBodyText l
                    = m ++ makeNumberingString stack ++ separator settings
                        ++ js " " ++ headingBodyText l)
      by (unfold text; now rewrite <- !app_assoc).
    pose proof (headingPrefix_numbered m stack (separator settings) (headingBodyText l)
                  Hrun Hstack Htok' Hsep Hbody) as Hprefix.
    rewrite <- Hline in Hprefix. fold text in Hprefix.
    assert (Hmarker : markerRun (text ++ headingBodyText l) = Some m).
    { rewrite Hline. apply markerRun_app; [exact Hrun|].
      destruct stack as [|t ts]; [congruence | reflexivity]. }
    unfold numberingStep. rewrite Hex, Hmax. cbn [with_changes previousLevel numberingStack].
    fold stack.
    rewrite (makeHeadingHashString_line e' h _ He'), Hmarker.
    rewrite (getHeadingPrefixRange_line e' h _ He')
      by (unfold text; destruct Hrun as [Hrne _]; destruct m; [congruence | discriminate]).
    fold n. cbn [changes]. rewrite (replaceRangeSafely_prefix e' _ n _ _ He').
    fold text. unfold prefixEdit. rewrite Hprefix, str_eqb_refl, app_nil_r. reflexivity.
Qed.

Lemma numberingStep_tokens (settings : NumberHeadingsPluginSettings) (e : Editor)
    (st : NumberingState) (h : HeadingCache) :
  Forall (fun t => isPatternToken t = true) (numberingStack st) ->
  Forall (fun t => isPatternToken t = true)
    (numberingStack (outcome_state (numberingStep settings e st h))).
Proof.
  intros H. pose proof (numberingStep_state settings e st h) as Hst. cbv zeta in Hst.
  destruct (isExcluded settings (level h)); destruct Hst as [_ ->];
    [exact H | now apply tokens_adjustNumberingStack].
Qed.

(** The whole loop, first and second run. *)
Lemma for_of_second_run (settings : NumberHeadingsPluginSettings) (e : Editor)
    (hs : list HeadingCache) :
  isPatternSeparator (separator settings) = true ->
  NoDup (map position_start_line hs) ->
  Forall (fun h => 1 <= level h)%Z hs ->
  Forall (fun h => stableHeading settings e h = true) hs ->
  forall st st' : NumberingState,
    stackInvariant settings st ->
    Forall (fun t => isPatternToken t = true) (numberingStack st) ->
    for_of (numberingStep settings e) st hs = Continue st' ->
    exists edits,
      changes st' = changes st ++ edits
      /\ Forall (fun c => isPrefixEdit c
                          /\ In (line (change_from c)) (map position_start_line hs)) edits
      /\ forall (e' : Editor) (acc : list EditorChange),
           (forall h, In h hs ->
              getLine e' (position_start_line h)
              = getLine (transaction e edits) (position_start_line h)) ->
           for_of (numberingStep settings e') (with_changes st acc) hs
           = Continue (with_changes st' acc).
Proof.
  intros Hsep Hnodup Hpos Hstable.
  induction hs as [|h hs IH]; intros st st' Hinv Htok Hrun.
  - injection Hrun as <-. exists []. split; [now rewrite app_nil_r|].
    split; [constructor | reflexivity].
  - cbn [for_of] in Hrun. destruct (numberingStep settings e st h) as [st1|st1] eqn:Hstep;
      [|discriminate].
    apply Forall_cons in Hpos as [Hpos1 Hpos]. apply Forall_cons in Hstable as [Hst1 Hstable].
    cbn [map] in Hnodup. apply NoDup_cons in Hnodup as [Hfresh Hnodup].
    destruct (numberingStep_second_run settings e st st1 h Hsep Hpos1 Hinv Htok Hst1 Hstep)
      as (ed & Hed & Hshape & Hsecond).
    pose proof (numberingStep_invariant settings e st h Hpos1 Hinv) as [Hinv1 _].
    pose proof (numberingStep_tokens settings e st h Htok) as Htok1.
    rewrite Hstep in Hinv1, Htok1. cbn [outcome_state] in Hinv1, Htok1.
    destruct (IH Hnodup Hpos Hstable st1 st' Hinv1 Htok1 Hrun)
      as (edits & Hedits & Hshapes & Hrest).
    assert (Hed_edits : Forall isPrefixEdit edits)
      by (eapply Forall_impl; [exact Hshapes | now intros c [Hc _]]).
    exists (ed ++ edits). split; [rewrite Hedits, Hed; now rewrite app_assoc|]. split.
    + apply Forall_app. split.
      * eapply Forall_impl; [exact Hshape|]. cbn beta. intros c [Hc ->].
        split; [exact Hc | now left].
      * eapply Forall_impl; [exact Hshapes|]. cbn beta. intros c [Hc Hin].
        split; [exact Hc | now right].
    + intros e' acc He'. cbn [for_of].
      rewrite (Hsecond e' acc).
      * apply Hrest. intros h' Hh'. rewrite (He' h') by now right.
        rewrite transaction_app. apply getLine_transaction_agree; [exact Hed_edits|].
        apply getLine_transaction_other.
        eapply Forall_impl; [exact Hshape|]. cbn beta. intros c [Hc ->].
        split; [exact Hc|]. intros Heq. apply Hfresh.
        rewrite Heq. apply list_elem_of_In. now apply in_map.
      * rewrite (He' h) by now left. rewrite transaction_app.
        apply getLine_transaction_other.
        eapply Forall_impl; [exact Hshapes|]. cbn beta. intros c [Hc Hin].
        split; [exact Hc|]. intros Heq. apply Hfresh.
        rewrite <- Heq. now apply list_elem_of_In.
Qed.

Lemma dispatch_transaction_of (e : Editor) (cs : list EditorChange) :
  dispatch e (transaction_of cs) = transaction e cs.
Proof. destruct cs; reflexivity. Qed.

(** C5, as the code has it.  When the separator is one the full-prefix
    pattern knows (none, or one of [: . -]), the headings lie on lines of
    their own and have positive levels, and every heading is stable (a
    numbered one matches the pattern or does not begin with a blank; an
    excluded one has, after its prefix, a body the pattern does not strip
    further), a second run of the numbering right after a first one
    dispatches no transaction. *)
Theorem C5_second_run_emits_nothing (settings : NumberHeadingsPluginSettings)
    (v : ViewInfo) :
  isPatternSeparator (separator settings) = true ->
  NoDup (map position_start_line (headings_of v)) ->
  Forall (fun h => 1 <= level h)%Z (headings_of v) ->
  Forall (fun h => stableHeading settings (view_editor v) h = true) (headings_of v) ->
  updateHeadingNumbering (Some (after v (updateHeadingNumbering (Some v) settings))) settings
  = None.
Proof.
  intros Hsep Hnodup Hpos Hstable.
  unfold updateHeadingNumbering at 2.
  destruct (for_of (numberingStep settings (view_editor v))
              (initialNumberingState settings) (headings_of v)) as [st'|st'] eqn:Hrun.
  - destruct (for_of_second_run settings (view_editor v) (headings_of v)
                Hsep Hnodup Hpos Hstable _ st'
                (initialNumberingState_invariant settings)
                (Forall_cons_2 _ _ _ (isPatternToken_zeroth _) (Forall_nil_2 _))
                Hrun) as (edits & Hedits & _ & Hsecond).
    cbn [initialNumberingState changes app] in Hedits.
    unfold updateHeadingNumbering, after.
    cbn [view_editor headings_of data_headings].
    fold (headings_of v). rewrite dispatch_transaction_of, Hedits.
    change (initialNumberingState settings)
      with (with_changes (initialNumberingState settings) []).
    change (headings_of {| data_headings := data_headings v;
                           view_editor := transaction (view_editor v) edits |})
      with (headings_of v).
    rewrite (Hsecond (transaction (view_editor v) edits) []); reflexivity.
  - unfold updateHeadingNumbering, after. cbn [dispatch view_editor headings_of data_headings].
    change (headings_of {| data_headings := data_headings v;
                           view_editor := view_editor v |})
      with (headings_of v).
    now rewrite Hrun.
Qed.

Lemma C5_second_run_emits_nothing_witness :
  updateHeadingNumbering
    (Some (after (mkView exampleLines exampleHeadings)
             (updateHeadingNumbering (Some (mkView exampleLines exampleHeadings))
                (exampleSettings 6))))
    (exampleSettings 6)
  = None.
Proof.
  apply (C5_second_run_emits_nothing (exampleSettings 6)
           (mkView exampleLines exampleHeadings)).
  - reflexivity.
  - cbn. repeat (apply NoDup_cons; split;
                 [rewrite !list_elem_of_In; cbn; intuition discriminate|]).
    apply NoDup_nil_2.
  - repeat constructor; cbn; lia.
  - repeat constructor; vm_compute; reflexivity.
Defined.

(** C5, as the specification has it, fails on an excluded heading whose text
    begins like a number: with [maxLevel] 1, the first run strips "1. "
    from "## 1. 2. Notes", and the second run finds "2. " to strip. *)
Lemma C5_counterexample :
  let s := exampleSettings 1 in
  let v := mkView [js "## 1. 2. Notes"] [mkHeading 2 0 (js "1. 2. Notes")] in
  let v1 := after v (updateHeadingNumbering (Some v) s) in
  doc_lines (view_editor v1) = [js "## 2. Notes"]
  /\ updateHeadingNumbering (Some v1) s
     = Some [{| change_text := js "## ";
                change_from := {| line := 0; ch := 0 |};
                change_to := {| line := 0; ch := 6 |} |}]
  /\ updateHeadingNumbering (Some v1) s <> None.
Proof.
  repeat split; try (vm_compute; reflexivity).
  vm_compute. discriminate.
Qed.

(** ** The contents list at the end of the document *)

Lemma scanTocList_bullets (start k : nat) (bullets : list jsstring) :
  Forall (fun l => isBulletLine l = true) bullets ->
  scanTocList start k true bullets = start.
Proof.
  intros H. revert k. induction H as [|l bullets Hl _ IH]; intros k; [reflexivity|].
  cbn [scanTocList]. unfold isBulletLine in Hl. rewrite Hl. cbn [negb].
  replace (startsWith (trimStart l) (js "#")) with false; [apply IH|].
  destruct (trimStart l) as [|c x]; [discriminate|].
  cbn in Hl |- *. apply andb_true_iff in Hl as [Hc _]. apply N.eqb_eq in Hc as <-.
  reflexivity.
Qed.

Lemma scanTocList_to_the_end (start k : nat) (plain bullets : list jsstring) :
  Forall (fun l => isPlainLine l = true) plain ->
  Forall (fun l => isBulletLine l = true) bullets ->
  scanTocList start k false (plain ++ bullets) = start.
Proof.
  intros Hp Hb. revert k. induction Hp as [|l plain Hl _ IH]; intros k.
  - destruct Hb as [|b bullets Hb1 Hb]; [reflexivity|].
    cbn [app scanTocList]. unfold isBulletLine in Hb1. rewrite Hb1.
    now apply scanTocList_bullets.
  - cbn [app scanTocList]. unfold isPlainLine in Hl.
    apply andb_true_iff in Hl as [H1 H2]. apply negb_true_iff in H1, H2.
    rewrite H1, H2. apply IH.
Qed.

Lemma tocStep_built (settings : NumberHeadingsPluginSettings) (hs : list HeadingCache) :
  forall (a : option HeadingCache) (b : list N),
    snd (foldl (tocStep settings) (a, b) hs) = b
    \/ exists x, snd (foldl (tocStep settings) (a, b) hs) = b ++ x ++ [line_break].
Proof.
  induction hs as [|h hs IH]; intros a b; [now left|].
  cbn [foldl]. destruct (tocStep settings (a, b) h) as [a' b'] eqn:E.
  unfold tocStep in E. cbn [fst snd] in E.
  destruct (isExcluded settings (level h)); injection E as <- <-.
  - apply IH.
  - right. destruct (IH (if endsWith (heading h) (contents settings) then Some h else a)
                        (b ++ createTocEntry h settings ++ [line_break])) as [->|[x ->]].
    + eauto.
    + exists (createTocEntry h settings ++ [line_break] ++ x).
      now rewrite <- !app_assoc.
Qed.

Lemma split_lines_break_last (s : jsstring) :
  exists ps, ps <> [] /\ split_lines (s ++ [line_break]) = ps ++ [[]].
Proof.
  induction s as [|c s (ps & Hne & IH)].
  - exists [[]]. split; [discriminate | reflexivity].
  - cbn [app split_lines].
    destruct (c =? 10)%N; [exists ([] :: ps); split; [discriminate | now rewrite IH]|].
    destruct (c =? 13)%N.
    + destruct (s ++ [line_break]) as [|d x] eqn:E; [now destruct s|].
      destruct (d =? 10)%N; [now exists ps|].
      exists ([] :: ps). split; [discriminate | now rewrite IH].
    + rewrite IH. destruct ps as [|p ps]; [congruence|].
      exists ((c :: p) :: ps). split; [discriminate | reflexivity].
Qed.

Lemma append_to_last_snoc (ps : list jsstring) (p rest : jsstring) :
  append_to_last (ps ++ [p]) rest = ps ++ [p ++ rest].
Proof.
  induction ps as [|q ps IH]; [reflexivity|].
  cbn [app append_to_last]. rewrite IH. now destruct (ps ++ [p]) eqn:E; [destruct ps|].
Qed.

(** C10. When an anchor heading is found and, after it, lines that are
    neither bullets nor headings (if any) are followed by bullet lines up
    to the last line of the document, the range to replace is the empty
    range at the start of the line after the anchor; the list built goes
    into the batch as an insertion there (nothing, when no heading gets
    an entry), and the transaction leaves every line after the anchor,
    the old list among them, in place after the inserted lines. *)
Theorem C10_list_to_the_end_of_document (doesContentsHaveValue : jsstring -> bool)
    (settings : NumberHeadingsPluginSettings) (v : ViewInfo) (t : HeadingCache)
    (built : jsstring) (plain bullets : list jsstring) :
  doesContentsHaveValue (contents settings) = true ->
  foldl (tocStep settings) (None, [line_break]) (headings_of v) = (Some t, built) ->
  drop (position_start_line t + 1) (doc_lines (view_editor v)) = plain ++ bullets ->
  Forall (fun l => isPlainLine l = true) plain ->
  Forall (fun l => isBulletLine l = true) bullets ->
  bullets <> [] ->
  let n := (position_start_line t + 1)%nat in
  let start := {| line := n; ch := 0 |} in
  let tx := updateTableOfContents doesContentsHaveValue (Some v) settings in
  scanTocList n n false (drop n (doc_lines (view_editor v))) = n
  /\ tx = transaction_of
            (if str_eqb built [line_break] then []
             else [{| change_text := built; change_from := start; change_to := start |}])
  /\ exists inserted,
       doc_lines (dispatch (view_editor v) tx)
       = take n (doc_lines (view_editor v)) ++ inserted ++ plain ++ bullets
       /\ (inserted = [] <-> built = [line_break]).
Proof.
  intros Hhas Hfold Hdrop Hplain Hbullets Hne n start tx.
  assert (Hscan : scanTocList n n false (drop n (doc_lines (view_editor v))) = n).
  { subst n. rewrite Hdrop. now apply scanTocList_to_the_end. }
  assert (Hrange : forall text,
             replaceRangeSafely (view_editor v) []
               {| range_from := start; range_to := start |} text
             = if str_eqb text [] then []
               else [{| change_text := text; change_from := start; change_to := start |}]).
  { intros text. unfold replaceRangeSafely, getRange. cbn [range_from range_to start line ch].
    rewrite Nat.eqb_refl.
    match goal with
    | |- context [str_eqb ?x text] =>
        assert (Hempty : x = []) by (destruct (getLine (view_editor v) n); reflexivity);
        rewrite Hempty
    end.
    unfold str_eqb. repeat case_bool_decide; try reflexivity; congruence. }
  assert (Htx : tx = transaction_of
                       (if str_eqb built [line_break] then []
                        else [{| change_text := built; change_from := start;
                                 change_to := start |}])).
  { subst tx. unfold updateTableOfContents. rewrite Hhas. cbn [negb].
    rewrite Hfold. fold n. rewrite Hscan. fold start. rewrite Hrange.
    destruct (str_eqb built [line_break]) eqn:Eb; [reflexivity|].
    rewrite str_eqb_false; [reflexivity|].
    pose proof (tocStep_built settings (headings_of v) None [line_break]) as Hb.
    rewrite Hfold in Hb. cbn [snd] in Hb. destruct Hb as [->|[x ->]]; discriminate. }
  split; [exact Hscan|]. split; [exact Htx|].
  rewrite Htx. unfold str_eqb. case_bool_decide as Eb.
  - exists []. split; [|now split].
    cbn [transaction_of dispatch app]. rewrite <- Hdrop. fold n. now rewrite take_drop.
  - pose proof (tocStep_built settings (headings_of v) None [line_break]) as Hb.
    rewrite Hfold in Hb. cbn [snd] in Hb. destruct Hb as [->|[x Hx]]; [congruence|].
    destruct (split_lines_break_last ([line_break] ++ x)) as (ps & Hps & Hsplit).
    rewrite <- app_assoc, <- Hx in Hsplit.
    exists ps. split; [|split; congruence].
    cbn [transaction_of dispatch transaction foldl].
    unfold replaceRange. cbn [change_from change_to change_text start line ch].
    assert (Hline : exists l rest, plain ++ bullets = l :: rest).
    { destruct plain as [|p plain]; [|now eauto].
      destruct bullets as [|b bullets]; [congruence | now eauto]. }
    destruct Hline as (l & rest & Hline).
    assert (Hl : getLine (view_editor v) n = Some l).
    { unfold getLine. rewrite <- (Nat.add_0_r n), <- lookup_drop.
      fold n in Hdrop. now rewrite Hdrop, Hline. }
    rewrite Hl, Hsplit, append_to_last_snoc, take_0, drop_0. cbn [app].
    destruct ps as [|p ps]; [congruence|]. cbn [prepend_to_first app].
    cbn [doc_lines]. rewrite <- !app_assoc. cbn [app]. do 3 f_equal.
    fold n in Hdrop. rewrite <- Hdrop. symmetry. now apply drop_S.
Qed.

Lemma C10_list_to_the_end_of_document_witness :
  updateTableOfContents specContentsHaveValue
    (Some (mkView contentsLines contentsHeadings)) contentsSettings
  = Some [{| change_text := 10%N :: js "- [[#Contents|Contents]]" ++ [10%N];
             change_from := {| line := 1; ch := 0 |};
             change_to := {| line := 1; ch := 0 |} |}].
Proof.
  apply (C10_list_to_the_end_of_document specContentsHaveValue contentsSettings
           (mkView contentsLines contentsHeadings) (mkHeading 1 0 (js "Contents"))
           (10%N :: js "- [[#Contents|Contents]]" ++ [10%N])
           [js ""] [js "- [[#Old|Old]]"; js "- [[#Older|Older]]"]).
  - reflexivity.
  - vm_compute. reflexivity.
  - reflexivity.
  - repeat constructor.
  - repeat constructor.
  - discriminate.
Defined.

(** ** Removal after numbering, when every scan succeeds *)

Lemma editsOn_concat (hs : list HeadingCache) (eds : list (list EditorChange)) :
  Forall2 (fun h ed => editsOn (position_start_line h) ed) hs eds ->
  Forall (fun c => isPrefixEdit c
                   /\ In (line (change_from c)) (map position_start_line hs))
    (concat eds).
Proof.
  induction 1 as [|h ed hs eds Hed _ IH]; [constructor|].
  cbn [concat map]. apply Forall_app. split.
  - eapply Forall_impl; [exact Hed|]. cbn beta. intros c [Hc ->]. split; [exact Hc | now left].
  - eapply Forall_impl; [exact IH|]. cbn beta. intros c [Hc Hin]. split; [exact Hc | now right].
Qed.

(** With headings on lines of their own, the line of a heading after the
    whole batch is its line after its own edits. *)
Lemma getLine_concat_edits (hs : list HeadingCache) (eds : list (list EditorChange)) :
  Forall2 (fun h ed => editsOn (position_start_line h) ed) hs eds ->
  NoDup (map position_start_line hs) ->
  forall (e : Editor) (i : nat) (h : HeadingCache) (ed : list EditorChange),
    hs !! i = Some h -> eds !! i = Some ed ->
    getLine (transaction e (concat eds)) (position_start_line h)
    = getLine (transaction e ed) (position_start_line h).
Proof.
  induction 1 as [|h0 ed0 hs eds Hed0 Hall IH]; intros Hnd e i h ed Hh Hed;
    [destruct i; discriminate|].
  cbn [map] in Hnd. apply NoDup_cons in Hnd as [Hfresh Hnd].
  cbn [concat]. rewrite transaction_app. destruct i as [|i].
  - injection Hh as <-. injection Hed as <-.
    apply getLine_transaction_other.
    eapply Forall_impl; [exact (editsOn_concat hs eds Hall)|]. cbn beta.
    intros c [Hc Hin]. split; [exact Hc|]. intros Heq. apply Hfresh.
    rewrite <- Heq. now apply list_elem_of_In.
  - cbn in Hh, Hed. rewrite (IH Hnd (transaction e ed0) i h ed Hh Hed).
    pose proof (Forall2_lookup_lr _ _ _ _ _ _ Hall Hh Hed) as Hshape.
    apply getLine_transaction_agree.
    + eapply Forall_impl; [exact Hshape | now intros c [Hc _]].
    + apply getLine_transaction_other.
      eapply Forall_impl; [exact Hed0|]. cbn beta. intros c [Hc ->].
      split; [exact Hc|]. intros Heq. apply Hfresh. rewrite Heq.
      apply list_elem_of_In, in_map. apply list_elem_of_In.
      now apply list_elem_of_lookup_2 with i.
Qed.

(** One heading with a marker run: the numbering loop goes on. *)
Lemma numberingStep_numbers (settings : NumberHeadingsPluginSettings) (e : Editor)
    (st : NumberingState) (h : HeadingCache) :
  isPatternSeparator (separator settings) = true ->
  (1 <= level h)%Z ->
  stackInvariant settings st ->
  Forall (fun t => isPatternToken t = true) (numberingStack st) ->
  hasMarkerRun e h ->
  exists st1 ed,
    numberingStep settings e st h = Continue st1
    /\ changes st1 = changes st ++ ed
    /\ editsOn (position_start_line h) ed
    /\ numberedAs settings e h ed.
Proof.
  intros Hsep Hpos Hinv Htok (l & m & Hl & Hm).
  set (n := position_start_line h) in *.
  assert (Hne : l <> []) by (intros ->; discriminate).
  pose proof (markerRun_isMarkerRun l m Hm) as Hrun.
  assert (Hmne : forall x, m ++ x <> []).
  { destruct Hrun as [Hrne _]. intros x. destruct m; [congruence | discriminate]. }
  unfold numberingStep.
  rewrite (makeHeadingHashString_line e h l Hl), Hm.
  rewrite (getHeadingPrefixRange_line e h l Hl Hne). fold n.
  rewrite !(replaceRangeSafely_prefix e _ n l _ Hl).
  destruct (isExcluded settings (level h)) eqn:Hex.
  - assert (Hnb : noLineBreak (m ++ js " ")).
    { apply noLineBreak_app; [now apply isMarkerRun_noLineBreak|].
      repeat constructor; discriminate. }
    eexists. exists (prefixEdit n l (m ++ js " ")).
    split; [reflexivity|]. split; [reflexivity|]. split; [now apply prefixEdit_shape|].
    intros l' m' Hl' Hm'. fold n in Hl'. rewrite Hl in Hl'. injection Hl' as <-.
    rewrite Hm in Hm'. injection Hm' as <-.
    exists ((m ++ js " ") ++ headingBodyText l). split; [now apply getLine_prefixEdit|].
    rewrite <- app_assoc.
    split; [now apply markerRun_app|]. split; [intros Hex'; congruence | reflexivity].
  - pose proof Hex as Hmax. unfold isExcluded in Hmax.
    apply orb_false_iff in Hmax as [_ Hmax]. rewrite Hmax.
    set (stack := adjustNumberingStack settings (previousLevel st) (level h)
                    (numberingStack st)).
    assert (Htok' : Forall (fun t => isPatternToken t = true) stack)
      by now apply tokens_adjustNumberingStack.
    assert (Hstack : stack <> []).
    { destruct Hinv as [Hlen Hprev].
      pose proof (startLevel_le_level settings _ Hpos Hex) as Hle.
      pose proof (length_adjustNumberingStack settings _ _ (level h) _ Hlen Hprev Hle)
        as Hlen'.
      fold stack in Hlen'. intros E. rewrite E in Hlen'. simpl in Hlen'. lia. }
    set (text := m ++ makeNumberingString stack ++ separator settings ++ js " ").
    assert (Hnb : noLineBreak text).
    { unfold text. apply noLineBreak_app; [now apply isMarkerRun_noLineBreak|].
      apply noLineBreak_app; [now apply numberingString_noLineBreak|].
      apply noLineBreak_app; [now apply separator_noLineBreak|].
      repeat constructor; discriminate. }
    eexists. exists (prefixEdit n l text).
    split; [reflexivity|]. split; [reflexivity|]. split; [now apply prefixEdit_shape|].
    intros l' m' Hl' Hm'. fold n in Hl'. rewrite Hl in Hl'. injection Hl' as <-.
    rewrite Hm in Hm'. injection Hm' as <-.
    assert (Hline : text ++ headingBodyText l
                    = m ++ makeNumberingString stack ++ separator settings
                        ++ js " " ++ headingBodyText l)
      by (unfold text; now rewrite <- !app_assoc).
    exists (text ++ headingBodyText l). split; [now apply getLine_prefixEdit|]. split.
    + rewrite Hline. apply markerRun_app; [exact Hrun|].
      destruct stack as [|t ts]; [congruence | reflexivity].
    + split; [|intros Hex'; congruence]. intros _ Hbody.
      pose proof (headingPrefix_numbered m stack (separator settings) (headingBodyText l)
                    Hrun Hstack Htok' Hsep Hbody) as Hprefix.
      rewrite <- Hline in Hprefix. fold text in Hprefix.
      unfold headingBodyText at 1. rewrite Hprefix. apply drop_app_length.
Qed.

(** The numbering loop on headings that all have a marker run: it does
    not return, and each heading is numbered on its own line. *)
Lemma for_of_numbers (settings : NumberHeadingsPluginSettings) (e : Editor)
    (hs : list HeadingCache) :
  isPatternSeparator (separator settings) = true ->
  Forall (fun h => 1 <= level h)%Z hs ->
  Forall (hasMarkerRun e) hs ->
  forall st : NumberingState,
    stackInvariant settings st ->
    Forall (fun t => isPatternToken t = true) (numberingStack st) ->
    exists st' eds,
      for_of (numberingStep settings e) st hs = Continue st'
      /\ changes st' = changes st ++ concat eds
      /\ Forall2 (fun h ed => editsOn (position_start_line h) ed) hs eds
      /\ Forall2 (numberedAs settings e) hs eds.
Proof.
  intros Hsep Hpos Hmark. induction hs as [|h hs IH]; intros st Hinv Htok.
  - exists st, []. cbn. rewrite app_nil_r. repeat split; constructor.
  - apply Forall_cons in Hpos as [Hpos1 Hpos]. apply Forall_cons in Hmark as [Hm1 Hmark].
    destruct (numberingStep_numbers settings e st h Hsep Hpos1 Hinv Htok Hm1)
      as (st1 & ed & Hstep & Hch & Hon & Hnum).
    pose proof (numberingStep_invariant settings e st h Hpos1 Hinv) as [Hinv1 _].
    pose proof (numberingStep_tokens settings e st h Htok) as Htok1.
    rewrite Hstep in Hinv1, Htok1. cbn [outcome_state] in Hinv1, Htok1.
    destruct (IH Hpos Hmark st1 Hinv1 Htok1) as (st' & eds & Hrun & Hch' & Hons & Hnums).
    exists st', (ed :: eds). cbn [for_of concat]. rewrite Hstep.
    split; [exact Hrun|]. split; [now rewrite Hch', Hch, app_assoc|].
    split; now constructor.
Qed.

(** The numbering operation on a note where the marker-only scan succeeds
    on every heading (so that the loop does not return early): the line
    of an excluded heading becomes its marker run, one space and its
    body. *)
Lemma excluded_heading_after_numbering (settings : NumberHeadingsPluginSettings)
    (v : ViewInfo) :
  isPatternSeparator (separator settings) = true ->
  NoDup (map position_start_line (headings_of v)) ->
  Forall (fun h => 1 <= level h)%Z (headings_of v) ->
  Forall (hasMarkerRun (view_editor v)) (headings_of v) ->
  forall (h : HeadingCache) (l m : jsstring),
    In h (headings_of v) ->
    isExcluded settings (level h) = true ->
    getLine (view_editor v) (position_start_line h) = Some l ->
    markerRun l = Some m ->
    getLine (view_editor (after v (updateHeadingNumbering (Some v) settings)))
      (position_start_line h)
    = Some (m ++ js " " ++ headingBodyText l).
Proof.
  intros Hsep Hnd Hpos Hmark h l m Hin Hex Hl Hm.
  destruct (for_of_numbers settings (view_editor v) (headings_of v) Hsep Hpos Hmark
              (initialNumberingState settings)
              (initialNumberingState_invariant settings)
              (Forall_cons_2 _ _ _ (isPatternToken_zeroth _) (Forall_nil_2 _)))
    as (st' & eds & Hrun & Hch & Hons & Hnums).
  cbn [initialNumberingState changes app] in Hch.
  unfold after, updateHeadingNumbering. cbn [view_editor].
  rewrite Hrun, dispatch_transaction_of, Hch.
  apply list_elem_of_In, list_elem_of_lookup_1 in Hin as [i Hh].
  destruct (Forall2_lookup_l _ _ _ _ _ Hnums Hh) as (ed & Hed & Hnum).
  destruct (Hnum l m Hl Hm) as (l1 & Hl1 & _ & _ & Hstrip).
  rewrite (getLine_concat_edits (headings_of v) eds Hons Hnd _ i h ed Hh Hed).
  now rewrite Hl1, (Hstrip Hex).
Qed.

(** The removal loop on headings that all have a marker run. *)
Lemma for_of_strips (e : Editor) (hs : list HeadingCache) :
  Forall (hasMarkerRun e) hs ->
  forall cs : list EditorChange,
    exists eds,
      for_of (removalStep e) cs hs = Continue (cs ++ concat eds)
      /\ Forall2 (fun h ed => editsOn (position_start_line h) ed) hs eds
      /\ Forall2 (strippedAs e) hs eds.
Proof.
  induction 1 as [|h hs (l & m & Hl & Hm) _ IH]; intros cs.
  - exists []. cbn. rewrite app_nil_r. repeat split; constructor.
  - assert (Hne : l <> []) by (intros ->; discriminate).
    pose proof (markerRun_isMarkerRun l m Hm) as Hrun.
    assert (Hnb : noLineBreak (m ++ js " ")).
    { apply noLineBreak_app; [now apply isMarkerRun_noLineBreak|].
      repeat constructor; discriminate. }
    set (ed := prefixEdit (position_start_line h) l (m ++ js " ")).
    destruct (IH (cs ++ ed)) as (eds & Hrun' & Hons & Hstrips).
    assert (Hstep : removalStep e cs h = Continue (cs ++ ed)).
    { unfold removalStep.
      rewrite (makeHeadingHashString_line e h l Hl), Hm.
      rewrite (getHeadingPrefixRange_line e h l Hl Hne).
      now rewrite (replaceRangeSafely_prefix e _ _ l _ Hl). }
    exists (ed :: eds). cbn [for_of concat]. rewrite Hstep.
    split; [now rewrite Hrun', app_assoc|].
    split; constructor; try assumption.
    + now apply prefixEdit_shape.
    + intros l' m' Hl' Hm'. rewrite Hl in Hl'. injection Hl' as <-.
      rewrite Hm in Hm'. injection Hm' as <-.
      unfold ed. rewrite (getLine_prefixEdit e _ l _ Hl Hnb). now rewrite <- app_assoc.
Qed.

(** X23.  Removal after numbering, on a note where the marker-only scan
    succeeds on every heading (so that neither loop returns early): a
    heading that is not excluded, whose line matched the full-prefix
    pattern or did not begin with a blank, ends with its marker run, one
    space and its body; when its prefix was the marker run and one space
    to begin with, its line is what it was. *)
Lemma removal_after_numbering (settings : NumberHeadingsPluginSettings) (v : ViewInfo) :
  isPatternSeparator (separator settings) = true ->
  NoDup (map position_start_line (headings_of v)) ->
  Forall (fun h => 1 <= level h)%Z (headings_of v) ->
  Forall (hasMarkerRun (view_editor v)) (headings_of v) ->
  let v1 := after v (updateHeadingNumbering (Some v) settings) in
  let v2 := after v1 (removeHeadingNumbering (Some v1)) in
  forall (h : HeadingCache) (l m : jsstring),
    In h (headings_of v) ->
    isExcluded settings (level h) = false ->
    getLine (view_editor v) (position_start_line h) = Some l ->
    markerRun l = Some m ->
    head_is is_blank (headingBodyText l) = false ->
    getLine (view_editor v2) (position_start_line h)
    = Some (m ++ js " " ++ headingBodyText l)
    /\ (headingPrefixText l = m ++ js " " ->
        getLine (view_editor v2) (position_start_line h) = Some l).
Proof.
  intros Hsep Hnd Hpos Hmark v1 v2 h l m Hin Hex Hl Hm Hbody.
  destruct (for_of_numbers settings (view_editor v) (headings_of v) Hsep Hpos Hmark
              (initialNumberingState settings)
              (initialNumberingState_invariant settings)
              (Forall_cons_2 _ _ _ (isPatternToken_zeroth _) (Forall_nil_2 _)))
    as (st' & eds & Hrun & Hch & Hons & Hnums).
  cbn [initialNumberingState changes app] in Hch.
  assert (He1 : view_editor v1 = transaction (view_editor v) (concat eds)).
  { subst v1. unfold after, updateHeadingNumbering. cbn [view_editor].
    now rewrite Hrun, dispatch_transaction_of, Hch. }
  assert (Hhs1 : headings_of v1 = headings_of v) by reflexivity.
  assert (Hline1 : forall i h' ed, headings_of v !! i = Some h' -> eds !! i = Some ed ->
            getLine (view_editor v1) (position_start_line h')
            = getLine (transaction (view_editor v) ed) (position_start_line h')).
  { intros i h' ed Hh' Hed. rewrite He1.
    now apply (getLine_concat_edits (headings_of v) eds Hons Hnd _ i). }
  assert (Hmark1 : Forall (hasMarkerRun (view_editor v1)) (headings_of v)).
  { apply Forall_lookup_2. intros i h' Hh'.
    destruct (Forall2_lookup_l _ _ _ _ _ Hnums Hh') as (ed & Hed & Hnum).
    destruct (Forall_lookup_1 _ _ _ _ Hmark Hh') as (l' & m' & Hl' & Hm').
    destruct (Hnum l' m' Hl' Hm') as (l1 & Hl1 & Hm1 & _ & _).
    exists l1, m'. split; [|exact Hm1]. now rewrite (Hline1 i h' ed Hh' Hed). }
  destruct (for_of_strips (view_editor v1) (headings_of v) Hmark1 [])
    as (eds2 & Hrun2 & Hons2 & Hstrips).
  cbn [app] in Hrun2.
  assert (He2 : view_editor v2 = transaction (view_editor v1) (concat eds2)).
  { subst v2. unfold after at 1. unfold removeHeadingNumbering. cbn [view_editor].
    rewrite Hhs1, Hrun2. apply dispatch_transaction_of. }
  apply list_elem_of_In, list_elem_of_lookup_1 in Hin as [i Hh].
  destruct (Forall2_lookup_l _ _ _ _ _ Hnums Hh) as (ed & Hed & Hnum).
  destruct (Hnum l m Hl Hm) as (l1 & Hl1 & Hm1 & Hb1 & _).
  rewrite <- (Hline1 i h ed Hh Hed) in Hl1.
  destruct (Forall2_lookup_l _ _ _ _ _ Hstrips Hh) as (ed2 & Hed2 & Hstrip).
  assert (Hfinal : getLine (view_editor v2) (position_start_line h)
                   = Some (m ++ js " " ++ headingBodyText l)).
  { rewrite He2, (getLine_concat_edits (headings_of v) eds2 Hons2 Hnd _ i h ed2 Hh Hed2).
    rewrite (Hstrip l1 m Hl1 Hm1). now rewrite (Hb1 Hex Hbody). }
  split; [exact Hfinal|].
  intros Hcanon. rewrite Hfinal. f_equal.
  transitivity (headingPrefixText l ++ headingBodyText l);
    [now rewrite Hcanon, <- app_assoc | symmetry; apply heading_line_parts].
Qed.

(* ================================================================== *)
(** * The scanners, the operations and the codec in general *)
(* ================================================================== *)

(** ** Saving the directive into the front matter *)

Lemma findLineLoop_spec (e : Editor) (search : jsstring) :
  forall (n i : nat), (i + n <= lastLine e)%nat ->
    match findLineLoop e search i n with
    | Some r =>
        (i <= r < i + n)%nat
        /\ (exists l, getLine e r = Some l /\ startsWith l search = true)
        /\ forall j l, (i <= j < r)%nat -> getLine e j = Some l ->
                       startsWith l search = false
    | None =>
        forall j l, (i <= j < i + n)%nat -> getLine e j = Some l ->
                    startsWith l search = false
    end.
Proof.
  induction n as [|n IH]; intros i Hi; cbn [findLineLoop].
  - intros j l Hj; lia.
  - destruct (getLine e i) as [l0|] eqn:E.
    + destruct (startsWith l0 search) eqn:Es.
      * split; [lia|]. split; [eauto|]. intros j l Hj; lia.
      * specialize (IH (S i) ltac:(lia)).
        destruct (findLineLoop e search (S i) n) as [r|].
        -- destruct IH as (Hr & Hl & Hb). split; [lia|]. split; [exact Hl|].
           intros j l Hj Hg. destruct (decide (j = i)) as [->|]; [congruence|].
           apply (Hb j l); [lia|done].
        -- intros j l Hj Hg. destruct (decide (j = i)) as [->|]; [congruence|].
           apply (IH j l); [lia|done].
    + exfalso. unfold getLine in E. apply lookup_ge_None in E.
      unfold lastLine in Hi. lia.
Qed.

(** X1.  [findLineWhichStartsWith] returns the first line from
    [afterLine] on, and before the last line of the document, that starts
    with [search]; it returns nothing exactly when no such line does.
    The last line of the document is never looked at. *)
Theorem findLineWhichStartsWith_first_match (e : Editor) (search : jsstring)
    (afterLine : nat) :
  match findLineWhichStartsWith e search afterLine with
  | Some r =>
      (afterLine <= r < lastLine e)%nat
      /\ (exists l, getLine e r = Some l /\ startsWith l search = true)
      /\ forall j l, (afterLine <= j < r)%nat -> getLine e j = Some l ->
                     startsWith l search = false
  | None =>
      forall j l, (afterLine <= j < lastLine e)%nat -> getLine e j = Some l ->
                  startsWith l search = false
  end.
Proof.
  unfold findLineWhichStartsWith.
  destruct (decide (afterLine <= lastLine e)%nat) as [Hle|Hgt].
  - pose proof (findLineLoop_spec e search (lastLine e - afterLine) afterLine
                  ltac:(lia)) as H.
    destruct (findLineLoop e search afterLine (lastLine e - afterLine)) as [r|].
    + destruct H as (Hr & Hl & Hb). split; [lia|]. split; assumption.
    + intros j l Hj. apply H. lia.
  - replace (lastLine e - afterLine)%nat with 0%nat by lia. cbn [findLineLoop].
    intros j l Hj. lia.
Qed.

Lemma findLineWhichStartsWith_lt (e : Editor) (search : jsstring) (afterLine k : nat) :
  findLineWhichStartsWith e search afterLine = Some k -> (k < lastLine e)%nat.
Proof.
  unfold findLineWhichStartsWith. intros H.
  destruct (decide (afterLine <= lastLine e)%nat) as [Hle|Hgt].
  - pose proof (findLineLoop_spec e search (lastLine e - afterLine) afterLine
                  ltac:(lia)) as Hs.
    rewrite H in Hs. lia.
  - replace (lastLine e - afterLine)%nat with 0%nat in H by lia. discriminate.
Qed.

Lemma split_lines_app_break (a b : jsstring) :
  noLineBreak a -> split_lines (a ++ line_break :: b) = a :: split_lines b.
Proof.
  induction 1 as [|c a [H10 H13] _ IH]; [reflexivity|].
  cbn [app split_lines]. rewrite IH.
  apply N.eqb_neq in H10, H13. now rewrite H10, H13.
Qed.

Lemma noLineBreak_js_dashes : noLineBreak (js "---").
Proof. repeat constructor; discriminate. Qed.

Lemma noLineBreak_directive_line (v : jsstring) :
  noLineBreak v -> noLineBreak (js "number headings: " ++ v).
Proof.
  intros Hv. apply noLineBreak_app; [|exact Hv].
  repeat constructor; discriminate.
Qed.

Lemma split_lines_frontMatterAdditions (v : jsstring) :
  noLineBreak v ->
  split_lines (frontMatterAdditions v) = [js "number headings: " ++ v; []].
Proof.
  intros Hv. unfold frontMatterAdditions. rewrite app_assoc.
  change [line_break] with (line_break :: []).
  now rewrite split_lines_app_break by now apply noLineBreak_directive_line.
Qed.

Lemma split_lines_newFrontMatter (v : jsstring) :
  noLineBreak v ->
  split_lines (newFrontMatter v)
  = [js "---"; js "number headings: " ++ v; js "---"; []; []].
Proof.
  intros Hv. unfold newFrontMatter.
  change (js "---" ++ [line_break] ++ js "number headings: " ++ v ++ [line_break]
            ++ js "---" ++ [line_break; line_break])
    with (js "---" ++ line_break :: (js "number headings: " ++ v ++ [line_break]
            ++ js "---" ++ [line_break; line_break])).
  rewrite split_lines_app_break by apply noLineBreak_js_dashes.
  replace (js "number headings: " ++ v ++ [line_break] ++ js "---"
             ++ [line_break; line_break])
    with ((js "number headings: " ++ v) ++ line_break :: (js "---"
             ++ line_break :: [line_break])) by now rewrite <- app_assoc.
  rewrite split_lines_app_break by now apply noLineBreak_directive_line.
  rewrite split_lines_app_break by apply noLineBreak_js_dashes.
  reflexivity.
Qed.

(** Whole lines put in before the line [n]: what [replaceRange] leaves
    when [from] and [to] are the start of the line [n] and the text ends
    with a line break. *)
Lemma replaceRange_lines_before (e : Editor) (n : nat) (text : jsstring)
    (ps : list jsstring) :
  (n < length (doc_lines e))%nat ->
  split_lines text = ps ++ [[]] ->
  doc_lines (editor_replaceRange e text {| line := n; ch := 0 |} {| line := n; ch := 0 |})
  = take n (doc_lines e) ++ ps ++ drop n (doc_lines e).
Proof.
  intros Hn Hps. unfold editor_replaceRange, replaceRange, getLine.
  cbn [change_from change_to change_text line ch].
  destruct (lookup_lt_is_Some_2 _ _ Hn) as [l Hl]. rewrite Hl.
  cbn [doc_lines]. rewrite Hps, append_to_last_snoc.
  rewrite take_0, drop_0, app_nil_l.
  rewrite (drop_S _ _ _ Hl). f_equal.
  destruct ps as [|p ps]; cbn [prepend_to_first app]; rewrite <- ?app_assoc; reflexivity.
Qed.

(** The line [n] replaced by whole lines: what [replaceRange] leaves when
    [from] is the start of the line [n], [to] the start of the next line
    and the text ends with a line break. *)
Lemma replaceRange_line (e : Editor) (n : nat) (text : jsstring) (ps : list jsstring) :
  (n + 1 < length (doc_lines e))%nat ->
  split_lines text = ps ++ [[]] ->
  doc_lines (editor_replaceRange e text {| line := n; ch := 0 |}
               {| line := n + 1; ch := 0 |})
  = take n (doc_lines e) ++ ps ++ drop (n + 1) (doc_lines e).
Proof.
  intros Hn Hps. unfold editor_replaceRange, replaceRange, getLine.
  cbn [change_from change_to change_text line ch].
  destruct (lookup_lt_is_Some_2 (doc_lines e) n ltac:(lia)) as [l Hl]. rewrite Hl.
  destruct (lookup_lt_is_Some_2 _ _ Hn) as [l' Hl']. rewrite Hl'.
  cbn [doc_lines]. rewrite Hps, append_to_last_snoc.
  rewrite take_0, drop_0, app_nil_l.
  rewrite (drop_S _ _ _ Hl'). f_equal.
  destruct ps as [|p ps]; cbn [prepend_to_first app]; rewrite <- ?app_assoc; reflexivity.
Qed.

(** X2.  With front matter that has the key, [saveSettingsToFrontMatter]
    rewrites the first line at or after the start of the front matter that
    begins with the key, and nothing else: the document keeps its other
    lines and its length.  When no line before the last begins with the
    key, it throws. *)
Theorem saveSettingsToFrontMatter_replaces_the_key_line (fm : FrontMatterCache)
    (e : Editor) (settings : NumberHeadingsPluginSettings) :
  is_Some (fm_entries fm !! js "number headings") ->
  noLineBreak (settingsToCompactFrontMatterValue settings) ->
  match findLineWhichStartsWith e (js "number headings") (fm_position_start_line fm) with
  | Some keyLine =>
      saveSettingsToFrontMatter (Some fm) e settings
      = Normal {| doc_lines :=
                    <[keyLine := js "number headings: "
                                   ++ settingsToCompactFrontMatterValue settings]>
                      (doc_lines e) |}
  | None => saveSettingsToFrontMatter (Some fm) e settings = Throw keyNotFoundMessage
  end.
Proof.
  intros [old Hold] Hv. cbn [saveSettingsToFrontMatter]. cbv zeta. rewrite Hold.
  destruct (findLineWhichStartsWith e (js "number headings")
              (fm_position_start_line fm)) as [k|] eqn:Hfind; [|reflexivity].
  apply findLineWhichStartsWith_lt in Hfind. unfold lastLine in Hfind. f_equal.
  set (v := settingsToCompactFrontMatterValue settings) in *.
  pose proof (replaceRange_line e k (frontMatterAdditions v)
                [js "number headings: " ++ v] ltac:(lia)
                (split_lines_frontMatterAdditions v Hv)) as H.
  destruct (editor_replaceRange e (frontMatterAdditions v) _ _) as [ls'].
  cbn [doc_lines] in H. rewrite H. f_equal.
  rewrite insert_take_drop by lia. now rewrite Nat.add_1_r.
Qed.

Lemma saveSettingsToFrontMatter_replaces_the_key_line_witness :
  saveSettingsToFrontMatter
    (Some {| fm_entries := {[ js "number headings" := js "auto, 1.1." ]};
             fm_position_start_line := 0 |})
    {| doc_lines := [js "---"; js "title: x"; js "number headings: auto, 1.1.";
                     js "---"; js "# A"] |}
    overviewSettings
  = Normal {| doc_lines :=
                [js "---"; js "title: x";
                 js "number headings: auto, first-level 2, max 4, contents Overview, 1.A.";
                 js "---"; js "# A"] |}.
Proof.
  refine (saveSettingsToFrontMatter_replaces_the_key_line
            {| fm_entries := {[ js "number headings" := js "auto, 1.1." ]};
               fm_position_start_line := 0 |}
            {| doc_lines := [js "---"; js "title: x"; js "number headings: auto, 1.1.";
                             js "---"; js "# A"] |}
            overviewSettings _ _).
  - eexists. cbn [fm_entries]. apply lookup_singleton_eq.
  - apply (bool_decide_unpack _). vm_compute. exact I.
Defined.

(** X3.  With front matter that lacks the key, [saveSettingsToFrontMatter]
    puts the directive on a line of its own right after the line the
    front matter starts on; every line of the document stays. *)
Theorem saveSettingsToFrontMatter_inserts_the_key_line (fm : FrontMatterCache)
    (e : Editor) (settings : NumberHeadingsPluginSettings) :
  fm_entries fm !! js "number headings" = None ->
  (fm_position_start_line fm + 1 < length (doc_lines e))%nat ->
  noLineBreak (settingsToCompactFrontMatterValue settings) ->
  saveSettingsToFrontMatter (Some fm) e settings
  = Normal {| doc_lines :=
                take (fm_position_start_line fm + 1) (doc_lines e)
                ++ [js "number headings: " ++ settingsToCompactFrontMatterValue settings]
                ++ drop (fm_position_start_line fm + 1) (doc_lines e) |}.
Proof.
  intros Hkey Hlen Hv. cbn [saveSettingsToFrontMatter]. cbv zeta. rewrite Hkey. f_equal.
  set (v := settingsToCompactFrontMatterValue settings) in *.
  pose proof (replaceRange_lines_before e (fm_position_start_line fm + 1)
                (frontMatterAdditions v) [js "number headings: " ++ v] Hlen
                (split_lines_frontMatterAdditions v Hv)) as H.
  destruct (editor_replaceRange e (frontMatterAdditions v) _ _) as [ls'].
  cbn [doc_lines] in H. now rewrite H.
Qed.

Lemma saveSettingsToFrontMatter_inserts_the_key_line_witness :
  saveSettingsToFrontMatter
    (Some {| fm_entries := {[ js "title" := js "x" ]}; fm_position_start_line := 0 |})
    {| doc_lines := [js "---"; js "title: x"; js "---"; js "# A"] |}
    overviewSettings
  = Normal {| doc_lines :=
                [js "---";
                 js "number headings: auto, first-level 2, max 4, contents Overview, 1.A.";
                 js "title: x"; js "---"; js "# A"] |}.
Proof.
  refine (saveSettingsToFrontMatter_inserts_the_key_line
            {| fm_entries := {[ js "title" := js "x" ]}; fm_position_start_line := 0 |}
            {| doc_lines := [js "---"; js "title: x"; js "---"; js "# A"] |}
            overviewSettings _ _ _).
  - cbn [fm_entries]. apply lookup_singleton_ne. discriminate.
  - cbn. lia.
  - apply (bool_decide_unpack _). vm_compute. exact I.
Defined.

Lemma saveSettingsToFrontMatter_new (e : Editor) (settings : NumberHeadingsPluginSettings) :
  doc_lines e <> [] ->
  noLineBreak (settingsToCompactFrontMatterValue settings) ->
  saveSettingsToFrontMatter None e settings
  = Normal {| doc_lines :=
                [js "---";
                 js "number headings: " ++ settingsToCompactFrontMatterValue settings;
                 js "---"; []] ++ doc_lines e |}.
Proof.
  intros He Hv. cbn [saveSettingsToFrontMatter]. cbv zeta. f_equal.
  set (v := settingsToCompactFrontMatterValue settings) in *.
  pose proof (replaceRange_lines_before e 0 (newFrontMatter v)
                [js "---"; js "number headings: " ++ v; js "---"; []]) as H.
  destruct e as [ls]. cbn [doc_lines] in *.
  destruct (editor_replaceRange {| doc_lines := ls |} (newFrontMatter v) _ _) as [ls'].
  cbn [doc_lines] in H. rewrite H.
  - now rewrite take_0, drop_0.
  - destruct ls; [done|cbn; lia].
  - now rewrite split_lines_newFrontMatter.
Qed.

Lemma startsWith_app (p s : jsstring) : startsWith (p ++ s) p = true.
Proof. induction p as [|c p IH]; [now destruct s|]. cbn. now rewrite N.eqb_refl. Qed.

Lemma findLine_after_new (v : jsstring) (ls : list jsstring) :
  ls <> [] ->
  findLineWhichStartsWith
    {| doc_lines := [js "---"; js "number headings: " ++ v; js "---"; []] ++ ls |}
    (js "number headings") 0 = Some 1%nat.
Proof.
  intros Hls. unfold findLineWhichStartsWith, lastLine. cbn [doc_lines].
  destruct ls as [|l ls]; [done|]. cbn [app length Nat.sub].
  cbn [findLineLoop getLine doc_lines lookup list_lookup].
  change (startsWith (js "---") (js "number headings")) with false. cbv iota.
  change (js "number headings: " ++ v) with (js "number headings" ++ (js ": " ++ v)).
  now rewrite startsWith_app.
Qed.

(** X4.  On a note without front matter [saveSettingsToFrontMatter] puts
    four lines before the document: the opening fence, the directive, the
    closing fence and an empty line.  A later save, with the front matter
    the note then has (it starts on line 0 and has the key), rewrites the
    directive line only: the note is the one a first save of the later
    settings gives. *)
Theorem saveSettingsToFrontMatter_creates_then_rewrites (e : Editor)
    (s1 s2 : NumberHeadingsPluginSettings) (fm : FrontMatterCache) :
  doc_lines e <> [] ->
  noLineBreak (settingsToCompactFrontMatterValue s1) ->
  noLineBreak (settingsToCompactFrontMatterValue s2) ->
  fm_position_start_line fm = 0%nat ->
  is_Some (fm_entries fm !! js "number headings") ->
  let e1 := {| doc_lines :=
                 [js "---"; js "number headings: " ++ settingsToCompactFrontMatterValue s1;
                  js "---"; []] ++ doc_lines e |} in
  saveSettingsToFrontMatter None e s1 = Normal e1
  /\ saveSettingsToFrontMatter (Some fm) e1 s2 = saveSettingsToFrontMatter None e s2.
Proof.
  intros He Hv1 Hv2 Hstart [old Hold] e1. split.
  - now apply saveSettingsToFrontMatter_new.
  - rewrite (saveSettingsToFrontMatter_new e s2 He Hv2).
    cbn [saveSettingsToFrontMatter]. cbv zeta. rewrite Hold, Hstart.
    unfold e1 at 1. rewrite findLine_after_new by exact He. f_equal.
    set (v := settingsToCompactFrontMatterValue s2) in *.
    pose proof (replaceRange_line e1 1 (frontMatterAdditions v)
                  [js "number headings: " ++ v]) as H.
    destruct (editor_replaceRange e1 (frontMatterAdditions v) _ _) as [ls'].
    cbn [doc_lines] in H. rewrite H.
    + reflexivity.
    + unfold e1. cbn [doc_lines app length]. destruct (doc_lines e); [done|cbn; lia].
    + now apply split_lines_frontMatterAdditions.
Qed.

Lemma saveSettingsToFrontMatter_creates_then_rewrites_witness :
  saveSettingsToFrontMatter None {| doc_lines := [js "# A"] |} overviewSettings
  = Normal {| doc_lines :=
                [js "---";
                 js "number headings: auto, first-level 2, max 4, contents Overview, 1.A.";
                 js "---"; []; js "# A"] |}
  /\ saveSettingsToFrontMatter
       (Some {| fm_entries := {[ js "number headings" := js "auto" ]};
                fm_position_start_line := 0 |})
       {| doc_lines :=
            [js "---";
             js "number headings: auto, first-level 2, max 4, contents Overview, 1.A.";
             js "---"; []; js "# A"] |}
       specDefaultSettings
     = saveSettingsToFrontMatter None {| doc_lines := [js "# A"] |} specDefaultSettings.
Proof.
  refine (saveSettingsToFrontMatter_creates_then_rewrites
            {| doc_lines := [js "# A"] |} overviewSettings specDefaultSettings
            {| fm_entries := {[ js "number headings" := js "auto" ]};
               fm_position_start_line := 0 |} _ _ _ _ _).
  - discriminate.
  - apply (bool_decide_unpack _). vm_compute. exact I.
  - apply (bool_decide_unpack _). vm_compute. exact I.
  - reflexivity.
  - eexists. cbn [fm_entries]. apply lookup_singleton_eq.
Defined.

(** ** What the two scanners find on a line *)

Lemma matches_upto_chr_length (p : N -> bool) (n : nat) (x : jsstring) :
  matches (UpTo n (Chr p)) x -> (length x <= n)%nat.
Proof.
  revert x. induction n as [|n IH]; intros x H; cbn [UpTo] in H.
  - inversion H. cbn. lia.
  - unfold Opt in H. inversion H as [| | |? ? ? Hs|? ? ? He| |]; subst.
    + inversion Hs as [| |? ? y z Hy Hz| | | |]; subst.
      apply matches_chr_inv in Hy as (c & -> & _). apply IH in Hz. cbn. lia.
    + inversion He. cbn. lia.
Qed.

Lemma rmatch_upto_chr_greedy (p : N -> bool) (n : nat) (w s : jsstring) k (r : jsstring) :
  Forall (fun c => p c = true) w -> (length w <= n)%nat ->
  head_is p s = false -> k s = Some r ->
  rmatch (UpTo n (Chr p)) (w ++ s) k = Some r.
Proof.
  intros Hw. revert n. induction Hw as [|c w Hc _ IH]; intros n Hn Hs Hk.
  - cbn [app]. now rewrite rmatch_upto_chr_stop.
  - destruct n as [|n]; [cbn in Hn; lia|].
    cbn [UpTo]. rewrite rmatch_opt, rmatch_seq. cbn [app].
    rewrite rmatch_chr_cons by exact Hc.
    rewrite IH; [reflexivity| cbn in Hn; lia | exact Hs | exact Hk].
Qed.

(** A text is a run of characters of a class, then a text that does not
    begin with one. *)
Lemma span_class (p : N -> bool) (s : jsstring) :
  exists y r, s = y ++ r /\ Forall (fun c => p c = true) y /\ head_is p r = false.
Proof.
  induction s as [|c s (y & r & -> & Hy & Hr)].
  - exists [], []. repeat split; constructor.
  - destruct (p c) eqn:Hc.
    + exists (c :: y), r. repeat split; [constructor; assumption | exact Hr].
    + exists [], (c :: y ++ r). repeat split; [constructor | exact Hc].
Qed.

Lemma hash_not_space (c : N) : is_hash c = true -> is_js_space c = false.
Proof. unfold is_hash. intros H. apply N.eqb_eq in H. now subst. Qed.

Lemma markerRun_spaces_app (w m s : jsstring) :
  Forall (fun c => is_js_space c = true) w -> (length w <= 4)%nat ->
  isMarkerRun m -> head_is is_hash s = false ->
  markerRun (w ++ m ++ s) = Some m.
Proof.
  intros Hw Hlen Hm Hs.
  pose proof (isMarkerRun_head m s Hm) as Hhead.
  pose proof (isMarkerRun_head m [] Hm) as Hhead'. rewrite app_nil_r in Hhead'.
  destruct Hm as [Hne Hall]. unfold markerRun.
  destruct (w ++ m ++ s) as [|c x] eqn:E.
  { destruct w; [destruct m|]; [done|discriminate..]. }
  rewrite <- E in *. rewrite app_assoc.
  rewrite (exec_anchored_rest headingHashRegex (w ++ m) s).
  - f_equal. now apply trimLeft_spaces_app.
  - rewrite <- app_assoc.
    change (rmatch headingHashRegex (w ++ m ++ s) Some)
      with (rmatch (UpTo 4 (Chr is_js_space)) (w ++ m ++ s)
              (fun s' => rmatch (Plus (Chr is_hash)) s' Some)).
    apply rmatch_upto_chr_greedy; [exact Hw | exact Hlen | exact Hhead |].
    now apply rmatch_plus_chr_greedy.
Qed.

Lemma markerRun_parts (l m : jsstring) :
  markerRun l = Some m ->
  exists w rest,
    l = w ++ m ++ rest /\ (length w <= 4)%nat
    /\ Forall (fun c => is_js_space c = true) w
    /\ isMarkerRun m /\ head_is is_hash rest = false.
Proof.
  unfold markerRun. destruct l as [|c0 l0]; [discriminate|].
  set (l := c0 :: l0). clearbody l. unfold exec_anchored.
  destruct (rmatch headingHashRegex l Some) as [rest|] eqn:E; [|discriminate].
  intros [= <-].
  change (rmatch headingHashRegex l Some)
    with (rmatch (UpTo 4 (Chr is_js_space)) l
            (fun s1 => rmatch (Chr is_hash) s1
               (fun s2 => rmatch (Star (Chr is_hash)) s2 Some))) in E.
  apply rmatch_sound in E as (w & s1 & -> & Hw & E). cbv beta in E.
  destruct s1 as [|c s2]; [discriminate|].
  destruct (is_hash c) eqn:Hc;
    [rewrite rmatch_chr_cons in E by exact Hc
    |rewrite rmatch_chr_fail in E by exact Hc; discriminate].
  destruct (rmatch_star_chr_rest is_hash s2) as (rest' & E' & Hrest).
  assert (rest' = rest) as -> by congruence.
  apply rmatch_sound in E as (y & s' & -> & Hy & [= ->]).
  apply matches_star_chr in Hy.
  pose proof (matches_upto_chr_length is_js_space 4 _ Hw) as Hlen.
  apply (matches_upto_chr is_js_space 4) in Hw.
  replace (length (w ++ c :: y ++ rest) - length rest)%nat
    with (length (w ++ c :: y)) by (rewrite !length_app; cbn; rewrite length_app; lia).
  replace (w ++ c :: y ++ rest) with ((w ++ c :: y) ++ rest)
    by (now rewrite <- app_assoc).
  rewrite take_app_length.
  rewrite (trimLeft_spaces_app w (c :: y) Hw) by (cbn; now apply hash_not_space).
  exists w, rest. rewrite <- app_assoc.
  repeat split; try assumption; [discriminate | now constructor].
Qed.

(** X5.  [makeHeadingHashString] returns [m] exactly when the heading's
    line is at most four white-space characters, then [m], one [#] or
    more, then a text that does not begin with [#]: the marker run it
    returns is the whole run, without the indentation. *)
Theorem makeHeadingHashString_spec (e : Editor) (h : HeadingCache) (m : jsstring) :
  makeHeadingHashString e h = Some m
  <-> exists w rest,
        getLine e (position_start_line h) = Some (w ++ m ++ rest)
        /\ (length w <= 4)%nat
        /\ Forall (fun c => is_js_space c = true) w
        /\ isMarkerRun m
        /\ head_is is_hash rest = false.
Proof.
  split.
  - intros H. destruct (getLine e (position_start_line h)) as [l|] eqn:Hl.
    + rewrite (makeHeadingHashString_line e h l Hl) in H.
      apply markerRun_parts in H as (w & rest & -> & H). now exists w, rest.
    + unfold makeHeadingHashString in H. rewrite Hl in H. discriminate.
  - intros (w & rest & Hl & Hlen & Hw & Hm & Hrest).
    rewrite (makeHeadingHashString_line e h _ Hl).
    now apply markerRun_spaces_app.
Qed.

Lemma prefix_match_has_marker (l m : jsstring) :
  exec_anchored headingPrefixRegex l = Some m -> is_Some (markerRun l).
Proof.
  intros E. apply exec_anchored_sound in E as (Hm & rest & -> & _).
  unfold headingPrefixRegex in Hm.
  inversion Hm as [| |? ? w x Hw Hx| | | |]; subst.
  inversion Hx as [| |? ? hs z Hhs Hz| | | |]; subst.
  unfold Plus in Hhs. inversion Hhs as [| |? ? c1 y Hc Hy| | | |]; subst.
  apply matches_chr_inv in Hc as (c & -> & Hc).
  pose proof (matches_upto_chr_length is_js_space 4 _ Hw) as Hlen.
  apply (matches_upto_chr is_js_space 4) in Hw.
  destruct (span_class is_hash ((y ++ z) ++ rest)) as (y' & r & Hy' & Hall & Hr).
  replace ((w ++ ([c] ++ y) ++ z) ++ rest) with (w ++ (c :: y') ++ r).
  - rewrite markerRun_spaces_app; [eauto | assumption.. | | assumption].
    split; [discriminate | now constructor].
  - cbn [app]. rewrite <- !app_assoc. cbn [app]. do 2 f_equal.
    rewrite <- Hy'. now rewrite <- app_assoc.
Qed.

(** X6.  [getHeadingPrefixRange] returns nothing only when the heading's
    line is absent or empty.  Otherwise the range starts at column 0 of
    the line, lies within it and holds what the full-prefix pattern
    matches there; when that is not empty the marker-only scan succeeds
    on the line, and the text after the range does not begin with a
    space. *)
Theorem getHeadingPrefixRange_spec (e : Editor) (h : HeadingCache) :
  match getHeadingPrefixRange e h with
  | Some r =>
      exists l,
        getLine e (position_start_line h) = Some l /\ l <> []
        /\ range_from r = {| line := position_start_line h; ch := 0 |}
        /\ range_to r = {| line := position_start_line h;
                           ch := length (headingPrefixText l) |}
        /\ (length (headingPrefixText l) <= length l)%nat
        /\ getRange e (range_from r) (range_to r) = headingPrefixText l
        /\ (headingPrefixText l <> [] ->
            is_Some (makeHeadingHashString e h)
            /\ head_is is_blank (headingBodyText l) = false)
  | None =>
      getLine e (position_start_line h) = None
      \/ getLine e (position_start_line h) = Some []
  end.
Proof.
  destruct (getLine e (position_start_line h)) as [[|c l0]|] eqn:Hl.
  - unfold getHeadingPrefixRange. rewrite Hl. cbn. now right.
  - rewrite (getHeadingPrefixRange_line e h _ Hl) by discriminate.
    set (l := c :: l0) in *. exists l. cbn [range_from range_to].
    split; [reflexivity|]. split; [discriminate|].
    split; [reflexivity|]. split; [reflexivity|].
    split.
    { rewrite (heading_line_parts l) at 2. rewrite length_app. lia. }
    split.
    { rewrite (getRange_prefix e _ _ l Hl). apply take_headingPrefixText. }
    intros Hne. rewrite (makeHeadingHashString_line e h l Hl).
    unfold headingBodyText, headingPrefixText in *.
    destruct (exec_anchored headingPrefixRegex l) as [m|] eqn:E; [|done].
    split; [now apply (prefix_match_has_marker l m)|].
    destruct (headingPrefix_rest l m E) as (body & -> & Hbody).
    now rewrite drop_app_length.
  - unfold getHeadingPrefixRange. rewrite Hl. cbn. now left.
Qed.

Lemma makeNumberingString_head (stack : list NumberingToken) (s : jsstring) :
  stack <> [] -> head_is is_hash (makeNumberingString stack ++ s) = false.
Proof. destruct stack as [|t stack]; [done|]. intros _. reflexivity. Qed.

(** X7.  The heading line the numbering writes (marker run, numbering
    string of tokens that are integers from 0 to 2^53 or uppercase
    letters, separator, one space, then a body that does not begin with a
    space) is read back by both scanners: the marker run is the one
    written, and the prefix range covers exactly the prefix written. *)
Theorem scanners_read_back_the_numbered_line (e : Editor) (h : HeadingCache)
    (m : jsstring) (stack : list NumberingToken) (sep body : jsstring) :
  isMarkerRun m -> stack <> [] ->
  Forall (fun t => isPatternToken t = true) stack ->
  isPatternSeparator sep = true ->
  head_is is_blank body = false ->
  getLine e (position_start_line h)
  = Some (m ++ makeNumberingString stack ++ sep ++ js " " ++ body) ->
  makeHeadingHashString e h = Some m
  /\ getHeadingPrefixRange e h
     = Some {| range_from := {| line := position_start_line h; ch := 0 |};
               range_to := {| line := position_start_line h;
                              ch := length (m ++ makeNumberingString stack
                                              ++ sep ++ js " ") |} |}
  /\ getRange e {| line := position_start_line h; ch := 0 |}
       {| line := position_start_line h;
          ch := length (m ++ makeNumberingString stack ++ sep ++ js " ") |}
     = m ++ makeNumberingString stack ++ sep ++ js " ".
Proof.
  intros Hm Hne Htok Hsep Hbody Hl.
  pose proof (headingPrefix_numbered m stack sep body Hm Hne Htok Hsep Hbody) as Hp.
  split; [|split].
  - rewrite (makeHeadingHashString_line e h _ Hl).
    apply markerRun_app; [exact Hm | now apply makeNumberingString_head].
  - rewrite (getHeadingPrefixRange_line e h _ Hl).
    + now rewrite Hp.
    + destruct Hm as [Hm _]. now destruct m.
  - rewrite (getRange_prefix e _ _ _ Hl). rewrite <- Hp at 1.
    rewrite take_headingPrefixText. exact Hp.
Qed.

Lemma scanners_read_back_the_numbered_line_witness :
  makeHeadingHashString {| doc_lines := [js "## 1.A.3. Setup"] |}
    (mkHeading 2 0 (js "1.A.3. Setup")) = Some (js "##")
  /\ getHeadingPrefixRange {| doc_lines := [js "## 1.A.3. Setup"] |}
       (mkHeading 2 0 (js "1.A.3. Setup"))
     = Some {| range_from := {| line := 0; ch := 0 |};
               range_to := {| line := 0; ch := 10 |} |}
  /\ getRange {| doc_lines := [js "## 1.A.3. Setup"] |} {| line := 0; ch := 0 |}
       {| line := 0; ch := 10 |}
     = js "## 1.A.3. ".
Proof.
  refine (scanners_read_back_the_numbered_line
            {| doc_lines := [js "## 1.A.3. Setup"] |} (mkHeading 2 0 (js "1.A.3. Setup"))
            (js "##") [TNumber 1; TString (js "A"); TNumber 3] (js ".") (js "Setup")
            _ _ _ _ _ _).
  - split; [discriminate | repeat constructor].
  - discriminate.
  - repeat constructor.
  - reflexivity.
  - reflexivity.
  - reflexivity.
Defined.

(** ** What the three operations put into a transaction *)

Lemma for_of_invariant {S A : Type} (body : S -> A -> Outcome S) (I : S -> Prop) :
  (forall st x, I st -> I (outcome_state (body st x))) ->
  forall (l : list A) (st : S), I st -> I (outcome_state (for_of body st l)).
Proof.
  intros Hstep. induction l as [|x l IH]; intros st Hst; [exact Hst|].
  cbn [for_of]. pose proof (Hstep st x Hst) as Hx.
  destruct (body st x) as [st'|st']; [now apply IH | exact Hx].
Qed.

Lemma replaceRangeSafely_changed (e : Editor) (cs : list EditorChange)
    (range : EditorRange) (text : jsstring) :
  Forall (fun c => getRange e (change_from c) (change_to c) <> change_text c) cs ->
  Forall (fun c => getRange e (change_from c) (change_to c) <> change_text c)
    (replaceRangeSafely e cs range text).
Proof.
  intros Hcs. unfold replaceRangeSafely, str_eqb.
  case_bool_decide as Heq; cbn [negb]; [exact Hcs|].
  apply Forall_app. split; [exact Hcs|]. now repeat constructor.
Qed.

Lemma numberingStep_changed (settings : NumberHeadingsPluginSettings) (e : Editor)
    (st : NumberingState) (h : HeadingCache) :
  Forall (fun c => getRange e (change_from c) (change_to c) <> change_text c)
    (changes st) ->
  Forall (fun c => getRange e (change_from c) (change_to c) <> change_text c)
    (changes (outcome_state (numberingStep settings e st h))).
Proof.
  intros Hst. unfold numberingStep.
  destruct (isExcluded settings (level h)).
  - destruct (getHeadingPrefixRange e h) as [r|]; [|exact Hst].
    destruct (makeHeadingHashString e h) as [m|]; [|exact Hst].
    cbn [outcome_state changes]. now apply replaceRangeSafely_changed.
  - cbv zeta. destruct (level h >? maxLevel settings)%Z; [exact Hst|].
    destruct (getHeadingPrefixRange e h) as [r|]; [|exact Hst].
    destruct (makeHeadingHashString e h) as [m|]; [|exact Hst].
    cbn [outcome_state changes]. now apply replaceRangeSafely_changed.
Qed.

Lemma removalStep_changed (e : Editor) (cs : list EditorChange) (h : HeadingCache) :
  Forall (fun c => getRange e (change_from c) (change_to c) <> change_text c) cs ->
  Forall (fun c => getRange e (change_from c) (change_to c) <> change_text c)
    (outcome_state (removalStep e cs h)).
Proof.
  intros Hcs. unfold removalStep.
  destruct (getHeadingPrefixRange e h) as [r|]; [|exact Hcs].
  destruct (makeHeadingHashString e h) as [m|]; [|exact Hcs].
  cbn [outcome_state]. now apply replaceRangeSafely_changed.
Qed.

Lemma transaction_of_Some (cs cs' : list EditorChange) :
  transaction_of cs = Some cs' -> cs' = cs /\ cs <> [].
Proof. destruct cs; [discriminate|]. intros [= <-]. split; [reflexivity | discriminate]. Qed.

(** X8.  No operation dispatches an empty transaction, and no change of a
    transaction is without effect: the text of each differs from the text
    of the document in the range it replaces.  The transaction of
    [updateTableOfContents] is one change. *)
Theorem transactions_hold_real_changes_only (doesContentsHaveValue : jsstring -> bool)
    (settings : NumberHeadingsPluginSettings) (v : ViewInfo) :
  let changed := fun c : EditorChange =>
    getRange (view_editor v) (change_from c) (change_to c) <> change_text c in
  (forall cs, updateHeadingNumbering (Some v) settings = Some cs ->
              cs <> [] /\ Forall changed cs)
  /\ (forall cs, removeHeadingNumbering (Some v) = Some cs ->
                 cs <> [] /\ Forall changed cs)
  /\ (forall cs, updateTableOfContents doesContentsHaveValue (Some v) settings = Some cs ->
                 exists c, cs = [c] /\ changed c).
Proof.
  intros changed. split; [|split]; intros cs H.
  - cbn [updateHeadingNumbering] in H.
    pose proof (for_of_invariant (numberingStep settings (view_editor v))
                  (fun st => Forall changed (changes st))
                  (fun st x => numberingStep_changed settings (view_editor v) st x)
                  (headings_of v) (initialNumberingState settings)
                  ltac:(constructor)) as Hinv.
    destruct (for_of _ _ _) as [st|st]; [|discriminate].
    apply transaction_of_Some in H as [-> Hne]. split; [exact Hne | exact Hinv].
  - cbn [removeHeadingNumbering] in H.
    pose proof (for_of_invariant (removalStep (view_editor v))
                  (fun cs => Forall changed cs)
                  (fun cs x => removalStep_changed (view_editor v) cs x)
                  (headings_of v) [] ltac:(constructor)) as Hinv.
    destruct (for_of _ _ _) as [cs0|cs0]; [|discriminate].
    apply transaction_of_Some in H as [-> Hne]. split; [exact Hne | exact Hinv].
  - cbn [updateTableOfContents] in H.
    destruct (negb (doesContentsHaveValue (contents settings))); [discriminate|].
    destruct (foldl (tocStep settings) (None, [line_break]) (headings_of v))
      as [[t|] built]; [|discriminate].
    cbv zeta in H. apply transaction_of_Some in H as [-> Hne].
    unfold replaceRangeSafely, str_eqb in *.
    case_bool_decide as Heq; cbn [negb] in *; [done|].
    eexists. split; [reflexivity|]. exact Heq.
Qed.

(** *** Edits stay on the lines of the headings *)

Lemma length_replaceRange_prefix (e : Editor) (c : EditorChange) :
  isPrefixEdit c -> length (doc_lines (replaceRange e c)) = length (doc_lines e).
Proof.
  intros (Hline & Hch & Hnb). unfold replaceRange, getLine. rewrite Hline.
  destruct (doc_lines e !! line (change_from c)) as [l|] eqn:Hl; [|reflexivity].
  cbn [doc_lines]. rewrite (split_lines_single _ Hnb). cbn [append_to_last prepend_to_first].
  pose proof (lookup_lt_Some _ _ _ Hl) as Hlt.
  rewrite !length_app, length_take, length_drop. cbn [length]. lia.
Qed.

Lemma length_transaction_prefix (cs : list EditorChange) :
  Forall isPrefixEdit cs ->
  forall e : Editor, length (doc_lines (transaction e cs)) = length (doc_lines e).
Proof.
  induction 1 as [|c cs Hc _ IH]; intros e; [reflexivity|].
  unfold transaction. cbn [foldl]. fold (transaction (replaceRange e c) cs).
  now rewrite IH, length_replaceRange_prefix.
Qed.

(** The edit either scan-and-replace adds for the heading [h]. *)
Lemma scan_and_replace_edits (e : Editor) (cs : list EditorChange) (h : HeadingCache)
    (r : EditorRange) (m tail : jsstring) :
  getHeadingPrefixRange e h = Some r ->
  makeHeadingHashString e h = Some m ->
  noLineBreak tail ->
  exists ed,
    replaceRangeSafely e cs r (m ++ tail) = cs ++ ed
    /\ editsOn (position_start_line h) ed.
Proof.
  intros Hr Hm Htail.
  destruct (getLine e (position_start_line h)) as [l|] eqn:Hl.
  - destruct l as [|c0 l0].
    { unfold getHeadingPrefixRange in Hr. rewrite Hl in Hr. discriminate. }
    rewrite (getHeadingPrefixRange_line e h _ Hl) in Hr by discriminate.
    injection Hr as <-. rewrite (makeHeadingHashString_line e h _ Hl) in Hm.
    rewrite (replaceRangeSafely_prefix e cs _ _ _ Hl). eexists. split; [reflexivity|].
    apply prefixEdit_shape, noLineBreak_app; [|exact Htail].
    apply isMarkerRun_noLineBreak. now apply (markerRun_isMarkerRun (c0 :: l0)).
  - unfold getHeadingPrefixRange in Hr. rewrite Hl in Hr. discriminate.
Qed.

Lemma noLineBreak_blank : noLineBreak (js " ").
Proof. repeat constructor; discriminate. Qed.

Lemma numberingStep_edits (settings : NumberHeadingsPluginSettings) (e : Editor)
    (st : NumberingState) (h : HeadingCache) :
  noLineBreak (separator settings) ->
  Forall (fun t => isPatternToken t = true) (numberingStack st) ->
  exists ed,
    changes (outcome_state (numberingStep settings e st h)) = changes st ++ ed
    /\ editsOn (position_start_line h) ed.
Proof.
  intros Hsep Htok. unfold numberingStep.
  assert (exists ed : list EditorChange,
             changes st = changes st ++ ed /\ editsOn (position_start_line h) ed) as Hnone
    by (exists []; split; [now rewrite app_nil_r | constructor]).
  destruct (isExcluded settings (level h)).
  - destruct (getHeadingPrefixRange e h) as [r|] eqn:Hr; [|exact Hnone].
    destruct (makeHeadingHashString e h) as [m|] eqn:Hm; [|exact Hnone].
    cbn [outcome_state changes].
    apply (scan_and_replace_edits e _ h r m (js " ") Hr Hm noLineBreak_blank).
  - cbv zeta. destruct (level h >? maxLevel settings)%Z; [exact Hnone|].
    destruct (getHeadingPrefixRange e h) as [r|] eqn:Hr; [|exact Hnone].
    destruct (makeHeadingHashString e h) as [m|] eqn:Hm; [|exact Hnone].
    cbn [outcome_state changes].
    apply (scan_and_replace_edits e _ h r m _ Hr Hm).
    apply noLineBreak_app; [|apply noLineBreak_app; [exact Hsep | apply noLineBreak_blank]].
    apply numberingString_noLineBreak. now apply tokens_adjustNumberingStack.
Qed.

Lemma for_of_numbering_edits (settings : NumberHeadingsPluginSettings) (e : Editor)
    (hs : list HeadingCache) :
  noLineBreak (separator settings) ->
  forall st : NumberingState,
    Forall (fun t => isPatternToken t = true) (numberingStack st) ->
    exists eds,
      changes (outcome_state (for_of (numberingStep settings e) st hs))
      = changes st ++ eds
      /\ Forall (fun c => isPrefixEdit c
                          /\ In (line (change_from c)) (map position_start_line hs)) eds.
Proof.
  intros Hsep. induction hs as [|h hs IH]; intros st Htok.
  - exists []. split; [now rewrite app_nil_r | constructor].
  - cbn [for_of].
    destruct (numberingStep_edits settings e st h Hsep Htok) as (ed & Hed & Hon).
    pose proof (numberingStep_tokens settings e st h Htok) as Htok'.
    assert (Forall (fun c => isPrefixEdit c
                             /\ In (line (change_from c))
                                  (map position_start_line (h :: hs))) ed) as Hon'.
    { eapply Forall_impl; [exact Hon|]. intros c [Hc Heq]. split; [exact Hc | cbn [map In]; left; congruence]. }
    destruct (numberingStep settings e st h) as [st'|st']; cbn [outcome_state] in *.
    + destruct (IH st' Htok') as (eds & Heds & Hall).
      exists (ed ++ eds). split; [now rewrite Heds, Hed, app_assoc|].
      apply Forall_app. split; [exact Hon'|].
      eapply Forall_impl; [exact Hall|]. intros c [Hc Hin]. split; [exact Hc | cbn [map In]; now right].
    + exists ed. split; [exact Hed | exact Hon'].
Qed.

Lemma for_of_removal_edits (e : Editor) (hs : list HeadingCache) :
  forall cs : list EditorChange,
    exists eds,
      outcome_state (for_of (removalStep e) cs hs) = cs ++ eds
      /\ Forall (fun c => isPrefixEdit c
                          /\ In (line (change_from c)) (map position_start_line hs)) eds.
Proof.
  induction hs as [|h hs IH]; intros cs.
  - exists []. split; [now rewrite app_nil_r | constructor].
  - cbn [for_of]. unfold removalStep at 1.
    destruct (getHeadingPrefixRange e h) as [r|] eqn:Hr;
      [|exists []; split; [now rewrite app_nil_r | constructor]].
    destruct (makeHeadingHashString e h) as [m|] eqn:Hm;
      [|exists []; split; [now rewrite app_nil_r | constructor]].
    destruct (scan_and_replace_edits e cs h r m (js " ") Hr Hm noLineBreak_blank)
      as (ed & -> & Hon).
    destruct (IH (cs ++ ed)) as (eds & -> & Hall).
    exists (ed ++ eds). split; [now rewrite app_assoc|].
    apply Forall_app. split.
    + eapply Forall_impl; [exact Hon|]. intros c [Hc Heq]. split; [exact Hc | cbn [map In]; left; congruence].
    + eapply Forall_impl; [exact Hall|]. intros c [Hc Hin]. split; [exact Hc | cbn [map In]; now right].
Qed.

Lemma transaction_frame (e : Editor) (cs : list EditorChange) (lines : list nat) :
  Forall (fun c => isPrefixEdit c /\ In (line (change_from c)) lines) cs ->
  length (doc_lines (transaction e cs)) = length (doc_lines e)
  /\ forall j, ~ In j lines -> getLine (transaction e cs) j = getLine e j.
Proof.
  intros Hcs. split.
  - apply length_transaction_prefix. eapply Forall_impl; [exact Hcs|]. now intros c [Hc _].
  - intros j Hj. apply getLine_transaction_other.
    eapply Forall_impl; [exact Hcs|]. intros c [Hc Hin]. split; [exact Hc|].
    intros Heq. apply Hj. now rewrite <- Heq.
Qed.

(** X9.  Numbering and removal rewrite heading lines only: whatever the
    headings and the lines are, the document has as many lines after the
    operation as before, and every line that is not the line of a heading
    is as it was.  (For the numbering, the separator of the settings must
    hold no line break.) *)
Theorem numbering_rewrites_heading_lines_only (settings : NumberHeadingsPluginSettings)
    (v : ViewInfo) :
  noLineBreak (separator settings) ->
  let e := view_editor v in
  let heading_lines := map position_start_line (headings_of v) in
  let e1 := dispatch e (updateHeadingNumbering (Some v) settings) in
  let e2 := dispatch e (removeHeadingNumbering (Some v)) in
  (length (doc_lines e1) = length (doc_lines e)
   /\ forall j, ~ In j heading_lines -> getLine e1 j = getLine e j)
  /\ (length (doc_lines e2) = length (doc_lines e)
      /\ forall j, ~ In j heading_lines -> getLine e2 j = getLine e j).
Proof.
  intros Hsep e heading_lines e1 e2. split.
  - subst e1. cbn [updateHeadingNumbering].
    destruct (for_of_numbering_edits settings e (headings_of v) Hsep
                (initialNumberingState settings)) as (eds & Heds & Hall).
    { repeat constructor. apply isPatternToken_zeroth. }
    fold e. destruct (for_of (numberingStep settings e) _ _) as [st|st];
      cbn [outcome_state] in Heds; [|now split].
    rewrite dispatch_transaction_of, Heds. now apply transaction_frame.
  - subst e2. cbn [removeHeadingNumbering].
    destruct (for_of_removal_edits e (headings_of v) []) as (eds & Heds & Hall).
    fold e. destruct (for_of (removalStep e) _ _) as [cs|cs];
      cbn [outcome_state] in Heds; [|now split].
    rewrite dispatch_transaction_of, Heds. now apply transaction_frame.
Qed.

Lemma numbering_rewrites_heading_lines_only_witness :
  let e := {| doc_lines := [js "intro"; js "# A"; js "text"; js "## B"] |} in
  let v := {| data_headings := Some [mkHeading 1 1 (js "A"); mkHeading 2 3 (js "B")];
              view_editor := e |} in
  let e1 := dispatch e (updateHeadingNumbering (Some v) (exampleSettings 6)) in
  let e2 := dispatch e (removeHeadingNumbering (Some v)) in
  (length (doc_lines e1) = 4%nat
   /\ forall j, ~ In j [1%nat; 3%nat] -> getLine e1 j = getLine e j)
  /\ (length (doc_lines e2) = 4%nat
      /\ forall j, ~ In j [1%nat; 3%nat] -> getLine e2 j = getLine e j).
Proof.
  refine (numbering_rewrites_heading_lines_only (exampleSettings 6)
            {| data_headings := Some [mkHeading 1 1 (js "A"); mkHeading 2 3 (js "B")];
               view_editor := {| doc_lines := [js "intro"; js "# A"; js "text"; js "## B"] |} |}
            _).
  repeat constructor; discriminate.
Defined.

(** *** Excluded headings and the numbers of the others *)

Lemma numberingStep_agree (settings : NumberHeadingsPluginSettings) (e : Editor)
    (st1 st2 : NumberingState) (h : HeadingCache) :
  previousLevel st1 = previousLevel st2 ->
  numberingStack st1 = numberingStack st2 ->
  match numberingStep settings e st1 h, numberingStep settings e st2 h with
  | Continue a, Continue b | Return a, Return b =>
      previousLevel a = previousLevel b /\ numberingStack a = numberingStack b
  | _, _ => False
  end.
Proof.
  intros Hl Hs. unfold numberingStep. rewrite Hl, Hs.
  destruct (isExcluded settings (level h)).
  - destruct (getHeadingPrefixRange e h); [|now split].
    destruct (makeHeadingHashString e h); now split.
  - cbv zeta. destruct (level h >? maxLevel settings)%Z; [now split|].
    destruct (getHeadingPrefixRange e h); [|now split].
    destruct (makeHeadingHashString e h); now split.
Qed.

Lemma numberingStep_excluded (settings : NumberHeadingsPluginSettings) (e : Editor)
    (st : NumberingState) (h : HeadingCache) :
  isExcluded settings (level h) = true ->
  exists st', numberingStep settings e st h = Continue st'
              /\ previousLevel st' = previousLevel st
              /\ numberingStack st' = numberingStack st.
Proof.
  intros Hex. unfold numberingStep. rewrite Hex.
  destruct (getHeadingPrefixRange e h); [|now eexists].
  destruct (makeHeadingHashString e h); now eexists.
Qed.

(** X10.  Excluded headings do not count: the loop of
    [updateHeadingNumbering] ends the same way (at its end, or by the
    same early return) and with the same [previousLevel] and numbering
    stack on the headings of a note as on those of them that are not
    excluded. *)
Theorem excluded_headings_do_not_count (settings : NumberHeadingsPluginSettings)
    (e : Editor) (hs : list HeadingCache) (st : NumberingState) :
  match for_of (numberingStep settings e) st hs,
        for_of (numberingStep settings e) st
          (filter (fun h => isExcluded settings (level h) = false) hs) with
  | Continue a, Continue b | Return a, Return b =>
      previousLevel a = previousLevel b /\ numberingStack a = numberingStack b
  | _, _ => False
  end.
Proof.
  enough (forall st1 st2 : NumberingState,
             previousLevel st1 = previousLevel st2 ->
             numberingStack st1 = numberingStack st2 ->
             match for_of (numberingStep settings e) st1 hs,
                   for_of (numberingStep settings e) st2
                     (filter (fun h => isExcluded settings (level h) = false) hs) with
             | Continue a, Continue b | Return a, Return b =>
                 previousLevel a = previousLevel b /\ numberingStack a = numberingStack b
             | _, _ => False
             end) as Hgen by now apply Hgen.
  induction hs as [|h hs IH]; intros st1 st2 Hl Hs; [now split|].
  destruct (isExcluded settings (level h)) eqn:Hex.
  - rewrite filter_cons_False by (rewrite Hex; discriminate).
    cbn [for_of].
    destruct (numberingStep_excluded settings e st1 h Hex) as (st' & -> & Hl' & Hs').
    apply IH; congruence.
  - rewrite filter_cons_True by exact Hex. cbn [for_of].
    pose proof (numberingStep_agree settings e st1 st2 h Hl Hs) as Hstep.
    destruct (numberingStep settings e st1 h) as [a|a],
             (numberingStep settings e st2 h) as [b|b]; try contradiction.
    + destruct Hstep. now apply IH.
    + exact Hstep.
Qed.

(** *** Removal on a note without numbers *)

Lemma prefixEdit_nil (n : nat) (l text : jsstring) :
  prefixEdit n l text = [] <-> headingPrefixText l = text.
Proof.
  unfold prefixEdit, str_eqb. case_bool_decide as Heq; split; try done.
Qed.

Lemma for_of_removal_clean (e : Editor) (hs : list HeadingCache) :
  Forall (hasMarkerRun e) hs ->
  forall cs : list EditorChange,
    exists eds,
      for_of (removalStep e) cs hs = Continue (cs ++ eds)
      /\ (eds = []
          <-> Forall (fun h => forall l m,
                        getLine e (position_start_line h) = Some l ->
                        markerRun l = Some m ->
                        headingPrefixText l = m ++ js " ") hs).
Proof.
  induction 1 as [|h hs (l & m & Hl & Hm) _ IH]; intros cs.
  - exists []. split; [now rewrite app_nil_r|]. split; [constructor | reflexivity].
  - cbn [for_of]. unfold removalStep at 1.
    assert (l <> []) as Hne by (intros ->; discriminate).
    rewrite (getHeadingPrefixRange_line e h l Hl Hne).
    rewrite (makeHeadingHashString_line e h l Hl), Hm.
    rewrite (replaceRangeSafely_prefix e cs _ _ _ Hl).
    destruct (IH (cs ++ prefixEdit (position_start_line h) l (m ++ js " ")))
      as (eds & -> & Hiff).
    exists (prefixEdit (position_start_line h) l (m ++ js " ") ++ eds).
    split; [now rewrite app_assoc|]. split.
    + intros Hnil. apply app_eq_nil in Hnil as [Hed ->]. constructor.
      * intros l' m' Hl' Hm'. apply prefixEdit_nil in Hed. congruence.
      * now apply Hiff.
    + intros Hall. inversion Hall as [|? ? Hh Hrest]; subst.
      rewrite (proj2 Hiff Hrest), app_nil_r. apply prefixEdit_nil. now apply Hh.
Qed.

(** X11.  When the marker-only scan succeeds on the line of every
    heading, [removeHeadingNumbering] dispatches nothing exactly when the
    prefix of every heading line is its marker run and one space
    already. *)
Theorem removal_dispatches_nothing_iff_no_prefix (v : ViewInfo) :
  Forall (hasMarkerRun (view_editor v)) (headings_of v) ->
  removeHeadingNumbering (Some v) = None
  <-> Forall (fun h => forall l m,
                getLine (view_editor v) (position_start_line h) = Some l ->
                markerRun l = Some m ->
                headingPrefixText l = m ++ js " ") (headings_of v).
Proof.
  intros Hmark. cbn [removeHeadingNumbering].
  destruct (for_of_removal_clean (view_editor v) (headings_of v) Hmark [])
    as (eds & -> & Hiff).
  cbn [app]. rewrite <- Hiff. destruct eds; cbn [transaction_of]; split; done.
Qed.

Lemma removal_dispatches_nothing_iff_no_prefix_witness :
  removeHeadingNumbering (Some (mkView exampleLines exampleHeadings)) = None
  <-> Forall (fun h => forall l m,
                getLine {| doc_lines := exampleLines |} (position_start_line h) = Some l ->
                markerRun l = Some m ->
                headingPrefixText l = m ++ js " ") exampleHeadings.
Proof.
  refine (removal_dispatches_nothing_iff_no_prefix (mkView exampleLines exampleHeadings) _).
  repeat constructor; eexists _, _; (split; [reflexivity | vm_compute; reflexivity]).
Defined.

(** ** The numbers of a heading, its ancestors and its siblings *)

Lemma prefix_removelast (p l : list NumberingToken) :
  p `prefix_of` l -> (length p < length l)%nat -> p `prefix_of` removelast l.
Proof.
  intros [k ->] Hlen. rewrite length_app in Hlen.
  destruct k as [|x k]; [cbn in Hlen; lia|].
  rewrite removelast_app by discriminate. now apply prefix_app_r.
Qed.

Lemma prefix_pop_times (n : nat) (p l : list NumberingToken) :
  p `prefix_of` l -> (length p + n <= length l)%nat -> p `prefix_of` pop_times n l.
Proof.
  revert l. induction n as [|n IH]; intros l Hp Hlen; [exact Hp|].
  cbn [pop_times]. apply IH.
  - apply prefix_removelast; [exact Hp | lia].
  - rewrite length_removelast_stack. lia.
Qed.

Lemma prefix_pop_push_next (p l : list NumberingToken) :
  p `prefix_of` l -> (length p < length l)%nat -> p `prefix_of` pop_push_next l.
Proof.
  intros Hp Hlen. unfold pop_push_next. destruct (last l) as [x|]; [|exact Hp].
  apply prefix_app_r. now apply prefix_removelast.
Qed.

Lemma push_times_app (n : nat) (t : NumberingToken) (l : list NumberingToken) :
  push_times n t l = l ++ replicate n t.
Proof.
  revert l. induction n as [|n IH]; intros l; cbn [push_times replicate].
  - now rewrite app_nil_r.
  - rewrite IH, <- app_assoc. reflexivity.
Qed.

Lemma prefix_same_length (p l : list NumberingToken) :
  p `prefix_of` l -> length p = length l -> l = p.
Proof.
  intros [k ->] Hlen. rewrite length_app in Hlen.
  destruct k; [now rewrite app_nil_r | cbn in Hlen; lia].
Qed.

(** The stack of an ancestor stays at the bottom of the stack while the
    headings are deeper than the ancestor, or excluded. *)
Lemma numberingStep_keeps_prefix (settings : NumberHeadingsPluginSettings) (e : Editor)
    (p : list NumberingToken) (L : Z) (st : NumberingState) (h : HeadingCache) :
  Z.of_nat (length p) = (L - startLevel settings + 1)%Z ->
  stackInvariant settings st ->
  p `prefix_of` numberingStack st -> (L <= previousLevel st)%Z ->
  (1 <= level h)%Z ->
  isExcluded settings (level h) = true \/ (L < level h)%Z ->
  let st' := outcome_state (numberingStep settings e st h) in
  p `prefix_of` numberingStack st' /\ (L <= previousLevel st')%Z
  /\ stackInvariant settings st'.
Proof.
  intros Hp Hinv Hpre HL Hpos Hh st'.
  destruct (numberingStep_invariant settings e st h Hpos Hinv) as [Hinv' _].
  pose proof (numberingStep_state settings e st h) as Hst. cbv zeta in Hst.
  fold st' in Hst, Hinv'.
  destruct (isExcluded settings (level h)) eqn:Hex.
  - destruct Hst as [-> ->]. split; [exact Hpre | split; [exact HL | exact Hinv']].
  - destruct Hh as [|Hh]; [discriminate|]. destruct Hst as [Hl Hs].
    split; [|split; [lia | exact Hinv']]. rewrite Hs.
    destruct Hinv as [Hlen _]. unfold adjustNumberingStack.
    destruct (level h =? previousLevel st)%Z eqn:E1.
    { apply Z.eqb_eq in E1. apply prefix_pop_push_next; [exact Hpre | lia]. }
    destruct (level h <? previousLevel st)%Z eqn:E2.
    { apply Z.ltb_lt in E2. apply prefix_pop_push_next.
      - apply prefix_pop_times; [exact Hpre | lia].
      - rewrite length_pop_times. lia. }
    destruct (level h >? previousLevel st)%Z; [|exact Hpre].
    rewrite push_times_app. now apply prefix_app_r.
Qed.

(** The state the loop is in when it gets to the heading number [k]. *)
Lemma numbering_run_then_step (settings : NumberHeadingsPluginSettings) (e : Editor)
    (p : list NumberingToken) (L : Z) :
  Z.of_nat (length p) = (L - startLevel settings + 1)%Z ->
  forall (hs : list HeadingCache) (st : NumberingState) (k : nat) (hk : HeadingCache)
         (stk : NumberingState),
    stackInvariant settings st ->
    p `prefix_of` numberingStack st -> (L <= previousLevel st)%Z ->
    (forall k' h', (k' < k)%nat -> hs !! k' = Some h' ->
       (1 <= level h')%Z /\ (isExcluded settings (level h') = true \/ (L < level h')%Z)) ->
    hs !! k = Some hk ->
    for_of_trace (numberingStep settings e) st hs !! k = Some stk ->
    exists stp,
      stackInvariant settings stp
      /\ p `prefix_of` numberingStack stp /\ (L <= previousLevel stp)%Z
      /\ stk = outcome_state (numberingStep settings e stp hk).
Proof.
  intros Hp. induction hs as [|x hs IH]; intros st k hk stk Hinv Hpre HL Hbetween Hk Htr;
    [discriminate|].
  cbn [for_of_trace] in Htr. destruct k as [|k].
  - injection Hk as ->. exists st.
    split; [exact Hinv|]. split; [exact Hpre|]. split; [exact HL|].
    destruct (numberingStep settings e st hk); now injection Htr as <-.
  - destruct (Hbetween 0%nat x ltac:(lia) eq_refl) as [Hpos Hx].
    pose proof (numberingStep_keeps_prefix settings e p L st x Hp Hinv Hpre HL Hpos Hx)
      as (Hpre' & HL' & Hinv'). cbv zeta in *.
    destruct (numberingStep settings e st x) as [st'|st']; cbn [outcome_state] in *.
    + apply (IH st' k hk stk Hinv' Hpre' HL'); [|exact Hk|exact Htr].
      intros k' h' Hk' Hh'. apply (Hbetween (S k') h'); [lia | exact Hh'].
    + destruct k; discriminate.
Qed.

(** The trace from the state after the heading number [j] on. *)
Lemma for_of_trace_from {S A : Type} (body : S -> A -> Outcome S) :
  forall (l : list A) (st : S) (j i : nat) (stj sti : S),
    (j < i)%nat ->
    for_of_trace body st l !! j = Some stj ->
    for_of_trace body st l !! i = Some sti ->
    for_of_trace body stj (drop (Datatypes.S j) l) !! (i - Datatypes.S j)%nat = Some sti.
Proof.
  induction l as [|x l IH]; intros st j i stj sti Hji Hj Hi; [discriminate|].
  cbn [for_of_trace] in Hj, Hi. destruct i as [|i]; [lia|].
  destruct (body st x) as [st'|st']; [|destruct i; discriminate].
  destruct j as [|j].
  - injection Hj as ->. replace (Datatypes.S i - 1)%nat with i by lia.
    rewrite skipn_cons, drop_0. exact Hi.
  - rewrite skipn_cons. apply (IH st' j i); [lia | exact Hj | exact Hi].
Qed.

Lemma numberingString_from_app (p q : list NumberingToken) :
  p <> [] ->
  makeNumberingString (p ++ q) = makeNumberingString p ++ numberingString_from 1 q.
Proof.
  unfold makeNumberingString. intros Hp. destruct p as [|t p]; [done|]. clear Hp.
  cbn [app numberingString_from Nat.eqb]. rewrite <- !app_assoc. do 2 f_equal.
  induction p as [|u p IH]; [reflexivity|].
  cbn [app]. rewrite !numberingString_from_1_cons, IH. cbn [app].
  now rewrite <- app_assoc.
Qed.

Section Hierarchy.
Variable settings : NumberHeadingsPluginSettings.
Variable e : Editor.
Variable hs : list HeadingCache.
Variables (j i : nat) (hj hi : HeadingCache) (stj sti : NumberingState).
Hypothesis levels_positive : Forall (fun h => 1 <= level h)%Z hs.
Hypothesis j_before_i : (j < i)%nat.
Hypothesis heading_j : hs !! j = Some hj.
Hypothesis heading_i : hs !! i = Some hi.
Hypothesis j_numbered : isExcluded settings (level hj) = false.
Hypothesis i_numbered : isExcluded settings (level hi) = false.
Hypothesis between_deeper :
  forall k hk, (j < k < i)%nat -> hs !! k = Some hk ->
    isExcluded settings (level hk) = true \/ (level hj < level hk)%Z.
Hypothesis state_j :
  for_of_trace (numberingStep settings e) (initialNumberingState settings) hs !! j
  = Some stj.
Hypothesis state_i :
  for_of_trace (numberingStep settings e) (initialNumberingState settings) hs !! i
  = Some sti.

Lemma state_before_i :
  exists stp,
    stackInvariant settings stp
    /\ numberingStack stj `prefix_of` numberingStack stp
    /\ (level hj <= previousLevel stp)%Z
    /\ sti = outcome_state (numberingStep settings e stp hi)
    /\ stackInvariant settings stj /\ previousLevel stj = level hj.
Proof using All.
  destruct (for_of_trace_invariant settings e hs levels_positive
              (initialNumberingState settings) j hj stj
              (initialNumberingState_invariant settings) heading_j state_j)
    as [Hinvj Hlj].
  specialize (Hlj j_numbered).
  pose proof (for_of_trace_from _ _ _ _ _ _ _ j_before_i state_j state_i) as Htr.
  destruct (numbering_run_then_step settings e (numberingStack stj) (level hj)
              ltac:(destruct Hinvj; lia)
              (drop (S j) hs) stj (i - S j)%nat hi sti Hinvj ltac:(reflexivity)
              ltac:(lia)) as (stp & H).
  - intros k' h' Hk' Hh'. rewrite lookup_drop in Hh'. split.
    + exact (Forall_lookup_1 _ _ _ _ levels_positive Hh').
    + apply (between_deeper (S j + k')%nat h'); [lia | exact Hh'].
  - rewrite lookup_drop. now replace (S j + (i - S j))%nat with i by lia.
  - exact Htr.
  - exists stp. tauto.
Qed.
End Hierarchy.

(** X12.  The number of a heading begins with the number of its
    ancestors.  Let the heading [hj] come before the heading [hi], both
    numbered, [hi] deeper than [hj], and every heading between them
    deeper than [hj] or excluded.  Then the stack at [hi] is the stack at
    [hj] with one token more for each level between them, and the
    numbering string of [hi] is that of [hj] followed by these tokens,
    each after a dot. *)
Theorem number_extends_the_number_of_the_ancestor
    (settings : NumberHeadingsPluginSettings) (e : Editor) (hs : list HeadingCache)
    (j i : nat) (hj hi : HeadingCache) (stj sti : NumberingState) :
  Forall (fun h => 1 <= level h)%Z hs ->
  (j < i)%nat ->
  hs !! j = Some hj -> hs !! i = Some hi ->
  isExcluded settings (level hj) = false ->
  isExcluded settings (level hi) = false ->
  (forall k hk, (j < k < i)%nat -> hs !! k = Some hk ->
     isExcluded settings (level hk) = true \/ (level hj < level hk)%Z) ->
  (level hj < level hi)%Z ->
  for_of_trace (numberingStep settings e) (initialNumberingState settings) hs !! j
  = Some stj ->
  for_of_trace (numberingStep settings e) (initialNumberingState settings) hs !! i
  = Some sti ->
  exists q,
    numberingStack sti = numberingStack stj ++ q
    /\ Z.of_nat (length q) = (level hi - level hj)%Z
    /\ makeNumberingString (numberingStack sti)
       = makeNumberingString (numberingStack stj) ++ numberingString_from 1 q.
Proof.
  intros Hpos Hji Hj Hi Hexj Hexi Hbetween Hdeeper Htj Hti.
  destruct (state_before_i settings e hs j i hj hi stj sti Hpos Hji Hj Hi Hexj Hexi
              Hbetween Htj Hti) as (stp & Hinvp & Hpre & HL & -> & Hinvj & Hlj).
  assert (1 <= level hi)%Z as Hposi by exact (Forall_lookup_1 _ _ _ _ Hpos Hi).
  destruct (numberingStep_keeps_prefix settings e (numberingStack stj) (level hj) stp hi
              ltac:(destruct Hinvj; lia) Hinvp Hpre HL Hposi (or_intror Hdeeper))
    as ([q Hq] & _ & Hinvi).
  destruct (numberingStep_invariant settings e stp hi Hposi Hinvp) as [_ Hli].
  specialize (Hli Hexi).
  exists q. split; [exact Hq|].
  destruct Hinvi as [Hleni _], Hinvj as [Hlenj Hstart].
  rewrite Hq, length_app in Hleni. split; [lia|].
  rewrite Hq. apply numberingString_from_app.
  intros Hnil. rewrite Hnil in Hlenj. cbn in Hlenj. lia.
Qed.

Lemma number_extends_the_number_of_the_ancestor_witness :
  exists stj sti,
    for_of_trace (numberingStep (exampleSettings 6) {| doc_lines := exampleLines |})
      (initialNumberingState (exampleSettings 6)) exampleHeadings !! 0%nat = Some stj
    /\ for_of_trace (numberingStep (exampleSettings 6) {| doc_lines := exampleLines |})
         (initialNumberingState (exampleSettings 6)) exampleHeadings !! 2%nat = Some sti
    /\ makeNumberingString (numberingStack stj) = js " 1"
    /\ exists q,
         numberingStack sti = numberingStack stj ++ q
         /\ Z.of_nat (length q) = (2 - 1)%Z
         /\ makeNumberingString (numberingStack sti)
            = makeNumberingString (numberingStack stj) ++ numberingString_from 1 q.
Proof.
  eexists _, _. split; [reflexivity|]. split; [reflexivity|]. split; [reflexivity|].
  refine (number_extends_the_number_of_the_ancestor (exampleSettings 6)
            {| doc_lines := exampleLines |} exampleHeadings 0 2
            (mkHeading 1 0 (js "Intro")) (mkHeading 2 2 (js "Related Work")) _ _
            _ _ _ _ _ _ _ _ _ _).
  - repeat constructor; cbn; lia.
  - lia.
  - reflexivity.
  - reflexivity.
  - reflexivity.
  - reflexivity.
  - intros k hk Hk. destruct k as [|[|k]]; [lia| |lia].
    intros [= <-]. right. cbn. lia.
  - cbn. lia.
  - reflexivity.
  - reflexivity.
Defined.

(** X13.  The next sibling gets the next token.  Let the heading [hj]
    come before the heading [hi], both numbered and of the same level,
    and every heading between them deeper or excluded.  Then the stack
    at [hi] is the stack at [hj] with its last token replaced by the
    next one: the tokens of the ancestors stay. *)
Theorem next_sibling_gets_the_next_token
    (settings : NumberHeadingsPluginSettings) (e : Editor) (hs : list HeadingCache)
    (j i : nat) (hj hi : HeadingCache) (stj sti : NumberingState) :
  Forall (fun h => 1 <= level h)%Z hs ->
  (j < i)%nat ->
  hs !! j = Some hj -> hs !! i = Some hi ->
  isExcluded settings (level hj) = false ->
  isExcluded settings (level hi) = false ->
  (forall k hk, (j < k < i)%nat -> hs !! k = Some hk ->
     isExcluded settings (level hk) = true \/ (level hj < level hk)%Z) ->
  level hi = level hj ->
  for_of_trace (numberingStep settings e) (initialNumberingState settings) hs !! j
  = Some stj ->
  for_of_trace (numberingStep settings e) (initialNumberingState settings) hs !! i
  = Some sti ->
  exists p x,
    numberingStack stj = p ++ [x]
    /\ numberingStack sti = p ++ [nextNumberingToken x].
Proof.
  intros Hpos Hji Hj Hi Hexj Hexi Hbetween Hsame Htj Hti.
  destruct (state_before_i settings e hs j i hj hi stj sti Hpos Hji Hj Hi Hexj Hexi
              Hbetween Htj Hti) as (stp & Hinvp & Hpre & HL & -> & Hinvj & Hlj).
  pose proof (numberingStep_state settings e stp hi) as Hst. cbv zeta in Hst.
  rewrite Hexi in Hst. destruct Hst as [_ Hs].
  destruct Hinvp as [Hlenp _], Hinvj as [Hlenj Hstart].
  assert (numberingStack (outcome_state (numberingStep settings e stp hi))
          = pop_push_next (numberingStack stj)) as Hnext.
  { rewrite Hs. unfold adjustNumberingStack.
    destruct (level hi =? previousLevel stp)%Z eqn:E1.
    { apply Z.eqb_eq in E1. f_equal. apply prefix_same_length; [exact Hpre | lia]. }
    apply Z.eqb_neq in E1.
    destruct (level hi <? previousLevel stp)%Z eqn:E2; [|apply Z.ltb_ge in E2; lia].
    f_equal. apply prefix_same_length.
    - apply prefix_pop_times; [exact Hpre | lia].
    - rewrite length_pop_times. lia. }
  destruct (numberingStack stj) as [|t ts] eqn:Estack using rev_ind;
    [cbn in Hlenj; lia|].
  exists ts, t. split; [reflexivity|]. rewrite Hnext. apply pop_push_next_snoc.
Qed.

Lemma next_sibling_gets_the_next_token_witness :
  exists stj sti,
    for_of_trace (numberingStep (exampleSettings 6) {| doc_lines := exampleLines |})
      (initialNumberingState (exampleSettings 6)) exampleHeadings !! 0%nat = Some stj
    /\ for_of_trace (numberingStep (exampleSettings 6) {| doc_lines := exampleLines |})
         (initialNumberingState (exampleSettings 6)) exampleHeadings !! 3%nat = Some sti
    /\ numberingStack stj = [TNumber 1]
    /\ exists p x,
         numberingStack stj = p ++ [x]
         /\ numberingStack sti = p ++ [nextNumberingToken x].
Proof.
  eexists _, _. split; [reflexivity|]. split; [reflexivity|]. split; [reflexivity|].
  refine (next_sibling_gets_the_next_token (exampleSettings 6)
            {| doc_lines := exampleLines |} exampleHeadings 0 3
            (mkHeading 1 0 (js "Intro")) (mkHeading 1 3 (js "Methods")) _ _
            _ _ _ _ _ _ _ _ _ _).
  - repeat constructor; cbn; lia.
  - lia.
  - reflexivity.
  - reflexivity.
  - reflexivity.
  - reflexivity.
  - intros k hk Hk. destruct k as [|[|[|k]]]; [lia| | |lia];
      intros [= <-]; right; cbn; lia.
  - reflexivity.
  - reflexivity.
  - reflexivity.
Defined.

(** ** The contents list: what is built, found and replaced *)

Lemma tocStep_fold (settings : NumberHeadingsPluginSettings) (hs : list HeadingCache) :
  forall (a : option HeadingCache) (b : jsstring),
    foldl (tocStep settings) (a, b) hs
    = (match tocAnchor settings hs with Some t => Some t | None => a end,
       b ++ concat (map (fun x => x ++ [line_break]) (tocEntries settings hs))).
Proof.
  unfold tocAnchor, tocEntries.
  induction hs as [|h hs IH]; intros a b; [cbn; now rewrite app_nil_r|].
  cbn [foldl]. unfold tocStep at 2. cbn [fst snd]. 
  destruct (isExcluded settings (level h)) eqn:Hex;
    destruct (endsWith (heading h) (contents settings)) eqn:Hends;
    rewrite IH;
    rewrite ?(filter_cons_True (fun h => endsWith (heading h) (contents settings) = true))
      by exact Hends;
    rewrite ?(filter_cons_False (fun h => endsWith (heading h) (contents settings) = true))
      by (rewrite Hends; discriminate);
    rewrite ?(filter_cons_True (fun h => isExcluded settings (level h) = false))
      by exact Hex;
    rewrite ?(filter_cons_False (fun h => isExcluded settings (level h) = false))
      by (rewrite Hex; discriminate);
    rewrite ?last_cons; cbn [map concat]; rewrite <- ?app_assoc;
    try reflexivity;
    now destruct (last (filter _ hs)).
Qed.

(** X14.  The first loop of [updateTableOfContents] leaves, as the
    anchor, the last heading whose text ends with the contents marker
    (excluded or not), and as the text a line break followed by one entry
    and a line break for each heading that is not excluded, in the order
    of the headings. *)
Theorem toc_loop_builds_the_list (settings : NumberHeadingsPluginSettings)
    (hs : list HeadingCache) :
  foldl (tocStep settings) (None, [line_break]) hs
  = (tocAnchor settings hs, tocText (tocEntries settings hs)).
Proof.
  rewrite tocStep_fold. unfold tocText. f_equal. now destruct (tocAnchor settings hs).
Qed.

Lemma bullet_not_hash (l : jsstring) :
  isBulletLine l = true -> startsWith (trimStart l) (js "#") = false.
Proof.
  unfold isBulletLine. intros Hl. destruct (trimStart l) as [|c x]; [discriminate|].
  cbn in Hl |- *. apply andb_true_iff in Hl as [Hc _]. apply N.eqb_eq in Hc as <-.
  reflexivity.
Qed.

Lemma scanTocList_list_end (start : nat) (bs : list jsstring) (l : jsstring)
    (rest : list jsstring) :
  Forall (fun l => isBulletLine l = true) bs -> isBulletLine l = false ->
  forall k, scanTocList start k true (bs ++ l :: rest) = (k + length bs)%nat.
Proof.
  intros Hbs Hl. induction Hbs as [|b bs Hb _ IH]; intros k.
  - cbn [app scanTocList length]. unfold isBulletLine in Hl. rewrite Hl. cbn [negb]. lia.
  - cbn [app scanTocList length]. rewrite (bullet_not_hash b Hb).
    unfold isBulletLine in Hb. rewrite Hb. cbn [negb]. rewrite IH. lia.
Qed.

Lemma scanTocList_list (start : nat) (ps bs : list jsstring) (l : jsstring)
    (rest : list jsstring) :
  Forall (fun l => isPlainLine l = true) ps ->
  Forall (fun l => isBulletLine l = true) bs -> bs <> [] -> isBulletLine l = false ->
  forall k, scanTocList start k false (ps ++ bs ++ l :: rest)
            = (k + length ps + length bs)%nat.
Proof.
  intros Hps Hbs Hne Hl. induction Hps as [|p ps Hp _ IH]; intros k.
  - destruct Hbs as [|b bs Hb Hbs]; [done|].
    cbn [app scanTocList length]. unfold isBulletLine in Hb. rewrite Hb.
    rewrite (scanTocList_list_end start bs l rest Hbs Hl). lia.
  - cbn [app scanTocList length]. unfold isPlainLine in Hp.
    apply andb_true_iff in Hp as [H1 H2]. apply negb_true_iff in H1, H2.
    rewrite H1, H2, IH. lia.
Qed.

Lemma scanTocList_found_shape (start : nat) (rest : list jsstring) :
  forall k,
    scanTocList start k true rest = start
    \/ exists bs l rest',
         rest = bs ++ l :: rest'
         /\ Forall (fun l => isBulletLine l = true) bs /\ isBulletLine l = false
         /\ scanTocList start k true rest = (k + length bs)%nat.
Proof.
  induction rest as [|b rest IH]; intros k; [now left|].
  cbn [scanTocList]. destruct (startsWith (trimStart b) TOC_LIST_ITEM_BULLET) eqn:Hb;
    cbn [negb].
  - rewrite (bullet_not_hash b Hb).
    destruct (IH (S k)) as [->|(bs & l & rest' & -> & Hbs & Hl & ->)]; [now left|].
    right. exists (b :: bs), l, rest'. repeat split; try assumption.
    + now constructor.
    + cbn [length]. lia.
  - right. exists [], b, rest. repeat split; [constructor | exact Hb | cbn; lia].
Qed.

Lemma scanTocList_shape (start : nat) (rest : list jsstring) :
  forall k,
    scanTocList start k false rest = start
    \/ exists ps bs l rest',
         rest = ps ++ bs ++ l :: rest'
         /\ Forall (fun l => isPlainLine l = true) ps
         /\ Forall (fun l => isBulletLine l = true) bs /\ bs <> []
         /\ isBulletLine l = false
         /\ scanTocList start k false rest = (k + length ps + length bs)%nat.
Proof.
  induction rest as [|p rest IH]; intros k; [now left|].
  cbn [scanTocList]. destruct (startsWith (trimStart p) TOC_LIST_ITEM_BULLET) eqn:Hb.
  - destruct (scanTocList_found_shape start rest (S k))
      as [->|(bs & l & rest' & -> & Hbs & Hl & ->)]; [now left|].
    right. exists [], (p :: bs), l, rest'.
    repeat split; try assumption; [constructor | now constructor | discriminate |].
    cbn [length]. lia.
  - destruct (startsWith (trimStart p) (js "#")) eqn:Hh; [now left|].
    destruct (IH (S k)) as [->|(ps & bs & l & rest' & -> & Hps & Hbs & Hne & Hl & ->)];
      [now left|].
    right. exists (p :: ps), bs, l, rest'. repeat split; try assumption.
    + constructor; [|exact Hps]. unfold isPlainLine. now rewrite Hb, Hh.
    + cbn [length]. lia.
Qed.

(** X15.  The scan for the old list, from the line after the anchor: it
    passes lines that are neither list items nor headings, then the list
    items, and returns the number of the line after the last list item
    when there is one; in every other case (a heading before any list
    item, or the end of the document) it returns the line it started
    from. *)
Theorem scanTocList_finds_the_list (start : nat) (rest : list jsstring) :
  (scanTocList start start false rest = start
   \/ exists ps bs l rest',
        rest = ps ++ bs ++ l :: rest'
        /\ Forall (fun l => isPlainLine l = true) ps
        /\ Forall (fun l => isBulletLine l = true) bs /\ bs <> []
        /\ isBulletLine l = false
        /\ scanTocList start start false rest = (start + length ps + length bs)%nat)
  /\ (forall ps bs l rest',
        rest = ps ++ bs ++ l :: rest' ->
        Forall (fun l => isPlainLine l = true) ps ->
        Forall (fun l => isBulletLine l = true) bs -> bs <> [] ->
        isBulletLine l = false ->
        scanTocList start start false rest = (start + length ps + length bs)%nat).
Proof.
  split; [apply scanTocList_shape|].
  intros ps bs l rest' -> Hps Hbs Hne Hl. now apply scanTocList_list.
Qed.

(** *** The entries *)

Lemma Forall_trimLeft (P : N -> Prop) (s : jsstring) :
  Forall P s -> Forall P (trimLeft s).
Proof.
  induction 1 as [|c s Hc Hs IH]; [constructor|].
  cbn [trimLeft]. destruct (is_js_space c); [exact IH | now constructor].
Qed.

Lemma Forall_trim (P : N -> Prop) (s : jsstring) : Forall P s -> Forall P (trim s).
Proof.
  intros H. unfold trim, trimRight.
  apply Forall_reverse, Forall_trimLeft, Forall_reverse, Forall_trimLeft, H.
Qed.

Lemma trimLeft_head (s : jsstring) : head_is is_js_space (trimLeft s) = false.
Proof.
  induction s as [|c s IH]; [reflexivity|].
  cbn [trimLeft]. destruct (is_js_space c) eqn:Hc; [exact IH | exact Hc].
Qed.

Lemma trimLeft_fixed (s : jsstring) : head_is is_js_space s = false -> trimLeft s = s.
Proof. destruct s as [|c s]; [reflexivity|]. cbn. now intros ->. Qed.

(** The text before the first separator, and whether one follows. *)
Lemma split_char_first (sep : N) (s : jsstring) :
  exists a ps,
    split_char sep s = a :: ps
    /\ Forall (fun c => c <> sep) a
    /\ (ps = [] /\ s = a \/ ps <> [] /\ exists b, s = a ++ sep :: b).
Proof.
  induction s as [|c s (a & ps & IH & Ha & Hs)].
  - exists [], []. split; [reflexivity|]. split; [constructor | now left].
  - cbn [split_char]. destruct (N.eqb_spec c sep) as [->|Hne].
    + exists [], (split_char sep s). split; [reflexivity|]. split; [constructor|].
      right. split; [rewrite IH; discriminate | now exists s].
    + rewrite IH. exists (c :: a), ps. split; [reflexivity|].
      split; [now constructor|].
      destruct Hs as [[-> ->]|[Hps [b ->]]]; [now left|].
      right. split; [exact Hps | now exists b].
Qed.

Lemma contains_char_false (s : jsstring) (c : N) :
  contains_char s c = false -> Forall (fun d => d <> c) s.
Proof.
  unfold contains_char. induction s as [|d s IH]; [constructor|].
  cbn [existsb]. intros H. apply orb_false_iff in H as [Hd Hs].
  constructor; [|now apply IH]. apply N.eqb_neq in Hd. congruence.
Qed.

(** X16.  The text of a link in the contents list: the text of the
    heading before its first [^] (all of it when it has none), without
    the white space around it.  It holds no [^], and neither begins nor
    ends with white space. *)
Theorem cleanHeadingTextForToc_spec (htext : jsstring) :
  (exists a b, htext = a ++ b
               /\ Forall (fun c => c <> 94%N) a
               /\ head_is (N.eqb 94) b = negb (bool_decide (b = []))
               /\ cleanHeadingTextForToc htext = trim a)
  /\ Forall (fun c => c <> 94%N) (cleanHeadingTextForToc htext)
  /\ head_is is_js_space (cleanHeadingTextForToc htext) = false
  /\ head_is is_js_space (reverse (cleanHeadingTextForToc htext)) = false.
Proof.
  assert (exists a b, htext = a ++ b
                      /\ Forall (fun c => c <> 94%N) a
                      /\ head_is (N.eqb 94) b = negb (bool_decide (b = []))
                      /\ cleanHeadingTextForToc htext = trim a) as Hparts.
  { unfold cleanHeadingTextForToc.
    destruct (contains_char htext 94) eqn:Hc.
    - destruct (split_char_first 94 htext) as (a & ps & -> & Ha & Hs).
      destruct Hs as [[-> ->]|[Hps [b ->]]].
      + exists a, []. split; [now rewrite app_nil_r|]. now repeat split.
      + destruct ps as [|p ps]; [done|]. exists a, (94%N :: b). now repeat split.
    - exists htext, []. split; [now rewrite app_nil_r|].
      split; [now apply contains_char_false|]. now split. }
  split; [exact Hparts|].
  destruct Hparts as (a & b & _ & Ha & _ & ->).
  split; [now apply Forall_trim|]. unfold trim, trimRight. split.
  - remember (trimLeft a) as x eqn:Ex.
    assert (head_is is_js_space x = false) as Hx by (subst x; apply trimLeft_head).
    clear Ex. induction x as [|c x IH] using rev_ind; [reflexivity|].
    rewrite reverse_snoc. cbn [trimLeft].
    destruct (is_js_space c) eqn:Hc.
    + destruct x as [|d x]; [cbn in Hx; congruence|]. apply IH. exact Hx.
    + rewrite reverse_cons, reverse_involutive. exact Hx.
  - rewrite reverse_involutive. apply trimLeft_head.
Qed.

Lemma tabs_are_spaces (k : nat) :
  Forall (fun c => is_js_space c = true)
    (concat (replicate k (js (String "009"%char EmptyString)))).
Proof. induction k as [|k IH]; [constructor|]. cbn. now constructor. Qed.

Lemma createTocEntry_bullet (h : HeadingCache) (settings : NumberHeadingsPluginSettings) :
  isBulletLine (createTocEntry h settings) = true.
Proof.
  unfold isBulletLine, createTocEntry, trimStart. cbv zeta.
  rewrite trimLeft_spaces_app; [apply startsWith_app | apply tabs_are_spaces | reflexivity].
Qed.

Lemma createTocEntry_noLineBreak (h : HeadingCache)
    (settings : NumberHeadingsPluginSettings) :
  noLineBreak (heading h) -> noLineBreak (createTocEntry h settings).
Proof.
  intros Hh. unfold createTocEntry. cbv zeta.
  assert (noLineBreak (cleanHeadingTextForToc (heading h))) as Hclean.
  { unfold cleanHeadingTextForToc.
    destruct (contains_char (heading h) 94); [|now apply Forall_trim].
    destruct (split_char_first 94 (heading h)) as (a & ps & -> & _ & Hs).
    destruct ps as [|p ps]; [now apply Forall_trim|]. apply Forall_trim.
    destruct Hs as [[? _]|[_ [b Hb]]]; [done|].
    unfold noLineBreak in Hh. rewrite Hb in Hh. now apply Forall_app in Hh as [Ha _]. }
  repeat apply noLineBreak_app; try assumption; try (repeat constructor; discriminate).
  generalize (Z.to_nat (level h - (if skipTopLevel settings then 2 else 1))).
  intros k. induction k as [|k IH]; [constructor|].
  cbn. constructor; [split; discriminate | exact IH].
Qed.

Lemma tocEntries_bullets (settings : NumberHeadingsPluginSettings)
    (hs : list HeadingCache) :
  Forall (fun l => isBulletLine l = true) (tocEntries settings hs).
Proof.
  unfold tocEntries. apply Forall_map, Forall_forall. intros h _.
  apply createTocEntry_bullet.
Qed.

Lemma tocEntries_noLineBreak (settings : NumberHeadingsPluginSettings)
    (hs : list HeadingCache) :
  Forall (fun h => noLineBreak (heading h)) hs ->
  Forall noLineBreak (tocEntries settings hs).
Proof.
  intros H. unfold tocEntries. apply Forall_map.
  apply Forall_forall. intros h Hin. apply list_elem_of_filter in Hin as [_ Hin].
  apply createTocEntry_noLineBreak. rewrite Forall_forall in H. now apply H.
Qed.

Lemma join_lines_entries (es : list jsstring) :
  join_lines (es ++ [[]]) = concat (map (fun x => x ++ [line_break]) es).
Proof.
  induction es as [|x es IH]; [reflexivity|].
  cbn [app map concat]. rewrite <- IH, <- app_assoc.
  cbn [join_lines]. now destruct (es ++ [[]]) eqn:E; [destruct es|].
Qed.

Lemma split_lines_entries (es : list jsstring) :
  Forall noLineBreak es ->
  split_lines (concat (map (fun x => x ++ [line_break]) es)) = es ++ [[]].
Proof.
  induction 1 as [|x es Hx _ IH]; [reflexivity|].
  cbn [map concat app]. rewrite <- app_assoc. cbn [app].
  now rewrite split_lines_app_break, IH.
Qed.

Lemma tocText_is_break (es : list jsstring) : tocText es = [line_break] <-> es = [].
Proof.
  unfold tocText. split; [|now intros ->].
  destruct es as [|x es]; [reflexivity|]. cbn [map concat app].
  intros [= H]. now destruct x.
Qed.

(** *** The update *)

Lemma scanTocList_line (ls : list jsstring) (n : nat) :
  (n < length ls)%nat -> is_Some (ls !! scanTocList n n false (drop n ls)).
Proof.
  intros Hn.
  destruct (scanTocList_shape n (drop n ls) n)
    as [->|(ps & bs & l & rest' & Hdrop & _ & _ & _ & _ & ->)].
  - now apply lookup_lt_is_Some_2.
  - exists l. rewrite <- Nat.add_assoc, <- lookup_drop, Hdrop, app_assoc.
    rewrite <- length_app. apply list_lookup_middle. reflexivity.
Qed.

Lemma updateTableOfContents_anchor (doesContentsHaveValue : jsstring -> bool)
    (settings : NumberHeadingsPluginSettings) (v : ViewInfo) (t : HeadingCache) :
  doesContentsHaveValue (contents settings) = true ->
  tocAnchor settings (headings_of v) = Some t ->
  let n := (position_start_line t + 1)%nat in
  let r := scanTocList n n false (drop n (doc_lines (view_editor v))) in
  let entries := tocEntries settings (headings_of v) in
  updateTableOfContents doesContentsHaveValue (Some v) settings
  = transaction_of
      (replaceRangeSafely (view_editor v) []
         {| range_from := {| line := n; ch := 0 |};
            range_to := {| line := r; ch := 0 |} |}
         (match entries with [] => [] | _ :: _ => tocText entries end)).
Proof.
  intros Hhas Hanchor n r entries. unfold updateTableOfContents.
  rewrite Hhas, tocStep_fold, Hanchor. cbn [negb]. fold n r entries. do 2 f_equal.
  change ([line_break] ++ concat (map (fun x => x ++ [line_break]) entries))
    with (tocText entries).
  unfold str_eqb. case_bool_decide as Heq.
  - apply tocText_is_break in Heq. now rewrite Heq.
  - destruct entries; [|reflexivity]. now contradiction Heq.
Qed.

(** X17.  What an update of the contents list leaves.  When there is an
    anchor with a line after it and no heading text holds a line break,
    a transaction of [updateTableOfContents] is one change, from the
    start of the line after the anchor to the start of the line the scan
    returns; after it the document is: the lines up to the anchor, an
    empty line and the entries (nothing, when no heading gets an entry),
    then the lines from the line the scan returned on.  A list the scan
    found is replaced, whatever it held. *)
Theorem updateTableOfContents_replaces_the_list (doesContentsHaveValue : jsstring -> bool)
    (settings : NumberHeadingsPluginSettings) (v : ViewInfo) (t : HeadingCache) :
  doesContentsHaveValue (contents settings) = true ->
  tocAnchor settings (headings_of v) = Some t ->
  (position_start_line t + 1 < length (doc_lines (view_editor v)))%nat ->
  Forall (fun h => noLineBreak (heading h)) (headings_of v) ->
  let n := (position_start_line t + 1)%nat in
  let r := scanTocList n n false (drop n (doc_lines (view_editor v))) in
  let entries := tocEntries settings (headings_of v) in
  forall cs,
    updateTableOfContents doesContentsHaveValue (Some v) settings = Some cs ->
    cs = [{| change_text := match entries with [] => [] | _ :: _ => tocText entries end;
             change_from := {| line := n; ch := 0 |};
             change_to := {| line := r; ch := 0 |} |}]
    /\ doc_lines (transaction (view_editor v) cs)
       = take n (doc_lines (view_editor v)) ++ tocLines entries
           ++ drop r (doc_lines (view_editor v)).
Proof.
  intros Hhas Hanchor Hn Hheads n r entries cs Hcs.
  rewrite (updateTableOfContents_anchor _ _ _ _ Hhas Hanchor) in Hcs.
  fold n r entries in Hcs.
  apply transaction_of_Some in Hcs as [-> Hne].
  unfold replaceRangeSafely in *. cbn [range_from range_to] in *.
  destruct (negb _); [|done]. cbn [app]. split; [reflexivity|].
  unfold transaction. cbn [foldl]. unfold replaceRange, getLine.
  cbn [change_from change_to change_text line ch].
  destruct (lookup_lt_is_Some_2 _ _ Hn) as [lf Hlf]. fold n in Hlf. rewrite Hlf.
  destruct (scanTocList_line _ _ Hn) as [lt Hlt]. fold n r in Hlt. rewrite Hlt.
  cbn [doc_lines]. rewrite take_0, drop_0. f_equal.
  rewrite (drop_S _ _ _ Hlt).
  pose proof (tocEntries_noLineBreak settings _ Hheads) as Hnb. fold entries in Hnb.
  destruct entries as [|x es] eqn:E; [reflexivity|].
  unfold tocText. cbn [app split_lines N.eqb Pos.eqb line_break].
  fold line_break. rewrite (split_lines_entries _ Hnb).
  change ([] :: (x :: es) ++ [[]]) with (([] :: x :: es) ++ [[]]).
  rewrite append_to_last_snoc. cbn [app prepend_to_first tocLines].
  rewrite <- app_assoc. reflexivity.
Qed.

Lemma updateTableOfContents_replaces_the_list_witness :
  exists cs,
    updateTableOfContents specContentsHaveValue
      (Some (mkView [js "# Contents"; js ""; js "- [[#Old|Old]]"; js "text"]
               contentsHeadings)) contentsSettings = Some cs
    /\ doc_lines (transaction
                    {| doc_lines := [js "# Contents"; js ""; js "- [[#Old|Old]]";
                                     js "text"] |} cs)
       = [js "# Contents"; js ""; js "- [[#Contents|Contents]]"; js "text"].
Proof.
  eexists. split; [reflexivity|].
  refine (proj2 (updateTableOfContents_replaces_the_list specContentsHaveValue
                   contentsSettings
                   (mkView [js "# Contents"; js ""; js "- [[#Old|Old]]"; js "text"]
                      contentsHeadings)
                   (mkHeading 1 0 (js "Contents")) _ _ _ _ _ _)).
  - reflexivity.
  - reflexivity.
  - cbn. lia.
  - repeat constructor; discriminate.
  - reflexivity.
Defined.

(** X18.  A list that is up to date is left alone.  When the lines after
    the anchor are an empty line, then the very entries the loop builds
    (one at least), then a line that is not a list item,
    [updateTableOfContents] dispatches nothing: the scan finds the list
    and the text of its range is the text built. *)
Theorem updateTableOfContents_leaves_its_list (doesContentsHaveValue : jsstring -> bool)
    (settings : NumberHeadingsPluginSettings) (v : ViewInfo) (t : HeadingCache)
    (l : jsstring) (rest : list jsstring) :
  doesContentsHaveValue (contents settings) = true ->
  tocAnchor settings (headings_of v) = Some t ->
  tocEntries settings (headings_of v) <> [] ->
  drop (position_start_line t + 1) (doc_lines (view_editor v))
  = tocLines (tocEntries settings (headings_of v)) ++ l :: rest ->
  isBulletLine l = false ->
  updateTableOfContents doesContentsHaveValue (Some v) settings = None.
Proof.
  intros Hhas Hanchor Hne Hdrop Hl.
  rewrite (updateTableOfContents_anchor _ _ _ _ Hhas Hanchor).
  pose proof (tocEntries_bullets settings (headings_of v)) as Hb.
  set (n := (position_start_line t + 1)%nat) in *.
  set (ls := doc_lines (view_editor v)) in *.
  destruct (tocEntries settings (headings_of v)) as [|x es] eqn:E; [done|].
  set (entries := x :: es) in *. cbn [tocLines] in Hdrop.
  assert (scanTocList n n false (drop n ls) = (n + 1 + length entries)%nat) as Hscan.
  { rewrite Hdrop.
    apply (scanTocList_list n [[]] entries l rest); try assumption.
    repeat constructor. }
  rewrite Hscan. unfold replaceRangeSafely, getRange, getLine.
  cbn [range_from range_to line ch]. fold ls.
  replace (n =? n + 1 + length entries)%nat with false by (symmetry; apply Nat.eqb_neq; lia).
  assert (ls !! n = Some []) as Hn.
  { rewrite <- (Nat.add_0_r n), <- lookup_drop, Hdrop. reflexivity. }
  assert (drop (S n) ls = entries ++ l :: rest) as Hdrop'.
  { replace (S n) with (n + 1)%nat by lia. rewrite <- drop_drop, Hdrop. reflexivity. }
  assert (ls !! (n + 1 + length entries)%nat = Some l) as Hr.
  { rewrite <- Nat.add_assoc, <- lookup_drop, Hdrop.
    change ([] :: entries ++ l :: rest) with (([] :: entries) ++ l :: rest).
    apply list_lookup_middle. reflexivity. }
  rewrite Hn, Hr, Hdrop', drop_0, take_0.
  replace (n + 1 + length entries - n - 1)%nat with (length entries) by lia.
  rewrite take_app_length.
  change ([] :: entries ++ [[]]) with ([] :: (entries ++ [[]])).
  assert (join_lines ([] :: entries ++ [[]]) = tocText entries) as ->.
  { unfold tocText. rewrite <- join_lines_entries. unfold entries. reflexivity. }
  now rewrite str_eqb_refl.
Qed.

Lemma updateTableOfContents_leaves_its_list_witness :
  updateTableOfContents specContentsHaveValue
    (Some (mkView [js "# Contents"; js ""; js "- [[#Contents|Contents]]"; js "text"]
             contentsHeadings)) contentsSettings
  = None.
Proof.
  refine (updateTableOfContents_leaves_its_list specContentsHaveValue contentsSettings
            (mkView [js "# Contents"; js ""; js "- [[#Contents|Contents]]"; js "text"]
               contentsHeadings)
            (mkHeading 1 0 (js "Contents")) (js "text") [] _ _ _ _ _).
  - reflexivity.
  - reflexivity.
  - discriminate.
  - reflexivity.
  - reflexivity.
Defined.

(** ** The lines the numbering and the removal leave *)

Lemma not_excluded_within_max (settings : NumberHeadingsPluginSettings) (lvl : Z) :
  isExcluded settings lvl = false -> (lvl >? maxLevel settings)%Z = false.
Proof. unfold isExcluded. intros H. now apply orb_false_iff in H as [_ H]. Qed.

(** One heading with a marker run: the edit the loop adds for it. *)
Lemma numberingStep_writes (settings : NumberHeadingsPluginSettings) (e : Editor)
    (st : NumberingState) (h : HeadingCache) (l m : jsstring) :
  getLine e (position_start_line h) = Some l -> markerRun l = Some m ->
  exists st1,
    numberingStep settings e st h = Continue st1
    /\ changes st1
       = changes st
           ++ prefixEdit (position_start_line h) l
                (m ++ (if isExcluded settings (level h) then js " "
                       else makeNumberingString (numberingStack st1)
                              ++ separator settings ++ js " ")).
Proof.
  intros Hl Hm. assert (l <> []) as Hne by (intros ->; discriminate).
  unfold numberingStep.
  rewrite (getHeadingPrefixRange_line e h l Hl Hne).
  rewrite (makeHeadingHashString_line e h l Hl), Hm.
  destruct (isExcluded settings (level h)) eqn:Hex.
  - eexists. split; [reflexivity|]. cbn [changes].
    apply (replaceRangeSafely_prefix e _ _ _ _ Hl).
  - cbv zeta. rewrite (not_excluded_within_max _ _ Hex).
    eexists. split; [reflexivity|]. cbn [changes numberingStack].
    apply (replaceRangeSafely_prefix e _ _ _ _ Hl).
Qed.

Lemma for_of_numbering_writes (settings : NumberHeadingsPluginSettings) (e : Editor)
    (hs : list HeadingCache) :
  noLineBreak (separator settings) ->
  Forall (hasMarkerRun e) hs ->
  forall st : NumberingState,
    Forall (fun t => isPatternToken t = true) (numberingStack st) ->
    exists st' eds,
      for_of (numberingStep settings e) st hs = Continue st'
      /\ changes st' = changes st ++ concat eds
      /\ Forall2 (fun h ed => editsOn (position_start_line h) ed) hs eds
      /\ forall i h sti l m,
           hs !! i = Some h ->
           for_of_trace (numberingStep settings e) st hs !! i = Some sti ->
           getLine e (position_start_line h) = Some l -> markerRun l = Some m ->
           eds !! i
           = Some (prefixEdit (position_start_line h) l
                     (m ++ (if isExcluded settings (level h) then js " "
                            else makeNumberingString (numberingStack sti)
                                   ++ separator settings ++ js " "))).
Proof.
  intros Hsep. induction 1 as [|h hs (l & m & Hl & Hm) _ IH]; intros st Htok.
  - exists st, []. split; [reflexivity|]. split; [now rewrite app_nil_r|].
    split; [constructor|]. intros i; destruct i; discriminate.
  - destruct (numberingStep_writes settings e st h l m Hl Hm) as (st1 & Hstep & Hch).
    pose proof (numberingStep_tokens settings e st h Htok) as Htok1.
    rewrite Hstep in Htok1. cbn [outcome_state] in Htok1.
    destruct (IH st1 Htok1) as (st' & eds & Hrun & Hch' & Hons & Hwrites).
    exists st', (prefixEdit (position_start_line h) l
                   (m ++ (if isExcluded settings (level h) then js " "
                          else makeNumberingString (numberingStack st1)
                                 ++ separator settings ++ js " ")) :: eds).
    cbn [for_of for_of_trace concat]. rewrite Hstep.
    split; [exact Hrun|]. split; [now rewrite Hch', Hch, <- app_assoc|]. split.
    + constructor; [|exact Hons]. apply prefixEdit_shape.
      apply noLineBreak_app.
      { apply isMarkerRun_noLineBreak. now apply (markerRun_isMarkerRun l). }
      destruct (isExcluded settings (level h)); [repeat constructor; discriminate|].
      apply noLineBreak_app; [now apply numberingString_noLineBreak|].
      apply noLineBreak_app; [exact Hsep | repeat constructor; discriminate].
    + intros i h' sti l' m' Hh' Hsti Hl' Hm'. destruct i as [|i].
      * injection Hh' as <-. injection Hsti as <-.
        rewrite Hl in Hl'. injection Hl' as <-. rewrite Hm in Hm'. injection Hm' as <-.
        reflexivity.
      * now apply (Hwrites i h' sti l' m').
Qed.

Lemma for_of_trace_tokens (settings : NumberHeadingsPluginSettings) (e : Editor)
    (hs : list HeadingCache) :
  forall st : NumberingState,
    Forall (fun t => isPatternToken t = true) (numberingStack st) ->
    forall i sti,
      for_of_trace (numberingStep settings e) st hs !! i = Some sti ->
      Forall (fun t => isPatternToken t = true) (numberingStack sti).
Proof.
  induction hs as [|h hs IH]; intros st Htok i sti Hi; [discriminate|].
  cbn [for_of_trace] in Hi.
  pose proof (numberingStep_tokens settings e st h Htok) as Htok1.
  destruct (numberingStep settings e st h) as [st1|st1]; cbn [outcome_state] in Htok1.
  - destruct i as [|i]; [now injection Hi as <-|]. now apply (IH st1 Htok1 i).
  - destruct i as [|i]; [now injection Hi as <-|]. destruct i; discriminate.
Qed.

(** X20.  What [updateHeadingNumbering] writes.  On a note whose
    headings lie on lines of their own, each with a marker run, the
    operation leaves on the line of every heading: its marker run; for a
    heading that is not excluded the numbering string of the stack the
    loop had at that heading, and the separator; one space; and the text
    that followed the old prefix.  (The separator must hold no line
    break.) *)
Theorem updateHeadingNumbering_writes_the_numbers
    (settings : NumberHeadingsPluginSettings) (v : ViewInfo) (i : nat)
    (h : HeadingCache) (st : NumberingState) (l m : jsstring) :
  noLineBreak (separator settings) ->
  NoDup (map position_start_line (headings_of v)) ->
  Forall (hasMarkerRun (view_editor v)) (headings_of v) ->
  headings_of v !! i = Some h ->
  for_of_trace (numberingStep settings (view_editor v)) (initialNumberingState settings)
    (headings_of v) !! i = Some st ->
  getLine (view_editor v) (position_start_line h) = Some l ->
  markerRun l = Some m ->
  getLine (view_editor (after v (updateHeadingNumbering (Some v) settings)))
    (position_start_line h)
  = Some (m ++ (if isExcluded settings (level h) then js " "
                else makeNumberingString (numberingStack st)
                       ++ separator settings ++ js " ")
            ++ headingBodyText l).
Proof.
  intros Hsep Hnd Hmark Hh Hst Hl Hm.
  destruct (for_of_numbering_writes settings (view_editor v) (headings_of v) Hsep Hmark
              (initialNumberingState settings)
              (Forall_cons_2 _ _ _ (isPatternToken_zeroth _) (Forall_nil_2 _)))
    as (st' & eds & Hrun & Hch & Hons & Hwrites).
  cbn [initialNumberingState changes app] in Hch.
  unfold after, updateHeadingNumbering. cbn [view_editor].
  rewrite Hrun, dispatch_transaction_of, Hch.
  pose proof (Hwrites i h st l m Hh Hst Hl Hm) as Hed.
  rewrite (getLine_concat_edits (headings_of v) eds Hons Hnd _ i h _ Hh Hed).
  rewrite (getLine_prefixEdit _ _ l _ Hl); [now rewrite <- app_assoc|].
  pose proof (Forall2_lookup_lr _ _ _ _ _ _ Hons Hh Hed) as Hshape.
  unfold prefixEdit in Hshape.
  apply noLineBreak_app.
  { apply isMarkerRun_noLineBreak. now apply (markerRun_isMarkerRun l). }
  destruct (isExcluded settings (level h)); [repeat constructor; discriminate|].
  pose proof (for_of_trace_tokens settings (view_editor v) (headings_of v)
                (initialNumberingState settings)
                (Forall_cons_2 _ _ _ (isPatternToken_zeroth _) (Forall_nil_2 _))
                i st Hst) as Htok.
  apply noLineBreak_app; [now apply numberingString_noLineBreak|].
  apply noLineBreak_app; [exact Hsep | repeat constructor; discriminate].
Qed.

Lemma updateHeadingNumbering_writes_the_numbers_witness :
  exists st,
    for_of_trace (numberingStep (exampleSettings 6) {| doc_lines := exampleLines |})
      (initialNumberingState (exampleSettings 6)) exampleHeadings !! 2%nat = Some st
    /\ makeNumberingString (numberingStack st) = js " 1.2"
    /\ getLine (view_editor (after (mkView exampleLines exampleHeadings)
                               (updateHeadingNumbering
                                  (Some (mkView exampleLines exampleHeadings))
                                  (exampleSettings 6)))) 2
       = Some (js "##" ++ makeNumberingString (numberingStack st)
                 ++ js ". Related Work").
Proof.
  eexists. split; [reflexivity|]. split; [reflexivity|].
  match goal with
  | |- context [numberingStack ?st] =>
      refine (updateHeadingNumbering_writes_the_numbers (exampleSettings 6)
                (mkView exampleLines exampleHeadings) 2
                (mkHeading 2 2 (js "Related Work")) st
                (js "## Related Work") (js "##") _ _ _ _ _ _ _)
  end.
  - repeat constructor; discriminate.
  - apply (bool_decide_unpack _). vm_compute. exact I.
  - repeat constructor; eexists _, _; (split; [reflexivity | vm_compute; reflexivity]).
  - reflexivity.
  - reflexivity.
  - reflexivity.
  - reflexivity.
Defined.

(** X21.  What [removeHeadingNumbering] leaves.  On a note whose
    headings lie on lines of their own, each with a marker run, the
    operation leaves on the line of every heading its marker run, one
    space and the text that followed the old prefix. *)
Theorem removeHeadingNumbering_strips_every_heading (v : ViewInfo) (h : HeadingCache)
    (l m : jsstring) :
  NoDup (map position_start_line (headings_of v)) ->
  Forall (hasMarkerRun (view_editor v)) (headings_of v) ->
  In h (headings_of v) ->
  getLine (view_editor v) (position_start_line h) = Some l ->
  markerRun l = Some m ->
  getLine (view_editor (after v (removeHeadingNumbering (Some v))))
    (position_start_line h)
  = Some (m ++ js " " ++ headingBodyText l).
Proof.
  intros Hnd Hmark Hin Hl Hm.
  destruct (for_of_strips (view_editor v) (headings_of v) Hmark [])
    as (eds & Hrun & Hons & Hstrips).
  cbn [app] in Hrun. unfold after, removeHeadingNumbering. cbn [view_editor].
  rewrite Hrun, dispatch_transaction_of.
  apply list_elem_of_In, list_elem_of_lookup_1 in Hin as [i Hh].
  destruct (Forall2_lookup_l _ _ _ _ _ Hstrips Hh) as (ed & Hed & Hstrip).
  rewrite (getLine_concat_edits (headings_of v) eds Hons Hnd _ i h ed Hh Hed).
  now apply Hstrip.
Qed.

Lemma removeHeadingNumbering_strips_every_heading_witness :
  getLine (view_editor
             (after (mkView [js "# 1. Intro"; js "text"; js "## 1.1. Background"]
                       [mkHeading 1 0 (js "1. Intro"); mkHeading 2 2 (js "1.1. Background")])
                (removeHeadingNumbering
                   (Some (mkView [js "# 1. Intro"; js "text"; js "## 1.1. Background"]
                            [mkHeading 1 0 (js "1. Intro");
                             mkHeading 2 2 (js "1.1. Background")]))))) 2
  = Some (js "## Background").
Proof.
  refine (removeHeadingNumbering_strips_every_heading
            (mkView [js "# 1. Intro"; js "text"; js "## 1.1. Background"]
               [mkHeading 1 0 (js "1. Intro"); mkHeading 2 2 (js "1.1. Background")])
            (mkHeading 2 2 (js "1.1. Background")) (js "## 1.1. Background") (js "##")
            _ _ _ _ _).
  - apply (bool_decide_unpack _). vm_compute. exact I.
  - repeat constructor; eexists _, _; (split; [reflexivity | vm_compute; reflexivity]).
  - right. left. reflexivity.
  - reflexivity.
  - reflexivity.
Defined.

Lemma removal_after_numbering_witness :
  getLine (view_editor
             (after (after (mkView exampleLines exampleHeadings)
                       (updateHeadingNumbering (Some (mkView exampleLines exampleHeadings))
                          (exampleSettings 6)))
                (removeHeadingNumbering
                   (Some (after (mkView exampleLines exampleHeadings)
                            (updateHeadingNumbering
                               (Some (mkView exampleLines exampleHeadings))
                               (exampleSettings 6))))))) 4
  = Some (js "## Setup").
Proof.
  refine (proj2 (removal_after_numbering (exampleSettings 6)
                   (mkView exampleLines exampleHeadings) _ _ _ _
                   (mkHeading 2 4 (js "Setup")) (js "## Setup") (js "##") _ _ _ _ _) _).
  - reflexivity.
  - apply (bool_decide_unpack _). vm_compute. exact I.
  - repeat constructor; cbn; lia.
  - repeat constructor; eexists _, _; (split; [reflexivity | vm_compute; reflexivity]).
  - do 4 right. left. reflexivity.
  - reflexivity.
  - reflexivity.
  - reflexivity.
  - reflexivity.
  - reflexivity.
Defined.

(** ** The directive: from the settings to the text and back *)

Lemma split_char_app_sep (sep : N) (a b : jsstring) :
  Forall (fun c => c <> sep) a ->
  split_char sep (a ++ sep :: b) = a :: split_char sep b.
Proof.
  induction 1 as [|c a Hc _ IH]; cbn [app split_char].
  - now rewrite N.eqb_refl.
  - apply N.eqb_neq in Hc. now rewrite Hc, IH.
Qed.

Lemma split_char_no_sep (sep : N) (a : jsstring) :
  Forall (fun c => c <> sep) a -> split_char sep a = [a].
Proof.
  induction 1 as [|c a Hc _ IH]; cbn [split_char]; [reflexivity|].
  apply N.eqb_neq in Hc. now rewrite Hc, IH.
Qed.

Lemma trim_fixed (s : jsstring) :
  head_is is_js_space s = false -> head_is is_js_space (reverse s) = false ->
  trim s = s.
Proof.
  intros Hh Hl. unfold trim, trimRight. rewrite (trimLeft_fixed s Hh).
  now rewrite (trimLeft_fixed _ Hl), reverse_involutive.
Qed.

Lemma trim_blank (s : jsstring) : trim (32%N :: s) = trim s.
Proof. reflexivity. Qed.

Lemma head_is_app (p : N -> bool) (a b : jsstring) :
  a <> [] -> head_is p (a ++ b) = head_is p a.
Proof. now destruct a. Qed.

Lemma ends_app (a b : jsstring) :
  b <> [] -> head_is is_js_space (reverse b) = false ->
  head_is is_js_space (reverse (a ++ b)) = false.
Proof.
  intros Hb Hl. rewrite reverse_app, head_is_app; [exact Hl|].
  intros Hr. apply (f_equal reverse) in Hr. rewrite reverse_involutive in Hr. done.
Qed.

Lemma digit_cases (c : N) :
  is_digit c = true ->
  c = 48%N \/ c = 49%N \/ c = 50%N \/ c = 51%N \/ c = 52%N
  \/ c = 53%N \/ c = 54%N \/ c = 55%N \/ c = 56%N \/ c = 57%N.
Proof.
  unfold is_digit. intros H. apply andb_true_iff in H as [H1 H2].
  apply N.leb_le in H1, H2. lia.
Qed.

Lemma digits_end (d : jsstring) :
  isDigits d -> head_is is_js_space (reverse d) = false.
Proof.
  intros [Hne Hd]. apply Forall_reverse in Hd.
  destruct (reverse d) as [|c x] eqn:E.
  - reflexivity.
  - inversion Hd as [|? ? Hc _]; subst. cbn [head_is].
    destruct (digit_cases c Hc) as [->|[->|[->|[->|[->|[->|[->|[->|[->| ->]]]]]]]]];
      reflexivity.
Qed.

Lemma digits_no_comma (d : jsstring) :
  Forall (fun c => is_digit c = true) d -> Forall (fun c => c <> 44%N) d.
Proof.
  intros H. eapply Forall_impl; [exact H|]. intros c Hc ->. discriminate.
Qed.

(** [parseInt] on a run of decimal digits reads all of them in base 10. *)
Lemma parseInt_digits (d : jsstring) :
  isDigits d -> parseInt d = parse_digits 10 None d.
Proof.
  intros [Hne Hd]. destruct d as [|c d]; [done|].
  inversion Hd as [|? ? Hc Hd']; subst.
  destruct (digit_cases c Hc) as [->|[->|[->|[->|[->|[->|[->|[->|[->| ->]]]]]]]]];
    unfold parseInt; cbn [trimLeft is_js_space N.leb N.eqb N.compare Pos.compare
                          Pos.compare_cont Pos.eqb andb orb];
    try (destruct (parse_digits 10 None _) as [z|]; reflexivity).
  destruct d as [|c2 d]; [reflexivity|].
  inversion Hd' as [|? ? Hc2 _]; subst.
  destruct (digit_cases c2 Hc2) as [->|[->|[->|[->|[->|[->|[->|[->|[->| ->]]]]]]]]];
    destruct (parse_digits 10 None _) as [z|]; reflexivity.
Qed.

Lemma parse_digits_uint_acc (u : Decimal.uint) :
  forall acc : positive,
    parse_digits 10 (Some (Zpos acc)) (uint_to_js u)
    = Some (Zpos (Pos.of_uint_acc u acc)).
Proof.
  induction u; intros acc; cbn [uint_to_js parse_digits Pos.of_uint_acc];
    [reflexivity|..];
    match goal with
    | |- context [digit_value 10 ?c] =>
        change (digit_value 10 c) with (Some (Z.of_N c - 48)%Z)
    end; cbv iota; rewrite <- IHu; do 2 f_equal; lia.
Qed.

Lemma parse_digits_uint (u : Decimal.uint) :
  parse_digits 10 (Some 0%Z) (uint_to_js u) = Some (Z.of_N (Pos.of_uint u)).
Proof.
  induction u; cbn [uint_to_js parse_digits Pos.of_uint];
    [reflexivity|..];
    match goal with
    | |- context [digit_value 10 ?c] =>
        change (digit_value 10 c) with (Some (Z.of_N c - 48)%Z)
    end; cbv iota;
    [exact IHu | change (Z.of_N (N.pos ?p)) with (Zpos p); apply parse_digits_uint_acc..].
Qed.

Lemma parse_digits_start (u : Decimal.uint) :
  u <> Decimal.Nil ->
  parse_digits 10 None (uint_to_js u) = parse_digits 10 (Some 0%Z) (uint_to_js u).
Proof. destruct u; [done|reflexivity..]. Qed.

(** [parseInt] reads back what [toString] writes. *)
Lemma parseInt_number_toString (n : Z) :
  (0 <= n)%Z -> parseInt (number_toString n) = Some n.
Proof.
  intros Hn. rewrite parseInt_digits by now apply number_toString_isDigits.
  unfold number_toString, Z.to_int. destruct n as [|p|p]; [reflexivity| |lia].
  rewrite parse_digits_start by apply DecimalPos.Unsigned.to_uint_nonnil.
  now rewrite parse_digits_uint, DecimalPos.Unsigned.of_to.
Qed.

Section PartsOfTheDirective.
Variable isValidFirstOrMaxLevel : Z -> bool.
Variable isValidNumberingValueString : jsstring -> bool.
Variable isValidContents : jsstring -> bool.
Variable updateSettingsFromFrontMatterFormatPart :
  jsstring -> NumberHeadingsPluginSettings -> NumberHeadingsPluginSettings.

Let parse := parsePart isValidFirstOrMaxLevel isValidNumberingValueString
               isValidContents updateSettingsFromFrontMatterFormatPart.

Lemma parsePart_blank (st : NumberHeadingsPluginSettings) (part : jsstring) :
  parse st (32%N :: part) = parse st part.
Proof using Type. reflexivity. Qed.

Lemma parsePart_auto (st : NumberHeadingsPluginSettings) :
  parse st (js "auto") = set_auto true st.
Proof using Type. reflexivity. Qed.

Lemma parsePart_firstLevel_after (st : NumberHeadingsPluginSettings) (c : N) (n : Z) :
  (0 <= n)%Z -> isValidFirstOrMaxLevel n = true ->
  parse st (FIRST_LEVEL_PART_KEY ++ c :: number_toString n) = set_firstLevel n st.
Proof using Type.
  intros Hn Hv. pose proof (number_toString_isDigits n Hn) as Hd.
  set (d := number_toString n) in *.
  assert (trim (FIRST_LEVEL_PART_KEY ++ c :: d) = FIRST_LEVEL_PART_KEY ++ c :: d)
    as Htrim.
  { apply trim_fixed; [reflexivity|].
    change (FIRST_LEVEL_PART_KEY ++ c :: d) with ((FIRST_LEVEL_PART_KEY ++ [c]) ++ d).
    apply ends_app; [apply Hd | now apply digits_end]. }
  unfold parse, parsePart. cbv zeta. rewrite Htrim.
  change (length (FIRST_LEVEL_PART_KEY ++ c :: d) =? 0)%nat with false.
  rewrite (str_eqb_false (FIRST_LEVEL_PART_KEY ++ c :: d) AUTO_PART_KEY) by discriminate.
  change (startsWith (FIRST_LEVEL_PART_KEY ++ c :: d) FIRST_LEVEL_PART_KEY) with true.
  change (substring_from (length FIRST_LEVEL_PART_KEY + 1)
            (FIRST_LEVEL_PART_KEY ++ c :: d)) with d.
  cbv iota. unfold d. now rewrite (parseInt_number_toString n Hn), Hv.
Qed.

Lemma parsePart_maxLevel_after (st : NumberHeadingsPluginSettings) (c : N) (n : Z) :
  (0 <= n)%Z -> isValidFirstOrMaxLevel n = true ->
  parse st (MAX_LEVEL_PART_KEY ++ c :: number_toString n) = set_maxLevel n st.
Proof using Type.
  intros Hn Hv. pose proof (number_toString_isDigits n Hn) as Hd.
  set (d := number_toString n) in *.
  assert (trim (MAX_LEVEL_PART_KEY ++ c :: d) = MAX_LEVEL_PART_KEY ++ c :: d) as Htrim.
  { apply trim_fixed; [reflexivity|].
    change (MAX_LEVEL_PART_KEY ++ c :: d) with ((MAX_LEVEL_PART_KEY ++ [c]) ++ d).
    apply ends_app; [apply Hd | now apply digits_end]. }
  unfold parse, parsePart. cbv zeta. rewrite Htrim.
  change (length (MAX_LEVEL_PART_KEY ++ c :: d) =? 0)%nat with false.
  rewrite (str_eqb_false (MAX_LEVEL_PART_KEY ++ c :: d) AUTO_PART_KEY) by discriminate.
  change (startsWith (MAX_LEVEL_PART_KEY ++ c :: d) FIRST_LEVEL_PART_KEY) with false.
  change (startsWith (MAX_LEVEL_PART_KEY ++ c :: d) MAX_LEVEL_PART_KEY) with true.
  change (substring_from (length MAX_LEVEL_PART_KEY + 1)
            (MAX_LEVEL_PART_KEY ++ c :: d)) with d.
  cbv iota. unfold d. now rewrite (parseInt_number_toString n Hn), Hv.
Qed.

Lemma parsePart_firstLevel (st : NumberHeadingsPluginSettings) (n : Z) :
  (0 <= n)%Z -> isValidFirstOrMaxLevel n = true ->
  parse st (js "first-level " ++ number_toString n) = set_firstLevel n st.
Proof using Type. apply (parsePart_firstLevel_after st 32). Qed.

Lemma parsePart_maxLevel (st : NumberHeadingsPluginSettings) (n : Z) :
  (0 <= n)%Z -> isValidFirstOrMaxLevel n = true ->
  parse st (js "max " ++ number_toString n) = set_maxLevel n st.
Proof using Type. apply (parsePart_maxLevel_after st 32). Qed.

Lemma parsePart_contents (st : NumberHeadingsPluginSettings) (c : jsstring) :
  isPartValue c -> isValidContents c = true ->
  parse st (js "contents " ++ c) = set_contents c st.
Proof using Type.
  intros (Hne & _ & Hend) Hv.
  assert (trim (js "contents " ++ c) = js "contents " ++ c) as Htrim.
  { apply trim_fixed; [reflexivity|]. now apply ends_app. }
  unfold parse, parsePart. cbv zeta. rewrite Htrim.
  change (length (js "contents " ++ c) =? 0)%nat with false.
  rewrite (str_eqb_false (js "contents " ++ c) AUTO_PART_KEY) by discriminate.
  change (startsWith (js "contents " ++ c) FIRST_LEVEL_PART_KEY) with false.
  change (startsWith (js "contents " ++ c) MAX_LEVEL_PART_KEY) with false.
  change (startsWith (js "contents " ++ c) START_AT_PART_KEY) with false.
  change (startsWith (js "contents " ++ c) CONTENTS_PART_KEY) with true.
  change (substring_from (length CONTENTS_PART_KEY + 1) (js "contents " ++ c)) with c.
  cbv iota. rewrite Hv.
  destruct c as [|x c]; [done|]. reflexivity.
Qed.

Lemma parsePart_startAt (st : NumberHeadingsPluginSettings) (v : jsstring) :
  isPartValue v -> isValidNumberingValueString v = true ->
  parse st (js "start-at " ++ v) = set_startAt v st.
Proof using Type.
  intros (Hne & _ & Hend) Hv.
  assert (trim (js "start-at " ++ v) = js "start-at " ++ v) as Htrim.
  { apply trim_fixed; [reflexivity|]. now apply ends_app. }
  unfold parse, parsePart. cbv zeta. rewrite Htrim.
  change (length (js "start-at " ++ v) =? 0)%nat with false.
  rewrite (str_eqb_false (js "start-at " ++ v) AUTO_PART_KEY) by discriminate.
  change (startsWith (js "start-at " ++ v) FIRST_LEVEL_PART_KEY) with false.
  change (startsWith (js "start-at " ++ v) MAX_LEVEL_PART_KEY) with false.
  change (startsWith (js "start-at " ++ v) START_AT_PART_KEY) with true.
  change (substring_from (length START_AT_PART_KEY + 1) (js "start-at " ++ v)) with v.
  cbv iota. now rewrite Hv.
Qed.
End PartsOfTheDirective.

Lemma style_char_cases (c : N) : is_style_char c = true -> c = 49%N \/ c = 65%N.
Proof.
  unfold is_style_char. intros H. apply orb_true_iff in H as [H|H];
    apply N.eqb_eq in H; auto.
Qed.

Lemma separator_cases (sep : jsstring) :
  isPatternSeparator sep = true ->
  sep = [] \/ sep = [58%N] \/ sep = [46%N] \/ sep = [45%N].
Proof.
  destruct sep as [|p [|q sep]]; [auto| |discriminate].
  cbn [isPatternSeparator]. unfold is_terminal_punct. intros H.
  apply orb_true_iff in H as [H|H]; [apply orb_true_iff in H as [H|H]|];
    apply N.eqb_eq in H; subst; auto.
Qed.

Lemma part_comma (key value rest : jsstring) :
  (key ++ value ++ js ", ") ++ rest = (key ++ value) ++ 44%N :: 32%N :: rest.
Proof. now rewrite <- !app_assoc. Qed.

Section TheDirectiveRoundTrip.
Variable DEFAULT_SETTINGS : NumberHeadingsPluginSettings.
Variable isValidFirstOrMaxLevel : Z -> bool.
Variable isValidNumberingValueString : jsstring -> bool.
Variable isValidContents : jsstring -> bool.
Variable updateSettingsFromFrontMatterFormatPart :
  jsstring -> NumberHeadingsPluginSettings -> NumberHeadingsPluginSettings.

Let parse := parsePart isValidFirstOrMaxLevel isValidNumberingValueString
               isValidContents updateSettingsFromFrontMatterFormatPart.

Lemma parsePart_format (st : NumberHeadingsPluginSettings) (skip : bool) (c1 c2 : N)
    (sep : jsstring) :
  is_style_char c1 = true -> is_style_char c2 = true ->
  isPatternSeparator sep = true ->
  let token := (if skip then js "_." else []) ++ [c1] ++ js "." ++ [c2] ++ sep in
  Forall (fun c => c <> 44%N) token
  /\ parse st token = updateSettingsFromFrontMatterFormatPart token st.
Proof using Type.
  intros H1 H2 Hsep.
  destruct (style_char_cases c1 H1) as [-> | ->],
           (style_char_cases c2 H2) as [-> | ->],
           (separator_cases sep Hsep) as [-> | [-> | [-> | ->]]],
           skip;
    (split; [repeat constructor; discriminate | reflexivity]).
Qed.

Lemma foldl_parse_step (st : NumberHeadingsPluginSettings) (x rest : jsstring) :
  Forall (fun c => c <> 44%N) x ->
  foldl parse st (split_char 44 (x ++ 44%N :: rest))
  = foldl parse (parse st x) (split_char 44 rest).
Proof using Type. intros Hx. now rewrite split_char_app_sep. Qed.

Lemma foldl_parse_last (st : NumberHeadingsPluginSettings) (x : jsstring) :
  Forall (fun c => c <> 44%N) x ->
  foldl parse st (split_char 44 x) = parse st x.
Proof using Type. intros Hx. now rewrite split_char_no_sep. Qed.

Lemma no_comma_level (key : jsstring) (n : Z) :
  Forall (fun c => c <> 44%N) key -> (0 <= n)%Z ->
  Forall (fun c => c <> 44%N) (32%N :: key ++ number_toString n).
Proof using Type.
  intros Hkey Hn. constructor; [discriminate|]. apply Forall_app. split; [exact Hkey|].
  apply digits_no_comma, number_toString_isDigits, Hn.
Qed.

(** The parts after the two levels: the contents marker and the start
    value, when the settings have them, and the format token. *)
Lemma parse_values_and_format (s st : NumberHeadingsPluginSettings) (c1 c2 : N) :
  (contents s <> [] -> isPartValue (contents s) /\ isValidContents (contents s) = true) ->
  (startAt s <> [] ->
   isPartValue (startAt s) /\ isValidNumberingValueString (startAt s) = true) ->
  styleLevel1 s = [c1] -> styleLevelOther s = [c2] ->
  is_style_char c1 = true -> is_style_char c2 = true ->
  isPatternSeparator (separator s) = true ->
  (forall st, updateSettingsFromFrontMatterFormatPart (formatToken s) st
              = set_format (skipTopLevel s) [c1] [c2] (separator s) st) ->
  foldl parse st
    (split_char 44
       (32%N :: (if (0 <? length (contents s))%nat
                 then js "contents " ++ contents s ++ js ", " else [])
          ++ (if negb (str_eqb (startAt s) [])
              then js "start-at " ++ startAt s ++ js ", " else [])
          ++ formatToken s))
  = set_format (skipTopLevel s) [c1] [c2] (separator s)
      (let st1 := if (0 <? length (contents s))%nat
                  then set_contents (contents s) st else st in
       if negb (str_eqb (startAt s) []) then set_startAt (startAt s) st1 else st1).
Proof using Type.
  intros Hc Hsa Hs1 HsO H1 H2 Hsep HF. cbv zeta.
  assert (forall st0,
             foldl parse st0 (split_char 44 (32%N :: formatToken s))
             = set_format (skipTopLevel s) [c1] [c2] (separator s) st0) as Hlast.
  { intros st0. rewrite <- HF.
    destruct (parsePart_format st0 (skipTopLevel s) c1 c2 (separator s) H1 H2 Hsep)
      as [Hno Hparse]. cbv zeta in Hno, Hparse.
    unfold formatToken. rewrite Hs1, HsO.
    rewrite foldl_parse_last by (constructor; [discriminate | exact Hno]).
    unfold parse. rewrite parsePart_blank. exact Hparse. }
  assert (forall st0,
             foldl parse st0
               (split_char 44
                  (32%N :: (if negb (str_eqb (startAt s) [])
                            then js "start-at " ++ startAt s ++ js ", " else [])
                     ++ formatToken s))
             = set_format (skipTopLevel s) [c1] [c2] (separator s)
                 (if negb (str_eqb (startAt s) [])
                  then set_startAt (startAt s) st0 else st0)) as Hstart.
  { intros st0. unfold str_eqb. case_bool_decide as Heq; cbn [negb].
    - cbn [app]. apply Hlast.
    - destruct (Hsa Heq) as [Hval Hv].
      replace (32%N :: (js "start-at " ++ startAt s ++ js ", ") ++ formatToken s)
        with ((32%N :: js "start-at " ++ startAt s) ++ 44%N :: 32%N :: formatToken s)
        by (cbn [app js]; now rewrite <- !app_assoc).
      rewrite foldl_parse_step.
      + rewrite Hlast. unfold parse. rewrite parsePart_blank.
        now rewrite parsePart_startAt.
      + constructor; [discriminate|]. apply Forall_app. split; [|apply Hval].
        repeat constructor; discriminate. }
  destruct (0 <? length (contents s))%nat eqn:Hlen.
  - assert (contents s <> []) as Hne by (intros E; rewrite E in Hlen; discriminate).
    destruct (Hc Hne) as [Hval Hv].
    replace (32%N :: (js "contents " ++ contents s ++ js ", ")
               ++ (if negb (str_eqb (startAt s) [])
                   then js "start-at " ++ startAt s ++ js ", " else [])
               ++ formatToken s)
      with ((32%N :: js "contents " ++ contents s)
              ++ 44%N :: 32%N :: (if negb (str_eqb (startAt s) [])
                                  then js "start-at " ++ startAt s ++ js ", " else [])
              ++ formatToken s)
      by (cbn [app js]; now rewrite <- !app_assoc).
    rewrite foldl_parse_step.
    + rewrite Hstart. unfold parse. rewrite parsePart_blank.
      now rewrite parsePart_contents.
    + constructor; [discriminate|]. apply Forall_app. split; [|apply Hval].
      repeat constructor; discriminate.
  - cbn [app]. apply Hstart.
Qed.
End TheDirectiveRoundTrip.

(** X19.  The directive round trip for all settings.  The text
    [settingsToCompactFrontMatterValue] writes for the settings [s] is
    parsed back to [s] by [parseCompactFrontMatterSettings] when: the two
    levels are not negative and valid; the contents marker and the start
    value are empty (and so are the defaults), or parts the split and
    the trim leave whole and the validators accept; automatic numbering
    is on, or off in the defaults; the styles are [1] or [A] and the
    separator is one the full-prefix pattern knows; the parser of format
    tokens reads the token written.  (The defaults, the validators and
    the parser of format tokens are those of [settingsTypes.ts] and
    [textProcessing.ts].) *)
Theorem directive_round_trip_for_all_settings
    (DEFAULT_SETTINGS : NumberHeadingsPluginSettings)
    (isValidFirstOrMaxLevel : Z -> bool)
    (isValidNumberingValueString isValidContents : jsstring -> bool)
    (updateSettingsFromFrontMatterFormatPart :
       jsstring -> NumberHeadingsPluginSettings -> NumberHeadingsPluginSettings)
    (s : NumberHeadingsPluginSettings) (c1 c2 : N) :
  (0 <= firstLevel s)%Z -> isValidFirstOrMaxLevel (firstLevel s) = true ->
  (0 <= maxLevel s)%Z -> isValidFirstOrMaxLevel (maxLevel s) = true ->
  (auto s = false -> auto DEFAULT_SETTINGS = false) ->
  (contents s = [] -> contents DEFAULT_SETTINGS = []) ->
  (contents s <> [] -> isPartValue (contents s) /\ isValidContents (contents s) = true) ->
  (startAt s = [] -> startAt DEFAULT_SETTINGS = []) ->
  (startAt s <> [] ->
   isPartValue (startAt s) /\ isValidNumberingValueString (startAt s) = true) ->
  styleLevel1 s = [c1] -> styleLevelOther s = [c2] ->
  is_style_char c1 = true -> is_style_char c2 = true ->
  isPatternSeparator (separator s) = true ->
  (forall st, updateSettingsFromFrontMatterFormatPart (formatToken s) st
              = set_format (skipTopLevel s) [c1] [c2] (separator s) st) ->
  parseCompactFrontMatterSettings DEFAULT_SETTINGS isValidFirstOrMaxLevel
    isValidNumberingValueString isValidContents updateSettingsFromFrontMatterFormatPart
    {[ js "number headings" := settingsToCompactFrontMatterValue s ]}
  = Some s.
Proof.
  intros Hn1 Hv1 Hn2 Hv2 Hauto Hc0 Hc Hsa0 Hsa Hs1 HsO H1 H2 Hsep HF.
  unfold parseCompactFrontMatterSettings, parseFrontMatterEntry.
  rewrite lookup_singleton_eq.
  set (parse := parsePart isValidFirstOrMaxLevel isValidNumberingValueString
                  isValidContents updateSettingsFromFrontMatterFormatPart).
  set (tail := (if (0 <? length (contents s))%nat
                then js "contents " ++ contents s ++ js ", " else [])
               ++ (if negb (str_eqb (startAt s) [])
                   then js "start-at " ++ startAt s ++ js ", " else [])
               ++ formatToken s).
  assert (settingsToCompactFrontMatterValue s
          = (if auto s then js "auto, " else [])
              ++ (js "first-level " ++ number_toString (firstLevel s))
              ++ 44%N :: (32%N :: js "max " ++ number_toString (maxLevel s))
              ++ 44%N :: 32%N :: tail) as Htext.
  { unfold settingsToCompactFrontMatterValue. cbv zeta. f_equal.
    now rewrite !part_comma. }
  assert (forall st,
             foldl parse st
               (split_char 44
                  ((js "first-level " ++ number_toString (firstLevel s))
                     ++ 44%N :: (32%N :: js "max " ++ number_toString (maxLevel s))
                     ++ 44%N :: 32%N :: tail))
             = set_format (skipTopLevel s) [c1] [c2] (separator s)
                 (let st0 := set_maxLevel (maxLevel s) (set_firstLevel (firstLevel s) st) in
                  let st1 := if (0 <? length (contents s))%nat
                             then set_contents (contents s) st0 else st0 in
                  if negb (str_eqb (startAt s) [])
                  then set_startAt (startAt s) st1 else st1)) as Hlevels.
  { intros st. unfold parse.
    rewrite foldl_parse_step.
    2:{ apply Forall_app. split; [repeat constructor; discriminate|].
        apply digits_no_comma, number_toString_isDigits, Hn1. }
    rewrite foldl_parse_step.
    2:{ apply (no_comma_level (js "max ")); [repeat constructor; discriminate | exact Hn2]. }
    unfold tail.
    rewrite (parse_values_and_format _ _ _ _ s _ c1 c2 Hc Hsa Hs1 HsO H1 H2 Hsep HF).
    rewrite parsePart_blank, parsePart_maxLevel, parsePart_firstLevel by assumption.
    reflexivity. }
  assert (parseDirective DEFAULT_SETTINGS isValidFirstOrMaxLevel
            isValidNumberingValueString isValidContents
            updateSettingsFromFrontMatterFormatPart
            (settingsToCompactFrontMatterValue s) = s) as Hparse.
  { unfold parseDirective. fold parse. rewrite Htext.
    assert (forall st0 : NumberHeadingsPluginSettings,
               auto st0 = auto s ->
               skipTopLevel st0 = skipTopLevel DEFAULT_SETTINGS ->
               contents st0 = contents DEFAULT_SETTINGS ->
               startAt st0 = startAt DEFAULT_SETTINGS ->
               set_format (skipTopLevel s) [c1] [c2] (separator s)
                 (let st1 := set_maxLevel (maxLevel s)
                               (set_firstLevel (firstLevel s) st0) in
                  let st2 := if (0 <? length (contents s))%nat
                             then set_contents (contents s) st1 else st1 in
                  if negb (str_eqb (startAt s) [])
                  then set_startAt (startAt s) st2 else st2) = s) as Hrecord.
    { intros st0 Ha _ Hc' Hsa'. cbv zeta. clear Htext Hlevels. clear tail.
      destruct s as [sk fl ml s1 sO au sp co sa].
      cbn [skipTopLevel firstLevel maxLevel styleLevel1 styleLevelOther auto separator
           contents startAt] in *. subst.
      unfold str_eqb. case_bool_decide as Esa; cbn [negb];
        destruct co as [|x co]; cbn [length Nat.ltb Nat.leb];
        unfold set_format, set_startAt, set_contents, set_maxLevel, set_firstLevel;
        cbn; f_equal;
        first [ congruence
              | rewrite Hc', Hc0 by reflexivity; reflexivity
              | rewrite Hsa', Hsa0 by exact Esa; now rewrite Esa ]. }
    destruct (auto s) eqn:Ea.
    - change (js "auto, " ++ ?x) with (js "auto" ++ 44%N :: 32%N :: x).
      unfold parse at 1. rewrite foldl_parse_step by (repeat constructor; discriminate).
      fold parse.
      replace (32%N :: (js "first-level " ++ number_toString (firstLevel s))
                 ++ 44%N :: (32%N :: js "max " ++ number_toString (maxLevel s))
                 ++ 44%N :: 32%N :: tail)
        with ((32%N :: js "first-level " ++ number_toString (firstLevel s))
                 ++ 44%N :: (32%N :: js "max " ++ number_toString (maxLevel s))
                 ++ 44%N :: 32%N :: tail) by reflexivity.
      unfold parse at 1. rewrite foldl_parse_step.
      2:{ apply (no_comma_level (js "first-level "));
            [repeat constructor; discriminate | exact Hn1]. }
      rewrite parsePart_blank. fold parse.
      pose proof (Hlevels (set_auto true DEFAULT_SETTINGS)) as Hl.
      unfold parse at 1 in Hl. rewrite foldl_parse_step in Hl.
      2:{ apply Forall_app. split; [repeat constructor; discriminate|].
          apply digits_no_comma, number_toString_isDigits, Hn1. }
      fold parse in Hl. unfold parse at 3. rewrite parsePart_auto. rewrite Hl.
      apply Hrecord; reflexivity.
    - cbn [app]. rewrite Hlevels. apply Hrecord; try reflexivity. now apply Hauto. }
  destruct (settingsToCompactFrontMatterValue s) as [|c x] eqn:E.
  - rewrite Htext in E. destruct (auto s); discriminate.
  - now rewrite Hparse.
Qed.

Lemma directive_round_trip_for_all_settings_witness :
  parseCompactFrontMatterSettings specDefaultSettings (fun n => (1 <=? n)%Z)
    specIsValidValue specIsValidContents specFormatPart
    {[ js "number headings"
       := settingsToCompactFrontMatterValue
            {| skipTopLevel := true; firstLevel := 1; maxLevel := 12;
               styleLevel1 := js "A"; styleLevelOther := js "1"; auto := false;
               separator := js ":"; contents := js "Table of contents";
               startAt := js "C" |} ]}
  = Some {| skipTopLevel := true; firstLevel := 1; maxLevel := 12;
            styleLevel1 := js "A"; styleLevelOther := js "1"; auto := false;
            separator := js ":"; contents := js "Table of contents";
            startAt := js "C" |}.
Proof.
  refine (directive_round_trip_for_all_settings specDefaultSettings
            (fun n => (1 <=? n)%Z) specIsValidValue specIsValidContents specFormatPart
            {| skipTopLevel := true; firstLevel := 1; maxLevel := 12;
               styleLevel1 := js "A"; styleLevelOther := js "1"; auto := false;
               separator := js ":"; contents := js "Table of contents";
               startAt := js "C" |} 65 49 _ _ _ _ _ _ _ _ _ _ _ _ _ _ _).
  all: cbn [firstLevel maxLevel auto contents startAt styleLevel1 styleLevelOther
            separator skipTopLevel]; try reflexivity; try lia; try discriminate.
  all: try (intros _; split; [|reflexivity];
            split; [discriminate|]; split; [repeat constructor; discriminate | reflexivity]).
Defined.

(** *** Automatic numbering *)

Section AutoOfTheDirective.
Variable DEFAULT_SETTINGS : NumberHeadingsPluginSettings.
Variable isValidFirstOrMaxLevel : Z -> bool.
Variable isValidNumberingValueString : jsstring -> bool.
Variable isValidContents : jsstring -> bool.
Variable updateSettingsFromFrontMatterFormatPart :
  jsstring -> NumberHeadingsPluginSettings -> NumberHeadingsPluginSettings.
Hypothesis format_keeps_auto :
  forall part st, auto (updateSettingsFromFrontMatterFormatPart part st) = auto st.

Lemma parsePart_auto_field (st : NumberHeadingsPluginSettings) (part : jsstring) :
  auto (parsePart isValidFirstOrMaxLevel isValidNumberingValueString isValidContents
          updateSettingsFromFrontMatterFormatPart st part)
  = auto st || str_eqb (trim part) AUTO_PART_KEY.
Proof using format_keeps_auto.
  unfold parsePart. cbv zeta.
  destruct (length (trim part) =? 0)%nat eqn:Hlen.
  { destruct (trim part); [|discriminate]. now rewrite orb_false_r. }
  destruct (str_eqb (trim part) AUTO_PART_KEY); [now rewrite orb_true_r|].
  rewrite orb_false_r.
  repeat match goal with
         | |- context [if ?b then _ else _] => destruct b
         | |- context [match ?x with Some _ => _ | None => _ end] => destruct x
         end; try reflexivity.
  apply format_keeps_auto.
Qed.

End AutoOfTheDirective.

(** X22.  Automatic numbering after a directive is parsed: it is on
    exactly when it is on in the defaults or one of the parts between
    commas is, the white space around it apart, the word [auto]; no part
    turns it off.  (The parser of format tokens, of [textProcessing.ts],
    must leave the setting as it is.) *)
Theorem auto_is_on_iff_a_part_says_auto
    (DEFAULT_SETTINGS : NumberHeadingsPluginSettings)
    (isValidFirstOrMaxLevel : Z -> bool)
    (isValidNumberingValueString isValidContents : jsstring -> bool)
    (updateSettingsFromFrontMatterFormatPart :
       jsstring -> NumberHeadingsPluginSettings -> NumberHeadingsPluginSettings)
    (entryString : jsstring) :
  (forall part st, auto (updateSettingsFromFrontMatterFormatPart part st) = auto st) ->
  auto (parseDirective DEFAULT_SETTINGS isValidFirstOrMaxLevel
          isValidNumberingValueString isValidContents
          updateSettingsFromFrontMatterFormatPart entryString)
  = auto DEFAULT_SETTINGS
    || existsb (fun part => str_eqb (trim part) AUTO_PART_KEY)
         (split_char 44 entryString).
Proof.
  intros HF. unfold parseDirective.
  generalize DEFAULT_SETTINGS as st.
  induction (split_char 44 entryString) as [|p parts IH]; intros st;
    cbn [foldl existsb].
  - now rewrite orb_false_r.
  - rewrite IH, parsePart_auto_field by exact HF. now rewrite orb_assoc.
Qed.

Lemma specFormatPart_keeps_auto (part : jsstring) (st : NumberHeadingsPluginSettings) :
  auto (specFormatPart part st) = auto st.
Proof.
  unfold specFormatPart.
  match goal with
  | |- context [match ?M with (skip, rest) => _ end] => destruct M as [skip rest]
  end.
  destruct rest as [|c1 [|d [|c2 sep]]]; try reflexivity;
    repeat match goal with
           | |- context [match ?x with _ => _ end] => destruct x
           end; reflexivity.
Qed.

Lemma auto_is_on_iff_a_part_says_auto_witness :
  auto (parseDirective specDefaultSettings specIsValidLevel specIsValidValue
          specIsValidContents specFormatPart (js "max 3,  auto , 1.1."))
  = auto specDefaultSettings
    || existsb (fun part => str_eqb (trim part) AUTO_PART_KEY)
         (split_char 44 (js "max 3,  auto , 1.1.")).
Proof.
  refine (auto_is_on_iff_a_part_says_auto specDefaultSettings specIsValidLevel
            specIsValidValue specIsValidContents specFormatPart
            (js "max 3,  auto , 1.1.") _).
  exact specFormatPart_keeps_auto.
Defined.

(** X24.  A level part is read whatever character follows its key.  The
    parser takes the text after the key and one more character for the
    number: a part made of [first-level] (or [max]), any one character
    and the digits of a level that is not negative and valid sets the
    level, and the parts before and after it do not matter to that. *)
Theorem level_part_skips_one_character
    (isValidFirstOrMaxLevel : Z -> bool)
    (isValidNumberingValueString isValidContents : jsstring -> bool)
    (updateSettingsFromFrontMatterFormatPart :
       jsstring -> NumberHeadingsPluginSettings -> NumberHeadingsPluginSettings)
    (st : NumberHeadingsPluginSettings) (c : N) (n : Z) :
  (0 <= n)%Z -> isValidFirstOrMaxLevel n = true ->
  parsePart isValidFirstOrMaxLevel isValidNumberingValueString isValidContents
    updateSettingsFromFrontMatterFormatPart st
    (FIRST_LEVEL_PART_KEY ++ c :: number_toString n) = set_firstLevel n st
  /\ parsePart isValidFirstOrMaxLevel isValidNumberingValueString isValidContents
       updateSettingsFromFrontMatterFormatPart st
       (MAX_LEVEL_PART_KEY ++ c :: number_toString n) = set_maxLevel n st.
Proof.
  intros Hn Hv. split.
  - now apply parsePart_firstLevel_after.
  - now apply parsePart_maxLevel_after.
Qed.

Lemma level_part_skips_one_character_witness :
  parsePart specIsValidLevel specIsValidValue specIsValidContents specFormatPart
    specDefaultSettings (js "first-level=3") = set_firstLevel 3 specDefaultSettings
  /\ parsePart specIsValidLevel specIsValidValue specIsValidContents specFormatPart
       specDefaultSettings (js "max=3") = set_maxLevel 3 specDefaultSettings.
Proof.
  refine (level_part_skips_one_character specIsValidLevel specIsValidValue
            specIsValidContents specFormatPart specDefaultSettings 61 3 _ _).
  - lia.
  - reflexivity.
Defined.

(** ** The first numbered heading *)

Lemma first_after_excluded (settings : NumberHeadingsPluginSettings) (e : Editor)
    (pre : list HeadingCache) (h : HeadingCache) (rest : list HeadingCache) :
  Forall (fun x => isExcluded settings (level x) = true) pre ->
  isExcluded settings (level h) = false ->
  forall st0,
    exists st,
      for_of_trace (numberingStep settings e) st0 (pre ++ h :: rest) !! length pre
      = Some st
      /\ previousLevel st = level h
      /\ numberingStack st
         = adjustNumberingStack settings (previousLevel st0) (level h)
             (numberingStack st0).
Proof.
  intros Hpre Hex. induction Hpre as [|x pre Hx _ IH]; intros st0.
  - cbn [app length for_of_trace].
    pose proof (numberingStep_state settings e st0 h) as Hst. cbv zeta in Hst.
    rewrite Hex in Hst.
    destruct (numberingStep settings e st0 h) as [st|st]; exists st; now split.
  - cbn [app length for_of_trace].
    destruct (numberingStep_excluded settings e st0 x Hx) as (st' & -> & Hl & Hs).
    cbn [lookup list_lookup]. rewrite <- Hl, <- Hs. apply IH.
Qed.

(** X25.  The number of the first numbered heading.  Before it the loop
    has seen excluded headings only, so the stack is the zeroth token.  A
    first heading at the start level (1, or 2 when the top level is
    skipped) gets the token after the zeroth: 1 or A.  A deeper first
    heading keeps the zeroth token and gets one first token for each
    level below the start level: with the styles [1], a note that begins
    with a second-level heading numbers it 0.1. *)
Theorem first_numbered_heading (settings : NumberHeadingsPluginSettings) (e : Editor)
    (pre : list HeadingCache) (h : HeadingCache) (rest : list HeadingCache) :
  Forall (fun x => isExcluded settings (level x) = true) pre ->
  isExcluded settings (level h) = false ->
  (1 <= level h)%Z ->
  exists st,
    for_of_trace (numberingStep settings e) (initialNumberingState settings)
      (pre ++ h :: rest) !! length pre = Some st
    /\ numberingStack st
       = if (level h =? startLevel settings)%Z
         then [nextNumberingToken (zerothNumberingTokenInStyle (styleLevel1 settings))]
         else zerothNumberingTokenInStyle (styleLevel1 settings)
                :: replicate (Z.to_nat (level h - startLevel settings))
                     (firstNumberingTokenInStyle (styleLevelOther settings)).
Proof.
  intros Hpre Hex Hpos.
  destruct (first_after_excluded settings e pre h rest Hpre Hex
              (initialNumberingState settings)) as (st & Hst & _ & Hstack).
  exists st. split; [exact Hst|]. rewrite Hstack.
  pose proof (startLevel_le_level settings (level h) Hpos Hex) as Hstart.
  unfold adjustNumberingStack, initialNumberingState. cbn [previousLevel numberingStack].
  change (if skipTopLevel settings then 2%Z else 1%Z) with (startLevel settings).
  destruct (level h =? startLevel settings)%Z eqn:E1; [reflexivity|].
  apply Z.eqb_neq in E1.
  destruct (level h <? startLevel settings)%Z eqn:E2; [apply Z.ltb_lt in E2; lia|].
  destruct (level h >? startLevel settings)%Z eqn:E3; [|lia].
  now rewrite push_times_app.
Qed.

Lemma first_numbered_heading_witness :
  exists st,
    for_of_trace (numberingStep (exampleSettings 6) {| doc_lines := [js "## A"] |})
      (initialNumberingState (exampleSettings 6)) [mkHeading 2 0 (js "A")] !! 0%nat
    = Some st
    /\ numberingStack st = [TNumber 0; TNumber 1].
Proof.
  refine (first_numbered_heading (exampleSettings 6) {| doc_lines := [js "## A"] |}
            [] (mkHeading 2 0 (js "A")) [] _ _ _).
  - constructor.
  - reflexivity.
  - cbn. lia.
Defined.

(** ** Line breaks in the directive *)

Lemma number_toString_noLineBreak (n : Z) : noLineBreak (number_toString n).
Proof.
  assert (forall u, noLineBreak (uint_to_js u)) as Hu.
  { intros u. eapply Forall_impl; [apply uint_to_js_digits|].
    intros c Hc. split; intros ->; discriminate. }
  unfold number_toString. destruct (Z.to_int n); [apply Hu|].
  constructor; [split; discriminate | apply Hu].
Qed.

(** X26.  The directive [settingsToCompactFrontMatterValue] writes holds
    no line break exactly when the contents marker, the start value, the
    two styles and the separator hold none: these are the settings that
    can break the line [saveSettingsToFrontMatter] writes. *)
Theorem directive_holds_no_line_break_iff (s : NumberHeadingsPluginSettings) :
  noLineBreak (settingsToCompactFrontMatterValue s)
  <-> noLineBreak (contents s) /\ noLineBreak (startAt s)
      /\ noLineBreak (styleLevel1 s) /\ noLineBreak (styleLevelOther s)
      /\ noLineBreak (separator s).
Proof.
  pose proof (number_toString_noLineBreak (firstLevel s)) as Hn1.
  pose proof (number_toString_noLineBreak (maxLevel s)) as Hn2.
  assert (noLineBreak (js "auto, ")) as L1 by (repeat constructor; discriminate).
  assert (noLineBreak (js "first-level ")) as L2 by (repeat constructor; discriminate).
  assert (noLineBreak (js ", ")) as L3 by (repeat constructor; discriminate).
  assert (noLineBreak (js "max ")) as L4 by (repeat constructor; discriminate).
  assert (noLineBreak (js "contents ")) as L5 by (repeat constructor; discriminate).
  assert (noLineBreak (js "start-at ")) as L6 by (repeat constructor; discriminate).
  assert (noLineBreak (js "_.")) as L7 by (repeat constructor; discriminate).
  assert (noLineBreak (js ".")) as L8 by (repeat constructor; discriminate).
  assert (noLineBreak []) as L9 by constructor.
  unfold settingsToCompactFrontMatterValue. cbv zeta. unfold str_eqb.
  destruct (auto s), (skipTopLevel s);
    destruct (contents s) as [|x c] eqn:Ec; cbn [length Nat.ltb Nat.leb];
    case_bool_decide as Es; cbn [negb]; rewrite ?Es;
    unfold noLineBreak in *; rewrite ?Forall_app; tauto.
Qed.

(** X27.  The first child gets first tokens.  Let the heading [hj] come
    before the heading [hi], both numbered, [hi] deeper than [hj], and
    every heading between them excluded.  Then the stack at [hi] is the
    stack at [hj] followed by one first token (1 or A, by the style of
    the other levels) for each level from [hj] down to [hi]. *)
Theorem first_child_gets_first_tokens
    (settings : NumberHeadingsPluginSettings) (e : Editor) (hs : list HeadingCache)
    (j i : nat) (hj hi : HeadingCache) (stj sti : NumberingState) :
  Forall (fun h => 1 <= level h)%Z hs ->
  (j < i)%nat ->
  hs !! j = Some hj -> hs !! i = Some hi ->
  isExcluded settings (level hj) = false ->
  isExcluded settings (level hi) = false ->
  (forall k hk, (j < k < i)%nat -> hs !! k = Some hk ->
     isExcluded settings (level hk) = true) ->
  (level hj < level hi)%Z ->
  for_of_trace (numberingStep settings e) (initialNumberingState settings) hs !! j
  = Some stj ->
  for_of_trace (numberingStep settings e) (initialNumberingState settings) hs !! i
  = Some sti ->
  numberingStack sti
  = numberingStack stj
      ++ replicate (Z.to_nat (level hi - level hj))
           (firstNumberingTokenInStyle (styleLevelOther settings)).
Proof.
  intros Hpos Hji Hj Hi Hexj Hexi Hbetween Hdeeper Htj Hti.
  destruct (for_of_trace_invariant settings e hs Hpos (initialNumberingState settings)
              j hj stj (initialNumberingState_invariant settings) Hj Htj) as [_ Hlj].
  specialize (Hlj Hexj).
  pose proof (for_of_trace_from _ _ _ _ _ _ _ Hji Htj Hti) as Htr.
  set (rest := drop (S j) hs) in *. set (n := (i - S j)%nat) in *.
  assert (rest !! n = Some hi) as Hn.
  { unfold rest, n. rewrite lookup_drop. now replace (S j + (i - S j))%nat with i by lia. }
  assert (Forall (fun x => isExcluded settings (level x) = true) (take n rest)) as Hpre.
  { apply Forall_lookup_2. intros k hk Hk.
    apply lookup_take_Some in Hk as [Hk Hlt].
    unfold rest in Hk. rewrite lookup_drop in Hk.
    apply (Hbetween (S j + k)%nat hk); [unfold n in Hlt; lia | exact Hk]. }
  rewrite <- (take_drop_middle rest n hi Hn) in Htr.
  destruct (first_after_excluded settings e (take n rest) hi (drop (S n) rest) Hpre Hexi stj)
    as (st & Hst & _ & Hstack).
  rewrite length_take_le in Hst by (apply lookup_lt_Some in Hn; lia).
  rewrite Hst in Htr. injection Htr as <-.
  rewrite Hstack, Hlj. unfold adjustNumberingStack.
  destruct (level hi =? level hj)%Z eqn:E1; [apply Z.eqb_eq in E1; lia|].
  destruct (level hi <? level hj)%Z eqn:E2; [apply Z.ltb_lt in E2; lia|].
  destruct (level hi >? level hj)%Z eqn:E3; [|lia].
  apply push_times_app.
Qed.

Lemma first_child_gets_first_tokens_witness :
  exists stj sti,
    for_of_trace (numberingStep (exampleSettings 6) {| doc_lines := exampleLines |})
      (initialNumberingState (exampleSettings 6)) exampleHeadings !! 3%nat = Some stj
    /\ for_of_trace (numberingStep (exampleSettings 6) {| doc_lines := exampleLines |})
         (initialNumberingState (exampleSettings 6)) exampleHeadings !! 4%nat = Some sti
    /\ numberingStack stj = [TNumber 2]
    /\ numberingStack sti = numberingStack stj ++ replicate 1 (TNumber 1).
Proof.
  eexists _, _. split; [reflexivity|]. split; [reflexivity|]. split; [reflexivity|].
  refine (first_child_gets_first_tokens (exampleSettings 6)
            {| doc_lines := exampleLines |} exampleHeadings 3 4
            (mkHeading 1 3 (js "Methods")) (mkHeading 2 4 (js "Setup")) _ _
            _ _ _ _ _ _ _ _ _ _).
  - repeat constructor; cbn; lia.
  - lia.
  - reflexivity.
  - reflexivity.
  - reflexivity.
  - reflexivity.
  - intros k hk Hk. lia.
  - cbn. lia.
  - reflexivity.
  - reflexivity.
Defined.

(** ** Sibling runs in the loop *)









